(** * CommandHotline: the birthday cog, its date parser and its sweeps

    A shallow embedding of [bot/cogs/birthdays.py], [bot/lib/util.py] and
    the parts of [bot/lib/database.py] the cog goes through, together with
    the fragments of the Python standard library ([re], [_strptime],
    [datetime]) and of [dateutil] / [peewee_async] that decide what the cog
    computes.

    Text is a [string] of code points below 256; integers are [Z]; naive
    datetimes are microsecond counts on the proleptic Gregorian time
    line. *)

From Stdlib Require Import ZArith Ascii String List Bool Lia.
From stdpp Require Import base option list gmap strings.

Local Open Scope Z_scope.

(* ===================================================================== *)
(** * Exceptions and fallible computations *)
(* ===================================================================== *)

(** The exception classes the modelled code can raise.  In the source
    [BirthdayParseError] is declared as a subclass of [ValueError] and
    carries a message; [ValueError] itself is what [strptime] and
    [datetime.date] raise; [AttributeError] is what [setattr] raises on an
    object without that attribute; [DataError] is [peewee.DataError], raised
    when the database refuses a value for its column, and [IntegrityError]
    is [peewee.IntegrityError], raised when a row with the same primary key
    is already there; [HTTPException] is [discord.HTTPException], raised by
    a send that Discord turns down. *)
Inductive exn : Type :=
| BirthdayParseError (msg : string)
| ValueError
| AttributeError
| DataError
| IntegrityError
| HTTPException.

(** Exception classes, for [except] clauses. *)
Inductive exn_class : Type :=
| CBirthdayParseError
| CValueError
| CAttributeError
| CDataError
| CIntegrityError
| CHTTPException.

Definition class_of (e : exn) : exn_class :=
  match e with
  | BirthdayParseError _ => CBirthdayParseError
  | ValueError => CValueError
  | AttributeError => CAttributeError
  | DataError => CDataError
  | IntegrityError => CIntegrityError
  | HTTPException => CHTTPException
  end.

(** [isinstance e cls]: [BirthdayParseError] derives from [ValueError]. *)
Definition isinstance (e : exn) (cls : exn_class) : bool :=
  match e, cls with
  | BirthdayParseError _, CBirthdayParseError => true
  | BirthdayParseError _, CValueError => true
  | ValueError, CValueError => true
  | AttributeError, CAttributeError => true
  | DataError, CDataError => true
  | IntegrityError, CIntegrityError => true
  | HTTPException, CHTTPException => true
  | _, _ => false
  end.

Inductive result (A : Type) : Type :=
| Ok (a : A)
| Raise (e : exn).

Arguments Ok {A} a.
Arguments Raise {A} e.

(** Sequencing: an exception raised by the first computation is passed on. *)
#[global] Instance result_ret : MRet result := fun A a => Ok a.
#[global] Instance result_bind : MBind result := fun A B f m =>
  match m with
  | Ok a => f a
  | Raise e => Raise e
  end.

(* ===================================================================== *)
(** * Characters and strings *)
(* ===================================================================== *)

Definition code (c : ascii) : N := N_of_ascii c.

(** [\d]: below code point 256 the decimal digits are [0] to [9]. *)
Definition is_digit (c : ascii) : bool :=
  ((48 <=? code c) && (code c <=? 57))%N.

(** [str.isspace] / [\s]: below code point 256 the blanks are TAB, LF, VT,
    FF, CR, the four separators 0x1c-0x1f, the space, NEL (0x85) and the
    no-break space (0xa0). *)
Definition is_space (c : ascii) : bool :=
  (((9 <=? code c) && (code c <=? 13)) ||
   ((28 <=? code c) && (code c <=? 32)) ||
   (code c =? 133) || (code c =? 160))%N.

(** A character range [[lo-hi]]. *)
Definition in_range (lo hi : ascii) (c : ascii) : bool :=
  ((code lo <=? code c) && (code c <=? code hi))%N.

(** A literal character. *)
Definition is_char (a : ascii) (c : ascii) : bool := Ascii.eqb a c.

Fixpoint lstrip (s : string) : string :=
  match s with
  | String c s' => if is_space c then lstrip s' else s
  | EmptyString => EmptyString
  end.

Fixpoint rev_string (s acc : string) : string :=
  match s with
  | String c s' => rev_string s' (String c acc)
  | EmptyString => acc
  end.

(** [str.strip()] *)
Definition strip (s : string) : string :=
  rev_string (lstrip (rev_string (lstrip s) EmptyString)) EmptyString.

(** [sub in s] for strings. *)
Fixpoint contains (sub s : string) : bool :=
  String.prefix sub s ||
  match s with
  | String _ s' => contains sub s'
  | EmptyString => false
  end.

(** The first [n] characters of [s]. *)
Fixpoint take_string (n : nat) (s : string) : string :=
  match n, s with
  | S n', String c s' => String c (take_string n' s')
  | _, _ => EmptyString
  end.

(** The last [n] characters of [s] (the slice [s[-n:]], [n > 0]). *)
Definition last_chars (n : nat) (s : string) : string :=
  String.substring (String.length s - n) n s.

(** Decimal digits of a non-negative number, most significant first. *)
Definition digit_char (d : Z) : ascii := ascii_of_N (48 + Z.to_N d).

Fixpoint digits_fuel (fuel : nat) (n : Z) (acc : string) : string :=
  match fuel with
  | O => acc
  | S fuel' =>
      let acc' := String (digit_char (n mod 10)) acc in
      if n <? 10 then acc' else digits_fuel fuel' (n / 10) acc'
  end.

(** [str(n)] for an [int]. A number below [10^k] has at most [k] digits and
    [n < 10^(S (log2 n))], so the fuel never runs out. *)
Definition str_of_Z (n : Z) : string :=
  if n <? 0
  then String "-" (digits_fuel (S (Z.to_nat (Z.log2 (- n)))) (- n) EmptyString)
  else digits_fuel (S (Z.to_nat (Z.log2 n))) n EmptyString.

Fixpoint zeros (n : nat) : string :=
  match n with
  | O => EmptyString
  | S n' => String "0" (zeros n')
  end.

(** The format specification [{n:0w}]: sign-aware zero padding to width
    [w]. *)
Definition format_0w (w : nat) (n : Z) : string :=
  if n <? 0
  then let ds := str_of_Z (- n) in
       String "-" (zeros (w - 1 - String.length ds) +:+ ds)
  else let ds := str_of_Z n in
       zeros (w - String.length ds) +:+ ds.

(** [int(s)] on the strings [strptime] captures: optional leading blanks,
    then decimal digits. *)
Fixpoint int_digits (s : string) (acc : Z) : Z :=
  match s with
  | String c s' => int_digits s' (10 * acc + (Z.of_N (code c) - 48))
  | EmptyString => acc
  end.

Definition py_int (s : string) : Z := int_digits (lstrip s) 0.

(* ===================================================================== *)
(** * A backtracking matcher for the [re] fragment in use *)
(* ===================================================================== *)

(** Regular expressions as [re] compiles them: ordered alternation,
    greedy [?] and [+], named groups.  [re.IGNORECASE] changes nothing for
    the digit and punctuation classes used here. *)
Inductive regex : Type :=
| Eps
| Cls (p : ascii -> bool)
| Seq (r1 r2 : regex)
| Alt (r1 r2 : regex)
| Opt (r : regex)
| Plus (p : ascii -> bool)
| Grp (name : string) (r : regex).

(** Captured groups, most recent first. *)
Definition groups : Type := list (string * string).

(** Greedy [p+]: take one character, try to take more, and only when the
    rest of the pattern fails after that give the characters back. *)
Fixpoint plus_match {A : Type} (p : ascii -> bool) (s : string)
    (k : string -> option A) : option A :=
  match s with
  | String c s' =>
      if p c
      then match plus_match p s' k with
           | Some x => Some x
           | None => k s'
           end
      else None
  | EmptyString => None
  end.

(** [rmatch r s g k]: match [r] at the start of [s], then run the rest of
    the pattern [k] on what is left; on failure of [k] the alternatives are
    tried in the order [re] tries them. *)
Fixpoint rmatch {A : Type} (r : regex) (s : string) (g : groups)
    (k : string -> groups -> option A) : option A :=
  match r with
  | Eps => k s g
  | Cls p =>
      match s with
      | String c s' => if p c then k s' g else None
      | EmptyString => None
      end
  | Seq r1 r2 => rmatch r1 s g (fun s' g' => rmatch r2 s' g' k)
  | Alt r1 r2 =>
      match rmatch r1 s g k with
      | Some x => Some x
      | None => rmatch r2 s g k
      end
  | Opt r1 =>
      match rmatch r1 s g k with
      | Some x => Some x
      | None => k s g
      end
  | Plus p => plus_match p s (fun s' => k s' g)
  | Grp name r1 =>
      rmatch r1 s g
        (fun s' g' =>
           k s' ((name, take_string (String.length s - String.length s') s) :: g'))
  end.

(** A match object: where the match ends and what the groups captured. *)
Record match_obj : Type := MatchObj {
  m_end : nat;
  m_groups : groups
}.

(** [pattern.match(s)]: anchored at the start of [s] only. *)
Definition re_match (r : regex) (s : string) : option match_obj :=
  rmatch r s []
    (fun s' g => Some (MatchObj (String.length s - String.length s') g)).

(** [m[name]] *)
Fixpoint group (name : string) (g : groups) : option string :=
  match g with
  | (n, v) :: g' => if String.eqb n name then Some v else group name g'
  | [] => None
  end.

Declare Scope regex_scope.
Delimit Scope regex_scope with re.
Infix "·" := Seq (at level 41, right associativity) : regex_scope.

Definition dig : regex := Cls is_digit.
Definition lit (c : ascii) : regex := Cls (is_char c).
Definition rng (lo hi : ascii) : regex := Cls (in_range lo hi).

(* ===================================================================== *)
(** * Calendar dates and naive datetimes *)
(* ===================================================================== *)

(** [datetime.date] *)
Record date : Type := Date {
  d_year : Z;
  d_month : Z;
  d_day : Z
}.

Definition is_leap (y : Z) : bool :=
  (y mod 4 =? 0) && (negb (y mod 100 =? 0) || (y mod 400 =? 0)).

Definition days_in_month (y m : Z) : Z :=
  if m =? 2 then (if is_leap y then 29 else 28)
  else if (m =? 4) || (m =? 6) || (m =? 9) || (m =? 11) then 30
  else 31.

Definition MINYEAR : Z := 1.
Definition MAXYEAR : Z := 9999.

(** The checks of the [datetime.date] constructor. *)
Definition valid_date (d : date) : bool :=
  (MINYEAR <=? d_year d) && (d_year d <=? MAXYEAR) &&
  (1 <=? d_month d) && (d_month d <=? 12) &&
  (1 <=? d_day d) && (d_day d <=? days_in_month (d_year d) (d_month d)).

(** [datetime.date(y, m, d)] raises [ValueError] outside these ranges. *)
Definition mk_date (y m d : Z) : result date :=
  if valid_date (Date y m d) then Ok (Date y m d) else Raise ValueError.

(** [a > b] on dates: lexicographic on year, month, day. *)
Definition date_gt (a b : date) : bool :=
  (d_year b <? d_year a) ||
  ((d_year a =? d_year b) &&
   ((d_month b <? d_month a) ||
    ((d_month a =? d_month b) && (d_day b <? d_day a)))).

Definition date_lt (a b : date) : bool := date_gt b a.

Definition days_before_year (y : Z) : Z :=
  let y' := y - 1 in y' * 365 + y' / 4 - y' / 100 + y' / 400.

Definition days_before_month (y m : Z) : Z :=
  nth (Z.to_nat m) [0; 0; 31; 59; 90; 120; 151; 181; 212; 243; 273; 304; 334] 0
  + (if (2 <? m) && is_leap y then 1 else 0).

(** [date.toordinal()]: 1 for 0001-01-01. *)
Definition toordinal (d : date) : Z :=
  days_before_year (d_year d) + days_before_month (d_year d) (d_month d)
  + d_day d.

(** A naive [datetime.datetime], as the number of microseconds since
    0001-01-01 00:00:00; comparison and subtraction of naive datetimes are
    those of this number. *)
Definition datetime : Type := Z.

Definition MICROS_PER_DAY : Z := 86400 * 1000000.

(** [datetime.datetime(d.year, d.month, d.day, 0, 0)] *)
Definition datetime_at_midnight (d : date) : datetime :=
  (toordinal d - 1) * MICROS_PER_DAY.

(** [dt - relativedelta(days=n)]: a plain shift by [n] days. *)
Definition minus_days (dt : datetime) (n : Z) : datetime :=
  dt - n * MICROS_PER_DAY.

(* ===================================================================== *)
(** * [strftime] and [strptime] for the directives in use *)
(* ===================================================================== *)

(** [d.strftime(fmt)] for the directives [%d], [%m], [%Y]; other characters
    are copied.  [%d] and [%m] are padded with a zero to two digits.  [%Y]
    is handed to the C library, and glibc, the C library of CPython on
    Linux, writes the year as a plain decimal numeral: four digits from the
    year 1000 on, and fewer below, without leading zeros ([999], not
    [0999]). *)
Fixpoint strftime (d : date) (fmt : string) : string :=
  match fmt with
  | String "%" (String "d" fmt') => format_0w 2 (d_day d) +:+ strftime d fmt'
  | String "%" (String "m" fmt') => format_0w 2 (d_month d) +:+ strftime d fmt'
  | String "%" (String "Y" fmt') => str_of_Z (d_year d) +:+ strftime d fmt'
  | String c fmt' => String c (strftime d fmt')
  | EmptyString => EmptyString
  end.

(** The regular expressions [_strptime.TimeRE] keeps for its directives:
    ['d': (?P<d>3[0-1]|[1-2]\d|0[1-9]|[1-9]| [1-9])],
    ['m': (?P<m>1[0-2]|0[1-9]|[1-9])], ['y': (?P<y>\d\d)],
    ['Y': (?P<Y>\d\d\d\d)]. *)
Definition day_alts : regex :=
  (Alt (lit "3" · rng "0" "1")
  (Alt (rng "1" "2" · dig)
  (Alt (lit "0" · rng "1" "9")
  (Alt (rng "1" "9")
       (lit " " · rng "1" "9")))))%re.
Definition month_alts : regex :=
  (Alt (lit "1" · rng "0" "2")
  (Alt (lit "0" · rng "1" "9")
       (rng "1" "9")))%re.
Definition RE_d : regex := Grp "d" day_alts.
Definition RE_m : regex := Grp "m" month_alts.
Definition RE_y : regex := Grp "y" (dig · dig)%re.
Definition RE_Y : regex := Grp "Y" (dig · dig · dig · dig)%re.

Definition directive_regex (c : ascii) : option regex :=
  if Ascii.eqb c "d" then Some RE_d
  else if Ascii.eqb c "m" then Some RE_m
  else if Ascii.eqb c "y" then Some RE_y
  else if Ascii.eqb c "Y" then Some RE_Y
  else None.

(** [TimeRE.pattern]: every run of blanks in the format becomes [\s+],
    every directive becomes its regular expression, every other character
    stands for itself.  [None] is the [KeyError] of an unknown directive,
    which [_strptime] turns into a [ValueError]. *)
Fixpoint format_regex (fmt : string) (in_blanks : bool) : option regex :=
  match fmt with
  | EmptyString => Some Eps
  | String c fmt' =>
      if is_space c then
        if in_blanks then format_regex fmt' true
        else r ← format_regex fmt' true; Some (Seq (Plus is_space) r)
      else if Ascii.eqb c "%" then
        match fmt' with
        | String dc fmt'' =>
            rd ← directive_regex dc;
            r ← format_regex fmt'' false;
            Some (Seq rd r)
        | EmptyString => None
        end
      else r ← format_regex fmt' false; Some (Seq (lit c) r)
  end.

(** Year, month and day out of the groups found; the defaults are those of
    [_strptime] (1900-01-01), and a two-digit year up to 68 is in the 2000s,
    from 69 on in the 1900s. *)
Definition year_of_groups (g : groups) : Z :=
  match group "Y" g with
  | Some v => py_int v
  | None =>
      match group "y" g with
      | Some v => let y := py_int v in if y <=? 68 then y + 2000 else y + 1900
      | None => 1900
      end
  end.

Definition month_of_groups (g : groups) : Z :=
  match group "m" g with Some v => py_int v | None => 1 end.

Definition day_of_groups (g : groups) : Z :=
  match group "d" g with Some v => py_int v | None => 1 end.

(** [datetime.datetime.strptime(data, fmt).date()]: the format's regular
    expression must match at the start of [data] and leave nothing
    unconverted, and the fields must form a calendar date; every failure
    is a [ValueError]. *)
Definition strptime (data fmt : string) : result date :=
  match format_regex fmt false with
  | None => Raise ValueError
  | Some r =>
      match re_match r data with
      | None => Raise ValueError
      | Some found =>
          if negb (Nat.eqb (m_end found) (String.length data))
          then Raise ValueError
          else
            let g := m_groups found in
            mk_date (year_of_groups g) (month_of_groups g) (day_of_groups g)
      end
  end.

(* ===================================================================== *)
(** * [bot/lib/util.py] *)
(* ===================================================================== *)

Definition ORDINAL_WORDS : list string :=
  ["zeroeth"; "first"; "second"; "third"; "fourth";
   "fifth"; "sixth"; "seventh"; "eighth"; "nineth"].

(** [f"{number}{ORDINAL_WORDS[number % 10][-2:]}"].  Python's [%] with a
    positive divisor is [Z.modulo], so the index is always in range. *)
Definition ordinal (number : Z) : string :=
  str_of_Z number
  +:+ last_chars 2 (nth (Z.to_nat (number mod 10)) ORDINAL_WORDS EmptyString).

(* ===================================================================== *)
(** * [bot/cogs/birthdays.py]: the [Birthday] model and its date parser *)
(* ===================================================================== *)

(** The columns of a [Birthday] row other than its composite primary key
    [(user_id, guild_id)], which is the key of the table below.
    [date_created] and [date_updated] come from [BaseModel]. *)
Record Birthday : Type := mkBirthday {
  year : option Z;
  month : Z;
  day : Z;
  last_notified : option datetime;
  enabled : bool;
  date_created : datetime;
  date_updated : datetime
}.

(** [Birthday.__str__]; [if self.year] is false for [None] and for 0. *)
Definition Birthday_str (b : Birthday) : result string :=
  match year b with
  | Some y =>
      if y =? 0
      then Ok (format_0w 2 (day b) +:+ "." +:+ format_0w 2 (month b) +:+ ".")
      else d ← mk_date y (month b) (day b); Ok (strftime d "%d.%m.%Y")
  | None => Ok (format_0w 2 (day b) +:+ "." +:+ format_0w 2 (month b) +:+ ".")
  end.

Definition d4 : regex := (dig · dig · dig · dig)%re.
Definition d2 : regex := (dig · dig)%re.
(** [[01]?\d] and [[0123]?\d] *)
Definition mm : regex := (Opt (rng "0" "1") · dig)%re.
Definition dd : regex := (Opt (rng "0" "3") · dig)%re.

(** The ten patterns of [Birthday.PATTERNS_DATE]; each wraps its text in
    the group [date]. *)
Definition P_Ymd : regex := Grp "date" (d4 · lit "-" · mm · lit "-" · dd)%re.
Definition P_ymd : regex := Grp "date" (d2 · lit "-" · mm · lit "-" · dd)%re.
Definition P_md : regex := Grp "date" (mm · lit "-" · dd)%re.
Definition P_dmY : regex := Grp "date" (dd · lit "." · mm · lit "." · d4)%re.
Definition P_dmy : regex := Grp "date" (dd · lit "." · mm · lit "." · d2)%re.
Definition P_dm : regex := Grp "date" (dd · lit "." · mm)%re.
Definition P_dm_dot : regex := Grp "date" (dd · lit "." · mm · lit ".")%re.
Definition P_mdY_slash : regex := Grp "date" (mm · lit "/" · dd · lit "/" · d4)%re.
Definition P_mdy_slash : regex := Grp "date" (mm · lit "/" · dd · lit "/" · d2)%re.
Definition P_md_slash : regex := Grp "date" (mm · lit "/" · dd)%re.

(** [Birthday.PATTERNS_DATE], in the order of the source. *)
Definition PATTERNS_DATE : list (regex * string) :=
  [ (P_Ymd, "%Y-%m-%d");
    (P_ymd, "%y-%m-%d");
    (P_md, "%m-%d");
    (P_dmY, "%d.%m.%Y");
    (P_dmy, "%d.%m.%y");
    (P_dm, "%d.%m");
    (P_dm_dot, "%d.%m.");
    (P_mdY_slash, "%m/%d/%Y");
    (P_mdy_slash, "%m/%d/%y");
    (P_md_slash, "%m/%d") ].

(** The [for ... else] loop of [parse_date]: the matched text and the
    layout of the first pattern that matches, [None] when the loop runs to
    its [else]. *)
Fixpoint first_match (patterns : list (regex * string)) (text : string)
    : option (string * string) :=
  match patterns with
  | (pattern, fmt_) :: rest =>
      match re_match pattern text with
      | Some m =>
          match group "date" (m_groups m) with
          | Some matched => Some (matched, fmt_)
          | None => first_match rest text
          end
      | None => first_match rest text
      end
  | [] => None
  end.

Definition MSG_CANNOT_PARSE : string :=
  "The birthday you've entered cannot be parsed. :pensive:".
Definition MSG_FUTURE : string := "You cannot be born in the future.".

(** [Birthday.parse_date].  [today] is the reading of the clock:
    [datetime.datetime.now()] in the branch without a year,
    [datetime.date.today()] in the other. *)
Definition parse_date (today : date) (text : string)
    : result (option Z * Z * Z) :=
  let text := strip text in
  match first_match PATTERNS_DATE text with
  | None => Raise (BirthdayParseError MSG_CANNOT_PARSE)
  | Some (matched, fmt) =>
      if negb (contains "%y" fmt) && negb (contains "%Y" fmt)
      then
        let year_fmt := " %Y" in
        let matched := matched +:+ strftime today year_fmt in
        let fmt := fmt +:+ year_fmt in
        d ← strptime matched fmt;
        Ok (None, d_month d, d_day d)
      else
        d ← strptime matched fmt;
        if date_gt d today
        then Raise (BirthdayParseError MSG_FUTURE)
        else Ok (Some (d_year d), d_month d, d_day d)
  end.

(* ===================================================================== *)
(** * [dateutil.relativedelta]: whole years between two dates *)
(* ===================================================================== *)

(** The [years] and [months] fields as [_set_months] splits a month count. *)
Definition set_months (months : Z) : Z * Z :=
  if 11 <? Z.abs months
  then let s := Z.sgn months in
       (((months * s) / 12) * s, ((months * s) mod 12) * s)
  else (0, months).

(** [dt + relativedelta(years=ys, months=ms)]: shift the month with carry
    into the year, then clip the day to the length of the month reached. *)
Definition add_years_months (dt : date) (ym : Z * Z) : date :=
  let '(ys, ms) := ym in
  let y := d_year dt + ys in
  let m := d_month dt + ms in
  let '(y, m) :=
    if ms =? 0 then (y, d_month dt)
    else if 12 <? m then (y + 1, m - 12)
    else if m <? 1 then (y - 1, m + 12)
    else (y, m) in
  Date y m (Z.min (days_in_month y m) (d_day dt)).

(** The [while compare(dt1, dtm)] loop of the constructor, which moves the
    month count by one until it no longer overshoots.  The fuel keeps the
    definition structural; two rounds are all the loop ever uses
    ([adjust_months_two_rounds] below). *)
Fixpoint adjust_months (fuel : nat) (dt1 dt2 : date) (months : Z) : Z :=
  match fuel with
  | O => months
  | S fuel' =>
      let dtm := add_years_months dt2 (set_months months) in
      if date_lt dt1 dt2
      then (if date_gt dt1 dtm then adjust_months fuel' dt1 dt2 (months + 1)
            else months)
      else (if date_lt dt1 dtm then adjust_months fuel' dt1 dt2 (months - 1)
            else months)
  end.

(** [relativedelta(dt1, dt2).years] *)
Definition relativedelta_years (dt1 dt2 : date) : Z :=
  let months := (d_year dt1 - d_year dt2) * 12 + (d_month dt1 - d_month dt2) in
  fst (set_months (adjust_months 24 dt1 dt2 months)).

(* ===================================================================== *)
(** * The table behind the [Birthday] model and [lib.database.Manager] *)
(* ===================================================================== *)

(** The [Birthday] table: at most one row per composite primary key
    [(user_id, guild_id)]. *)
Abbreviation table := (gmap (Z * Z) Birthday).

(** What a Python name can be bound to where the cog expects a [Birthday]:
    a model instance (its primary key and its columns), [None], or the
    coroutine object that calling an [async def] without [await] returns. *)
Inductive pyobj : Type :=
| ModelObj (pk : Z * Z) (row : Birthday)
| NoneObj
| CoroutineObj.

(** Truth value in an [if]: only [None] is false here. *)
Definition truthy (o : pyobj) : bool :=
  match o with
  | NoneObj => false
  | _ => true
  end.

(** The columns of the table other than the primary key. *)
Inductive column : Type :=
| c_year
| c_month
| c_day
| c_last_notified
| c_enabled
| c_date_created
| c_date_updated.

(** A keyword argument of [update_fields], and an assignment of an
    [UPDATE]: a column with its value. *)
Inductive field : Type :=
| f_year (v : option Z)
| f_month (v : Z)
| f_day (v : Z)
| f_last_notified (v : option datetime)
| f_enabled (v : bool)
| f_date_created (v : datetime)
| f_date_updated (v : datetime).

#[global] Instance column_eq_dec : EqDecision column := ltac:(solve_decision).

Definition column_of (f : field) : column :=
  match f with
  | f_year _ => c_year
  | f_month _ => c_month
  | f_day _ => c_day
  | f_last_notified _ => c_last_notified
  | f_enabled _ => c_enabled
  | f_date_created _ => c_date_created
  | f_date_updated _ => c_date_updated
  end.

(** The value an instance holds for a column. *)
Definition value_of (b : Birthday) (c : column) : field :=
  match c with
  | c_year => f_year (year b)
  | c_month => f_month (month b)
  | c_day => f_day (day b)
  | c_last_notified => f_last_notified (last_notified b)
  | c_enabled => f_enabled (enabled b)
  | c_date_created => f_date_created (date_created b)
  | c_date_updated => f_date_updated (date_updated b)
  end.

(** [setattr(obj, key, value)] on a model instance. *)
Definition set_field (b : Birthday) (f : field) : Birthday :=
  match f with
  | f_year v =>
      mkBirthday v (month b) (day b) (last_notified b) (enabled b)
        (date_created b) (date_updated b)
  | f_month v =>
      mkBirthday (year b) v (day b) (last_notified b) (enabled b)
        (date_created b) (date_updated b)
  | f_day v =>
      mkBirthday (year b) (month b) v (last_notified b) (enabled b)
        (date_created b) (date_updated b)
  | f_last_notified v =>
      mkBirthday (year b) (month b) (day b) v (enabled b)
        (date_created b) (date_updated b)
  | f_enabled v =>
      mkBirthday (year b) (month b) (day b) (last_notified b) v
        (date_created b) (date_updated b)
  | f_date_created v =>
      mkBirthday (year b) (month b) (day b) (last_notified b) (enabled b)
        v (date_updated b)
  | f_date_updated v =>
      mkBirthday (year b) (month b) (day b) (last_notified b) (enabled b)
        (date_created b) v
  end.

Definition is_date_updated (f : field) : bool :=
  match f with
  | f_date_updated _ => true
  | _ => false
  end.

(** The range of a [SmallIntegerField] column, a [smallint] of the
    database. *)
Definition smallint (n : Z) : bool := (-32768 <=? n) && (n <=? 32767).

(** Whether the database takes the value for its column: [year], [month]
    and [day] are [smallint] columns, of which [year] may be null. *)
Definition fits_column (f : field) : bool :=
  match f with
  | f_year (Some v) => smallint v
  | f_month v => smallint v
  | f_day v => smallint v
  | _ => true
  end.

(** Every column, in the order of the model. *)
Definition ALL_COLUMNS : list column :=
  [c_year; c_month; c_day; c_last_notified; c_enabled; c_date_created;
   c_date_updated].

(** [BaseModel.update]: the assignments of the query, with
    [date_updated = now] added when the caller gave none. *)
Definition BaseModel_update (now : datetime) (fields : list field) : list field :=
  if existsb is_date_updated fields then fields
  else fields ++ [f_date_updated now].

(** [peewee_async.Manager.update(obj, only=...)]: the values the instance
    holds for the columns named in [only] go into one [UPDATE] through
    [BaseModel.update], restricted to the row with the primary key of
    [obj]; nothing happens when the row is gone.  An empty [only] prunes
    nothing: every column of the instance is written back, [date_updated]
    among them, so that [BaseModel.update] adds no stamp of its own.  A
    value outside the range of its column makes the database refuse the
    query, which leaves the table as it is and surfaces as
    [peewee.DataError]. *)
Definition Manager_update (pk : Z * Z) (obj : Birthday) (only : list column)
    (now : datetime) (db : table) : result table :=
  let columns := match only with [] => ALL_COLUMNS | _ :: _ => only end in
  let assignments := BaseModel_update now (map (value_of obj) columns) in
  if forallb fits_column assignments
  then Ok (alter (fun row => foldl set_field row assignments) pk db)
  else Raise DataError.

(** [Manager.safe_get], awaited. *)
Definition safe_get (db : table) (user_id guild_id : Z) : pyobj :=
  match db !! (user_id, guild_id) with
  | Some row => ModelObj (user_id, guild_id) row
  | None => NoneObj
  end.

(** [Manager.update_fields]: [setattr] for every keyword, then the update
    of exactly those columns; without any keyword there is nothing to set
    and the update is the one with an empty [only].  On anything that is
    not a model instance the first [setattr] raises [AttributeError], or,
    without a keyword, the update when it asks the object for its columns:
    the table is not touched. *)
Definition update_fields (obj : pyobj) (fields : list field) (now : datetime)
    (db : table) : result (pyobj * table) :=
  match obj with
  | ModelObj pk row =>
      let row' := foldl set_field row fields in
      db' ← Manager_update pk row' (map column_of fields) now db;
      Ok (ModelObj pk row', db')
  | NoneObj | CoroutineObj => Raise AttributeError
  end.

(** [peewee_async.Manager.create(Birthday, ...)]: the instance is built
    first, its [date_created] and [date_updated] taking their field
    defaults, one reading of the clock each ([defaults]); [enabled] takes
    its default and [last_notified] is null.  The columns of the instance
    then go through [BaseModel.insert], which reads the clock once more
    ([now]) for the [date_updated] of the row.  The instance handed back
    keeps the default it was built with.  The database refuses a row whose
    primary key is taken, and a value outside the range of its column. *)
Definition Manager_create (pk : Z * Z) (y : option Z) (m d : Z)
    (defaults : datetime * datetime) (now : datetime) (db : table)
    : result (pyobj * table) :=
  let inst := mkBirthday y m d None true (fst defaults) (snd defaults) in
  let row := set_field inst (f_date_updated now) in
  match db !! pk with
  | Some _ => Raise IntegrityError
  | None =>
      if forallb fits_column (map (value_of row) ALL_COLUMNS)
      then Ok (ModelObj pk inst, <[pk := row]> db)
      else Raise DataError
  end.

(** [Manager.delete(obj)] *)
Definition Manager_delete (obj : pyobj) (db : table) : result table :=
  match obj with
  | ModelObj pk _ => Ok (delete pk db)
  | NoneObj | CoroutineObj => Raise AttributeError
  end.

(** [peewee_async.select(Birthday.select().where(p))]: the rows that
    satisfy [p], each with its primary key. *)
Definition select (p : Birthday -> bool) (db : table) : list ((Z * Z) * Birthday) :=
  filter (fun kb => p (snd kb) = true) (map_to_list db).

(* ===================================================================== *)
(** * [bot/cogs/birthdays.py]: the [Birthdays] cog *)
(* ===================================================================== *)

Definition RETENTION_DAYS : Z := 90.

Definition BIRTHDAY_MESSAGES : list string :=
  [ "Happy {day}birthday, {name}! :tada:";
    "It's {name}'s {day}birthday today! Congratulations! :tada:";
    "Oh look, it's {name}'s {day}birthday! Congratz! :tada:";
    "Happy {day}birthday to you, {name}! :tada:" ].

(** [template.format(day=day, name=name)] for templates whose only
    replacement fields are [{day}] and [{name}]. *)
Fixpoint format_template (template day_ name : string) : string :=
  match template with
  | String "{" (String "d" (String "a" (String "y" (String "}" rest)))) =>
      day_ +:+ format_template rest day_ name
  | String "{" (String "n" (String "a" (String "m" (String "e" (String "}" rest))))) =>
      name +:+ format_template rest day_ name
  | String c rest => String c (format_template rest day_ name)
  | EmptyString => EmptyString
  end.

(** [random.choice(seq)], the random source being the index drawn. *)
Definition choice (draw : nat) (seq : list string) : string :=
  nth (draw mod length seq)%nat seq EmptyString.

(** An embed as the cog builds it with [discord.Embed.from_dict]. *)
Record embed : Type := Embed {
  title : option string;
  description : string
}.

(** A guild as the cog sees it: its system channel, if any, and the
    mention of each member it has. *)
Record Guild : Type := mkGuild {
  system_channel : option Z;
  get_member : Z -> option string
}.

(** What one notification attempt draws from outside the cog: the two
    random choices, whether the send goes through, and two readings of the
    clock: [clock] is the [datetime.datetime.now()] written to
    [last_notified], [clock_update] the one [BaseModel.update] takes for
    [date_updated] right after. *)
Record attempt : Type := mkAttempt {
  heading_draw : nat;
  comment : string;
  send_ok : bool;
  clock : datetime;
  clock_update : datetime
}.

(** How a notification attempt ended: it returned early without a
    message, it raised, or it sent its message. *)
Inductive outcome : Type :=
| Abandoned
| Failed (e : exn)
| Sent (channel : Z) (message : embed).

(** The text substituted for [{day}] in [try_notify]: the ordinal of the
    age and a blank when the year is known (and not 0), a blank alone
    otherwise.  The age is counted from [datetime.date(year, month, day)],
    which raises [ValueError] when the row holds no date of the
    calendar. *)
Definition day_text (b : Birthday) (today : date) : result string :=
  match year b with
  | Some y =>
      if y =? 0 then Ok " "
      else
        birthday_date ← mk_date y (month b) (day b);
        let years_old := relativedelta_years today birthday_date in
        Ok (ordinal years_old +:+ " ")
  | None => Ok " "
  end.

Definition NEWLINE : string := String (ascii_of_nat 10) EmptyString.

(** The heading and the embed of [try_notify]. *)
Definition heading_of (a : attempt) (b : Birthday) (today : date)
    (mention : string) : result string :=
  day_ ← day_text b today;
  Ok (format_template (choice (heading_draw a) BIRTHDAY_MESSAGES) day_ mention).

Definition embed_of (a : attempt) (b : Birthday) (today : date)
    (mention : string) : result embed :=
  heading ← heading_of a b today mention;
  Ok (Embed None
        ("**" +:+ heading +:+ "**" +:+ NEWLINE +:+ NEWLINE +:+ comment a)).

(** [Birthdays.try_notify]: resolve guild, system channel and member, or
    give up; build the message, which can raise; send it; only after the
    send write [last_notified].  An attempt that raises, before the send
    or in it, leaves the table as it is.  The update after the send
    writes [last_notified] and [date_updated] only and is never
    refused. *)
Definition try_notify (get_guild : Z -> option Guild) (a : attempt)
    (pk : Z * Z) (b : Birthday) (today : date) (db : table)
    : outcome * table :=
  match get_guild (snd pk) with
  | None => (Abandoned, db)
  | Some guild =>
      match system_channel guild with
      | None => (Abandoned, db)
      | Some channel =>
          match get_member guild (fst pk) with
          | None => (Abandoned, db)
          | Some mention =>
              match embed_of a b today mention with
              | Raise e => (Failed e, db)
              | Ok message =>
                  if send_ok a
                  then
                    match update_fields (ModelObj pk b)
                            [f_last_notified (Some (clock a))]
                            (clock_update a) db with
                    | Ok (_, db') => (Sent channel message, db')
                    | Raise _ => (Sent channel message, db)
                    end
                  else (Failed HTTPException, db)
              end
          end
      end
  end.

(** The [where] clause of [birthday_cron_notify]; a null [last_notified]
    compares as unknown and is admitted by the [is_null] disjunct. *)
Definition notify_due (today : date) (b : Birthday) : bool :=
  enabled b
  && (day b =? d_day today)
  && (month b =? d_month today)
  && match last_notified b with
     | Some t => t <? datetime_at_midnight today
     | None => true
     end.

(** One attempt of the sweep, on a selected row: the outcome goes to the
    log, the table is the one the attempt leaves. *)
Definition notify_round (get_guild : Z -> option Guild)
    (env : Z * Z -> attempt) (today : date)
    (acc : list ((Z * Z) * outcome) * table) (kb : (Z * Z) * Birthday)
    : list ((Z * Z) * outcome) * table :=
  let '(o, db') := try_notify get_guild (env (fst kb)) (fst kb) (snd kb)
                     today (snd acc) in
  (fst acc ++ [(fst kb, o)], db').

(** [Birthdays.birthday_cron_notify]: select what is due today and run one
    attempt per selected row.  The attempts are gathered; each writes only
    the row of its own primary key, so their effects on the table are
    those of running them one after the other, and an attempt that raises
    does not stop the others.  The result is the log of the attempts and
    the table left behind; how the sweep itself ends is [gather] of the
    log. *)
Definition birthday_cron_notify (get_guild : Z -> option Guild)
    (env : Z * Z -> attempt) (today : date) (db : table)
    : list ((Z * Z) * outcome) * table :=
  foldl (notify_round get_guild env today) ([], db)
    (select (notify_due today) db).

(** [await asyncio.gather] on the attempts, the last statement of the sweep:
    without [return_exceptions] the first exception raised among the
    attempts is passed on to the sweep, which ends with it; which attempt
    is the first to raise is a matter of scheduling.  When no attempt
    raises the sweep returns. *)
Inductive gather (log : list ((Z * Z) * outcome)) : result unit -> Prop :=
| gather_returns :
    (forall k e, (k, Failed e) ∉ log) -> gather log (Ok tt)
| gather_raises (k : Z * Z) (e : exn) :
    (k, Failed e) ∈ log -> gather log (Raise e).

(** The [where] clause of [birthday_cron_retention]. *)
Definition retention_due (now : datetime) (b : Birthday) : bool :=
  negb (enabled b) && (date_updated b <? minus_days now RETENTION_DAYS).

(** One round of the loop of [birthday_cron_retention]: log the user and
    delete the row. *)
Definition retention_step (acc : list Z * table) (kb : (Z * Z) * Birthday)
    : list Z * table :=
  let logged := fst acc ++ [fst (fst kb)] in
  match Manager_delete (ModelObj (fst kb) (snd kb)) (snd acc) with
  | Ok db' => (logged, db')
  | Raise _ => (logged, snd acc)
  end.

(** [Birthdays.birthday_cron_retention]: delete every disabled row whose
    last update is older than the retention window; the result is the list
    of user ids logged and the table left behind. *)
Definition birthday_cron_retention (now : datetime) (db : table)
    : list Z * table :=
  foldl retention_step ([], db) (select (retention_due now) db).

(** The [birthday] command.  [now] is the reading of the clock in
    [BaseModel.update] or [BaseModel.insert], [defaults] the two readings a
    new instance takes before.  The table comes first in the result: what
    was written stays written when a later step raises. *)
Definition birthday (user_id guild_id : Z) (text : option string)
    (today : date) (defaults : datetime * datetime) (now : datetime)
    (db : table) : table * result embed :=
  match text with
  | Some (String c t) =>
      match parse_date today (String c t) with
      | Ok (y, m, d) =>
          let birthday_ := safe_get db user_id guild_id in
          let stored :=
            if truthy birthday_
            then update_fields birthday_ [f_year y; f_month m; f_day d] now db
            else Manager_create (user_id, guild_id) y m d defaults now db in
          match stored with
          | Ok (ModelObj _ row, db') =>
              (db',
               shown ← Birthday_str row;
               Ok (Embed None ("Your birthday was set to `" +:+ shown +:+ "`")))
          | Ok (_, db') => (db', Raise AttributeError)
          | Raise e => (db, Raise e)
          end
      | Raise (BirthdayParseError msg) => (db, Ok (Embed (Some "Error") msg))
      | Raise e => (db, Raise e)
      end
  | _ =>
      match safe_get db user_id guild_id with
      | ModelObj _ row =>
          (db, shown ← Birthday_str row;
               Ok (Embed None ("Your birthday is on `" +:+ shown +:+ "`")))
      | _ => (db, Ok (Embed None "You haven't set your birthday yet."))
      end
  end.

(** [Birthdays.on_member_join].  The source binds [birthday] to
    [manager.safe_get(...)] without [await]: the name holds the coroutine
    object, whatever the table contains. *)
Definition on_member_join (user_id guild_id : Z) (now : datetime) (db : table)
    : table * result unit :=
  let birthday_ := CoroutineObj in
  if truthy birthday_
  then match update_fields birthday_ [f_enabled true] now db with
       | Ok (_, db') => (db', Ok tt)
       | Raise e => (db, Raise e)
       end
  else (db, Ok tt).

(** [Birthdays.on_member_leave], with the same unawaited [safe_get]. *)
Definition on_member_leave (user_id guild_id : Z) (now : datetime) (db : table)
    : table * result unit :=
  let birthday_ := CoroutineObj in
  if truthy birthday_
  then match update_fields birthday_ [f_enabled false] now db with
       | Ok (_, db') => (db', Ok tt)
       | Raise e => (db, Raise e)
       end
  else (db, Ok tt).

(** The suffix the specification gives for a last digit: 1 -> st,
    2 -> nd, 3 -> rd, every other digit -> th. *)
Definition spec_suffix (last_digit : Z) : string :=
  if last_digit =? 1 then "st"
  else if last_digit =? 2 then "nd"
  else if last_digit =? 3 then "rd"
  else "th".

(** The number of [Sent] entries a sweep log holds for one primary key. *)
Definition is_sent (o : outcome) : bool :=
  match o with
  | Sent _ _ => true
  | _ => false
  end.

Definition sends_to (k : Z * Z) (log : list ((Z * Z) * outcome)) : nat :=
  length (filter (fun e => fst e = k ∧ is_sent (snd e) = true) log).

(** Sweeps run one after the other on the same calendar day, each with its
    own draws and clock readings: the logs, concatenated, and the table at
    the end. *)
Fixpoint notify_runs (get_guild : Z -> option Guild)
    (envs : list (Z * Z -> attempt)) (today : date) (db : table)
    : list ((Z * Z) * outcome) * table :=
  match envs with
  | [] => ([], db)
  | env :: envs' =>
      let '(log, db') := birthday_cron_notify get_guild env today db in
      let '(logs, db'') := notify_runs get_guild envs' today db' in
      (log ++ logs, db'')
  end.

(** The system channel and the member's mention an attempt gets hold of,
    when guild, system channel and member all resolve. *)
Definition resolve (get_guild : Z -> option Guild) (pk : Z * Z)
    : option (Z * string) :=
  guild ← get_guild (snd pk);
  channel ← system_channel guild;
  mention ← get_member guild (fst pk);
  Some (channel, mention).

(** Whether guild, system channel and member resolve and the send goes
    through. *)
Definition delivers (get_guild : Z -> option Guild) (a : attempt) (pk : Z * Z)
    : bool :=
  match resolve get_guild pk with
  | Some _ => send_ok a
  | None => false
  end.

(** Whether [datetime.date(birthday.year, birthday.month, birthday.day)]
    in [try_notify] goes through; a row without a year, or with the year
    0, does not get there. *)
Definition date_exists (b : Birthday) : bool :=
  match year b with
  | Some y => (y =? 0) || valid_date (Date y (month b) (day b))
  | None => true
  end.

(** The row an [update_fields(birthday, last_notified=t)] leaves behind
    when [BaseModel.update] reads the clock at [u]. *)
Definition notified_at (t u : datetime) (row : Birthday) : Birthday :=
  mkBirthday (year row) (month row) (day row) (Some t) (enabled row)
    (date_created row) u.

(** Sample data for the closed instances below. *)
Definition sample_today : date := Date 2026 11 3.
Definition sample_now : datetime := 63929304000000000.
Definition sample_notified : datetime := 63900000000000000.
Definition sample_row : Birthday :=
  mkBirthday (Some 1985) 11 3 (Some sample_notified) true 7 8.
Definition sample_db : table :=
  <[(1, 1) := sample_row]> (<[(2, 1) := mkBirthday None 11 3 None true 7 8]> ∅).
Definition sample_stale : Birthday :=
  mkBirthday None 1 1 None false 0 (sample_now - 7776000000000 - 1).
Definition sample_edge : Birthday :=
  mkBirthday None 1 1 None false 0 (sample_now - 7776000000000).
Definition sample_defaults : datetime * datetime :=
  (sample_now - 2, sample_now - 1).
Definition sample_disabled_db : table :=
  <[(1, 1) := sample_stale]> (<[(2, 1) := sample_edge]> ∅).

Definition sample_guild (guild_id : Z) : option Guild :=
  if guild_id =? 1
  then Some (mkGuild (Some 77) (fun user_id => Some "<@member>"))
  else None.
Definition sample_env (pk : Z * Z) : attempt :=
  mkAttempt 0 "Feeling old yet?" true sample_now (sample_now + 1).

(** Whether a layout carries a year, as [parse_date] tests it. *)
Definition has_year (fmt : string) : bool :=
  contains "%y" fmt || contains "%Y" fmt.

(** The class of the exception a computation ends with, if it raises. *)
Definition raised_class {A : Type} (r : result A) : option exn_class :=
  match r with
  | Raise e => Some (class_of e)
  | Ok _ => None
  end.

(** The two-digit and four-digit numerals the specification writes
    [dd], [mm] and [yyyy]. *)
Definition two_digits (n : Z) : string :=
  String (digit_char (n / 10)) (String (digit_char (n mod 10)) EmptyString).

Definition four_digits (n : Z) : string :=
  String (digit_char (n / 1000))
    (String (digit_char (n / 100 mod 10))
       (String (digit_char (n / 10 mod 10))
          (String (digit_char (n mod 10)) EmptyString))).

(** The integers from [lo] to [hi]. *)
Definition Z_range (lo hi : Z) : list Z :=
  map (fun i => lo + Z.of_nat i) (seq 0 (Z.to_nat (hi - lo + 1))).

(** What has to hold of the text [dd.mm.] for a day and a month: it is
    left alone by [strip], and the first pattern to match it is the one
    without the trailing dot, which takes [dd.mm]. *)
Definition yearless_text_check (d m : Z) : bool :=
  let s := two_digits d +:+ "." +:+ two_digits m +:+ "." in
  String.eqb (strip s) s
  && match first_match PATTERNS_DATE s with
     | Some (matched, fmt) =>
         String.eqb matched (two_digits d +:+ "." +:+ two_digits m)
         && String.eqb fmt "%d.%m"
     | None => false
     end.

(** The four headings with the ordinal of 34 in place. *)
Definition headings_34th (mention : string) : list string :=
  [ "Happy 34th birthday, " +:+ mention +:+ "! :tada:";
    "It's " +:+ mention +:+ "'s 34th birthday today! Congratulations! :tada:";
    "Oh look, it's " +:+ mention +:+ "'s 34th birthday! Congratz! :tada:";
    "Happy 34th birthday to you, " +:+ mention +:+ "! :tada:" ].

(** Months counted from year 0, to compare dates by month. *)
Definition month_index (d : date) : Z := 12 * d_year d + d_month d.

(* ===================================================================== *)
(** * Further layouts of a date, for the properties of the parser *)
(* ===================================================================== *)




Definition short_dotted_text (yy m d : Z) : string :=
  two_digits d +:+ "." +:+ two_digits m +:+ "." +:+ two_digits yy.

(** A day or a month as a numeral: with or without the leading zero. *)
Definition numeral_of (n : Z) (s : string) : Prop :=
  s = str_of_Z n \/ s = two_digits n.

(** Whether a text begins with a character that is no blank. *)
Definition starts_solid (s : string) : bool :=
  match s with
  | String c _ => negb (is_space c)
  | EmptyString => false
  end.

(** The characters that follow a day or a month in the texts the matcher
    is run on: the separators of the layouts and the blank in front of the
    year that [parse_date] appends. *)
Definition separator (c : ascii) : Prop :=
  c = "."%char \/ c = "-"%char \/ c = "/"%char \/ c = " "%char.

(** What a text that spells out day, month and year reads as: the date
    has to exist and must not lie after today. *)
Definition read_full_date (today : date) (y m d : Z)
    : result (option Z * Z * Z) :=
  if valid_date (Date y m d)
  then (if date_gt (Date y m d) today
        then Raise (BirthdayParseError MSG_FUTURE)
        else Ok (Some y, m, d))
  else Raise ValueError.

(** What a text of month and day alone reads as: the two have to exist in
    the current year. *)
Definition read_day_of_year (today : date) (m d : Z)
    : result (option Z * Z * Z) :=
  if valid_date (Date (d_year today) m d)
  then Ok (None, m, d)
  else Raise ValueError.

(** The century [strptime] gives a two-digit year. *)
Definition pivot_year (yy : Z) : Z :=
  if yy <=? 68 then yy + 2000 else yy + 1900.

(** Whether every character of a text is a blank. *)
Fixpoint all_space (s : string) : bool :=
  match s with
  | String c s' => is_space c && all_space s'
  | EmptyString => true
  end.

(** Whether every character of a text is a digit. *)
Fixpoint all_digits (s : string) : bool :=
  match s with
  | String c s' => is_digit c && all_digits s'
  | EmptyString => true
  end.

(** A regular expression whose last group is the four-digit year. *)
Inductive ends_with_Y : regex -> Prop :=
| ends_with_Y_here : ends_with_Y (Seq RE_Y Eps)
| ends_with_Y_later (a r : regex) : ends_with_Y r -> ends_with_Y (Seq a r).

(* ===================================================================== *)
(** * [bot/cogs/birthdays.py]: deleting a birthday, and the cog as a whole *)
(* ===================================================================== *)

Definition MSG_DELETED : string := "Your birthday was successfully deleted.".
Definition MSG_NOTHING_TO_DELETE : string :=
  "You haven't set a birthday that you could delete.".
Definition MSG_NOT_SET : string := "You haven't set your birthday yet.".

(** The [birthday delete] command: [safe_get] is awaited here. *)
Definition birthday_delete (user_id guild_id : Z) (db : table)
    : table * result embed :=
  let birthday_ := safe_get db user_id guild_id in
  if truthy birthday_
  then match Manager_delete birthday_ db with
       | Ok db' => (db', Ok (Embed None MSG_DELETED))
       | Raise e => (db, Raise e)
       end
  else (db, Ok (Embed (Some "Error") MSG_NOTHING_TO_DELETE)).

(** The [unbirthday] command hands over to [birthday_delete]. *)
Definition unbirthday (user_id guild_id : Z) (db : table)
    : table * result embed :=
  birthday_delete user_id guild_id db.

(** [Birthdays.on_member_ban]: like the other two listeners it binds
    [birthday] to [manager.safe_get(...)] without [await]. *)
Definition on_member_ban (user_id guild_id : Z) (db : table)
    : table * result unit :=
  let birthday_ := CoroutineObj in
  if truthy birthday_
  then match Manager_delete birthday_ db with
       | Ok db' => (db', Ok tt)
       | Raise e => (db, Raise e)
       end
  else (db, Ok tt).

(** What can happen to the cog: its commands, its listeners and the two
    loops, each with what it reads from outside. *)
Inductive event : Type :=
| Ev_birthday (user_id guild_id : Z) (text : option string) (today : date)
    (defaults : datetime * datetime) (now : datetime)
| Ev_birthday_delete (user_id guild_id : Z)
| Ev_unbirthday (user_id guild_id : Z)
| Ev_member_join (user_id guild_id : Z) (now : datetime)
| Ev_member_leave (user_id guild_id : Z) (now : datetime)
| Ev_member_ban (user_id guild_id : Z)
| Ev_cron_notify (get_guild : Z -> option Guild) (env : Z * Z -> attempt)
    (today : date)
| Ev_cron_retention (now : datetime).

(** The table an event leaves behind. *)
Definition handle (db : table) (e : event) : table :=
  match e with
  | Ev_birthday user_id guild_id text today defaults now =>
      fst (birthday user_id guild_id text today defaults now db)
  | Ev_birthday_delete user_id guild_id => fst (birthday_delete user_id guild_id db)
  | Ev_unbirthday user_id guild_id => fst (unbirthday user_id guild_id db)
  | Ev_member_join user_id guild_id now => fst (on_member_join user_id guild_id now db)
  | Ev_member_leave user_id guild_id now =>
      fst (on_member_leave user_id guild_id now db)
  | Ev_member_ban user_id guild_id => fst (on_member_ban user_id guild_id db)
  | Ev_cron_notify get_guild env today =>
      snd (birthday_cron_notify get_guild env today db)
  | Ev_cron_retention now => snd (birthday_cron_retention now db)
  end.

(** The table after a sequence of events, starting from the empty table
    that [setup] creates. *)
Definition run (events : list event) : table := foldl handle ∅ events.

(** The month and day of a row exist: in the year of the row when it has
    one, in a leap year otherwise. *)
Definition stored_date_ok (b : Birthday) : bool :=
  match year b with
  | Some y => valid_date (Date y (month b) (day b))
  | None => valid_date (Date 2000 (month b) (day b))
  end.

(** The row the [birthday] command stores for a parsed date: a new row
    when there was none, created at the first of the default readings, the
    old one with the date replaced otherwise. *)
Definition stored_row (old : option Birthday) (y : option Z) (m d : Z)
    (defaults : datetime * datetime) (now : datetime) : Birthday :=
  match old with
  | Some b => mkBirthday y m d (last_notified b) (enabled b) (date_created b) now
  | None => mkBirthday y m d None true (fst defaults) now
  end.

(** The reply of the [birthday] command when the parser raised. *)
Definition parse_failure_reply (e : exn) : result embed :=
  match e with
  | BirthdayParseError msg => Ok (Embed (Some "Error") msg)
  | _ => Raise e
  end.

(** Whether the sweep sends for a row: the row is due, its date exists
    and its attempt gets through. *)
Definition notified (get_guild : Z -> option Guild)
    (env : Z * Z -> attempt) (today : date) (k : Z * Z) (b : Birthday)
    : bool :=
  notify_due today b && date_exists b && delivers get_guild (env k) k.

(** What a notify sweep leaves of a row: a row it sends for gets the two
    clock readings of its attempt in [last_notified] and [date_updated]. *)
Definition after_notify (get_guild : Z -> option Guild)
    (env : Z * Z -> attempt) (today : date) (k : Z * Z) (b : Birthday)
    : Birthday :=
  if notified get_guild env today k b
  then notified_at (clock (env k)) (clock_update (env k)) b
  else b.

(** Whether a birthday has come round by today in the current year: an
    earlier month, or this month with its day reached, the day being
    clipped to the length of the month. *)
Definition reached (today bd : date) : bool :=
  (d_month bd <? d_month today)
  || ((d_month bd =? d_month today)
      && (Z.min (days_in_month (d_year today) (d_month today)) (d_day bd)
          <=? d_day today)).

(** Every row of a table is enabled and holds a month and day that
    exist. *)
Definition well_kept (db : table) : Prop :=
  forall k b, db !! k = Some b -> enabled b = true /\ stored_date_ok b = true.

(* ===================================================================== *)
(** * [bot/lib/config.py] *)
(* ===================================================================== *)

Module Config.

(** The values the configuration holds: what [yaml.safe_load] gives for
    null, booleans, integers, strings, sequences and mappings with string
    keys, and the strings of [os.environ]. *)
#[warnings="-register-all"] Inductive value : Type :=
| VNone
| VBool (b : bool)
| VInt (n : Z)
| VStr (s : string)
| VList (items : list value)
| VDict (items : gmap string value).

(** Truth value in [if], [not] and [or]. *)
Definition truthy (v : value) : bool :=
  match v with
  | VNone => false
  | VBool b => b
  | VInt n => negb (n =? 0)
  | VStr s => negb (String.eqb s EmptyString)
  | VList items => negb (Nat.eqb (length items) 0)
  | VDict items => negb (Nat.eqb (size items) 0)
  end.

(** [a or b] *)
Definition or_ (a b : value) : value := if truthy a then a else b.

(** The exceptions [load] can end with; [ValueError] is the one [int]
    raises on a string that is no numeral. *)
Inductive raised : Type :=
| ConfigValueError (msg : string)
| KeyError (key : string)
| ValueError
| TypeError.

Inductive res (A : Type) : Type :=
| Ret (a : A)
| Exc (e : raised).

Arguments Ret {A} a.
Arguments Exc {A} e.

Definition LOG_LEVELS : gmap string Z :=
  <["DEBUG" := 10]> (<["INFO" := 20]> (<["WARNING" := 30]> ∅)).

(** The class attributes of [Config]. *)
Record state : Type := State {
  token : option string;
  owner_id : option Z;
  prefix : option string;
  mentionable : value;
  db_credentials : gmap string value;
  logging : gmap string Z
}.

(** The attributes as the class body sets them. *)
Definition unloaded : state := State None None None (VBool false) ∅ ∅.

(** What opening and reading [CONFIG_FILE] can come to. *)
Inductive yaml_file : Type :=
| NoFile
| Unreadable
| Loaded (v : value).

(** [Config.__load_yaml]: an empty mapping when the file is missing or
    anything else goes wrong, what [yaml.safe_load] returns otherwise. *)
Definition load_yaml (file : yaml_file) : value :=
  match file with
  | Loaded v => v
  | NoFile => VDict ∅
  | Unreadable => VDict ∅
  end.

Definition TOP_VARS : list (string * string) :=
  [("TOKEN", "token"); ("OWNER_ID", "owner_id"); ("PREFIX", "prefix");
   ("MENTIONABLE", "mentionable")].

Definition PG_VARS : list (string * string) :=
  [("PG_DATABASE", "database"); ("PG_USER", "user");
   ("PG_PASSWORD", "password"); ("PG_HOST", "host"); ("PG_PORT", "port")].

Definition LOG_VARS : list (string * string) := [("LOG_LEVEL", "level")].

(** One round of the first loop of [__load_env]. *)
Definition env_top (environ : gmap string string)
    (config : gmap string value) (var : string * string)
    : gmap string value :=
  match environ !! fst var with
  | Some s => <[snd var := VStr s]> config
  | None => config
  end.

(** One round of the other two loops: the mapping of the section is
    created when it is not there yet, then the entry is set in it.  The
    section holds nothing but a mapping, [config] being local to
    [__load_env]. *)
Definition env_nested (section : string) (environ : gmap string string)
    (config : gmap string value) (var : string * string)
    : gmap string value :=
  match environ !! fst var with
  | Some s =>
      let config :=
        match config !! section with
        | Some _ => config
        | None => <[section := VDict ∅]> config
        end in
      match config !! section with
      | Some (VDict items) =>
          <[section := VDict (<[snd var := VStr s]> items)]> config
      | _ => config
      end
  | None => config
  end.

(** [Config.__load_env] *)
Definition load_env (environ : gmap string string) : gmap string value :=
  let config := foldl (env_top environ) ∅ TOP_VARS in
  let config := foldl (env_nested "db_credentials" environ) config PG_VARS in
  foldl (env_nested "logging" environ) config LOG_VARS.

(** [{**a, **b}]: [a] has to be a mapping; the entries of [b] win. *)
Definition unpack (a : value) (b : gmap string value)
    : res (gmap string value) :=
  match a with
  | VDict items => Ret (b ∪ items)
  | _ => Exc TypeError
  end.

(** [config.get(key)] *)
Definition dict_get (config : gmap string value) (key : string) : value :=
  default VNone (config !! key).

(** [config[key]] *)
Definition item (config : gmap string value) (key : string) : res value :=
  match config !! key with
  | Some v => Ret v
  | None => Exc (KeyError key)
  end.

(** [v[key]] for a string [key]: only a mapping can be subscripted so. *)
Definition subscript (v : value) (key : string) : res value :=
  match v with
  | VDict items => item items key
  | _ => Exc TypeError
  end.

Definition mandatory_values : list string := ["token"; "prefix"].
Definition mandatory_pg_values : list string :=
  ["database"; "user"; "password"; "host"; "port"].
Definition mandatory_log_values : list string := ["level"].

(** The list [missing_values] as [load] builds it.  The loops over the
    entries of a section test the section itself, as the source does. *)
Definition missing_values (config : gmap string value) : list string :=
  flat_map (fun value => if negb (truthy (dict_get config value))
                         then [value] else [])
    mandatory_values
  ++ (if negb (truthy (dict_get config "db_credentials"))
      then mandatory_pg_values
      else flat_map (fun value =>
                       if negb (truthy (dict_get config "db_credentials"))
                       then ["db_credentials." +:+ value] else [])
             mandatory_pg_values)
  ++ (if negb (truthy (dict_get config "logging"))
      then mandatory_log_values
      else flat_map (fun value =>
                       if negb (truthy (dict_get config "logging"))
                       then ["logging." +:+ value] else [])
             mandatory_log_values).

Definition MSG_MISSING : string := "The following config values are missing: ".
Definition MSG_LEVEL : string := "Invalid logging level: ".

(** [str.lower] on the letters A to Z; no other character lowers to a
    letter of the words compared with below. *)
Definition lower_char (c : ascii) : ascii :=
  if in_range "A" "Z" c then ascii_of_N (code c + 32) else c.

Fixpoint lower (s : string) : string :=
  match s with
  | String c s' => String (lower_char c) (lower s')
  | EmptyString => EmptyString
  end.

(** [mentionable.lower() in ("y", "yes", "true")] *)
Definition is_yes (s : string) : bool :=
  existsb (String.eqb (lower s)) ["y"; "yes"; "true"].

Definition set_token (v : option string) (cls : state) : state :=
  State v (owner_id cls) (prefix cls) (mentionable cls) (db_credentials cls)
    (logging cls).
Definition set_owner_id (v : option Z) (cls : state) : state :=
  State (token cls) v (prefix cls) (mentionable cls) (db_credentials cls)
    (logging cls).
Definition set_prefix (v : option string) (cls : state) : state :=
  State (token cls) (owner_id cls) v (mentionable cls) (db_credentials cls)
    (logging cls).
Definition set_mentionable (v : value) (cls : state) : state :=
  State (token cls) (owner_id cls) (prefix cls) v (db_credentials cls)
    (logging cls).
Definition set_db_credentials (v : gmap string value) (cls : state) : state :=
  State (token cls) (owner_id cls) (prefix cls) (mentionable cls) v
    (logging cls).
Definition set_logging (v : gmap string Z) (cls : state) : state :=
  State (token cls) (owner_id cls) (prefix cls) (mentionable cls)
    (db_credentials cls) v.

(** One round of the loop that copies the credentials: the class keeps
    what earlier rounds wrote when a later one raises. *)
Definition copy_credential (credentials : value)
    (acc : state * option raised) (value : string) : state * option raised :=
  match snd acc with
  | Some e => acc
  | None =>
      match subscript credentials value with
      | Ret v =>
          (set_db_credentials (<[value := v]> (db_credentials (fst acc)))
             (fst acc), None)
      | Exc e => (fst acc, Some e)
      end
  end.

(** [log_level not in LOG_LEVELS], then the lookup: a sequence or a
    mapping cannot be hashed. *)
Definition level_of (log_level : value) : res (option Z) :=
  match log_level with
  | VStr s => Ret (LOG_LEVELS !! s)
  | VList _ => Exc TypeError
  | VDict _ => Exc TypeError
  | _ => Ret None
  end.

(** [x is not None] *)
Definition is_set {A : Type} (x : option A) : bool :=
  match x with
  | Some _ => true
  | None => false
  end.

Section Load.

(** What [str] gives for a sequence or a mapping, and what [int] gives for
    a string ([None]: it raises [ValueError]). *)
Variable repr_ : value -> string.
Variable int_of_str : string -> option Z.

(** [str(v)] *)
Definition str_ (v : value) : string :=
  match v with
  | VStr s => s
  | VInt n => str_of_Z n
  | VBool true => "True"
  | VBool false => "False"
  | VNone => "None"
  | _ => repr_ v
  end.

(** [int(v)] *)
Definition int_ (v : value) : res Z :=
  match v with
  | VInt n => Ret n
  | VBool b => Ret (if b then 1 else 0)
  | VStr s =>
      match int_of_str s with
      | Some n => Ret n
      | None => Exc ValueError
      end
  | _ => Exc TypeError
  end.

(** The assignments of [load], from [cls.token = ...] on.  The result is
    the class as the call leaves it and the exception raised, if any. *)
Definition assign (config : gmap string value) (cls : state)
    : state * option raised :=
  match item config "token" with
  | Exc e => (cls, Some e)
  | Ret token_ =>
      let cls := set_token (Some (str_ token_)) cls in
      match int_ (or_ (dict_get config "owner_id") (VInt 0)) with
      | Exc e => (cls, Some e)
      | Ret owner =>
          let cls := set_owner_id (Some owner) cls in
          match item config "prefix" with
          | Exc e => (cls, Some e)
          | Ret prefix_ =>
              let cls := set_prefix (Some (str_ prefix_)) cls in
              let mentionable_ :=
                or_ (dict_get config "mentionable") (VBool false) in
              let cls :=
                match mentionable_ with
                | VStr s => set_mentionable (VBool (is_yes s)) cls
                | _ => set_mentionable mentionable_ cls
                end in
              match item config "db_credentials" with
              | Exc e => (cls, Some e)
              | Ret credentials =>
                  match foldl (copy_credential credentials) (cls, None)
                          mandatory_pg_values with
                  | (cls, Some e) => (cls, Some e)
                  | (cls, None) =>
                      match item config "logging" with
                      | Exc e => (cls, Some e)
                      | Ret section =>
                          match subscript section "level" with
                          | Exc e => (cls, Some e)
                          | Ret log_level =>
                              match level_of log_level with
                              | Exc e => (cls, Some e)
                              | Ret None =>
                                  (cls,
                                   Some (ConfigValueError
                                           (MSG_LEVEL +:+ str_ log_level)))
                              | Ret (Some level) =>
                                  (set_logging
                                     (<["level" := level]> (logging cls)) cls,
                                   None)
                              end
                          end
                      end
                  end
              end
          end
      end
  end.

(** [Config.load] *)
Definition load (force : bool) (file : yaml_file)
    (environ : gmap string string) (cls : state) : state * option raised :=
  if negb force && is_set (token cls)
  then (cls, None)
  else
    match unpack (load_yaml file) (load_env environ) with
    | Exc e => (cls, Some e)
    | Ret config =>
        match missing_values config with
        | [] => assign config cls
        | missing =>
            (cls,
             Some (ConfigValueError (MSG_MISSING +:+ String.concat ", " missing)))
        end
    end.

End Load.

End Config.

(** The names [load] reports as missing: [token] and [prefix] one by one,
    the sections [db_credentials] and [logging] as a whole. *)
Definition absent (config : gmap string Config.value) : list string :=
  (if Config.truthy (Config.dict_get config "token") then [] else ["token"])
  ++ (if Config.truthy (Config.dict_get config "prefix") then [] else ["prefix"])
  ++ (if Config.truthy (Config.dict_get config "db_credentials")
      then [] else Config.mandatory_pg_values)
  ++ (if Config.truthy (Config.dict_get config "logging")
      then [] else Config.mandatory_log_values).

(** The entries of a section that the environment sets, [None] when it
    sets none of them. *)
Definition env_items (environ : gmap string string)
    (vars : list (string * string)) (start : option (gmap string Config.value))
    : option (gmap string Config.value) :=
  foldl (fun acc var =>
           match environ !! fst var with
           | Some s => Some (<[snd var := Config.VStr s]> (default ∅ acc))
           | None => acc
           end) start vars.

(** Sample configuration data for the closed instances below. *)
Definition sample_credentials : gmap string Config.value :=
  <["database" := Config.VStr "bot"]>
    (<["user" := Config.VStr "bot"]>
       (<["password" := Config.VStr "secret"]>
          (<["host" := Config.VStr "localhost"]>
             (<["port" := Config.VInt 5432]> ∅)))).

Definition sample_yaml : gmap string Config.value :=
  <["token" := Config.VStr "abc"]>
    (<["prefix" := Config.VStr "!"]>
       (<["db_credentials" := Config.VDict sample_credentials]>
          (<["logging" := Config.VDict (<["level" := Config.VStr "INFO"]> ∅)]>
             ∅))).

Definition sample_repr (v : Config.value) : string := "<object>".
Definition sample_int_of_str (s : string) : option Z :=
  if forallb is_digit (list_ascii_of_string s) then Some (py_int s) else None.

(** The class after the assignments of [token], [owner_id], [prefix] and
    [mentionable]. *)
Definition scalars_assigned (repr_ : Config.value -> string)
    (token_ prefix_ : Config.value) (owner : Z) (mentionable_ : Config.value)
    (cls : Config.state) : Config.state :=
  Config.State (Some (Config.str_ repr_ token_)) (Some owner)
    (Some (Config.str_ repr_ prefix_))
    (match mentionable_ with
     | Config.VStr s => Config.VBool (Config.is_yes s)
     | _ => mentionable_
     end)
    (Config.db_credentials cls) (Config.logging cls).

(** Two classes that differ in [db_credentials] at most. *)
Definition same_but_credentials (a b : Config.state) : Prop :=
  Config.token a = Config.token b
  /\ Config.owner_id a = Config.owner_id b
  /\ Config.prefix a = Config.prefix b
  /\ Config.mentionable a = Config.mentionable b
  /\ Config.logging a = Config.logging b.

(** A file with every setting, and the same file read while [PG_HOST] is
    set in the environment. *)
Definition sample_host_environ : gmap string string := <["PG_HOST" := "db"]> ∅.

Definition sample_error_level : gmap string Config.value :=
  <["logging" := Config.VDict (<["level" := Config.VStr "ERROR"]> ∅)]>
    sample_yaml.

(* ===================================================================== *)
(** * Properties *)
(* ===================================================================== *)

(** ** Numerals *)

Lemma Z_range_forallb (P : Z -> bool) (lo hi : Z) :
  forallb P (Z_range lo hi) = true ->
  forall n, lo <= n <= hi -> P n = true.
Proof.
  intros H n Hn. rewrite forallb_forall in H. apply H.
  unfold Z_range. replace n with (lo + Z.of_nat (Z.to_nat (n - lo))) by lia.
  apply (in_map (fun i => lo + Z.of_nat i)), in_seq. lia.
Qed.

Lemma format_two_digits (n : Z) : 0 <= n <= 99 -> format_0w 2 n = two_digits n.
Proof.
  intros Hn. apply String.eqb_eq.
  apply (Z_range_forallb (fun n => String.eqb (format_0w 2 n) (two_digits n)) 0 99);
    [vm_compute; reflexivity|exact Hn].
Qed.

(** From the year 1000 on [str] writes the four digits. *)
Lemma str_of_Z_four_digits (n : Z) :
  1000 <= n <= 9999 -> str_of_Z n = four_digits n.
Proof.
  intros Hn. apply String.eqb_eq.
  apply (Z_range_forallb (fun n => String.eqb (str_of_Z n) (four_digits n))
           1000 9999);
    [vm_compute; reflexivity|exact Hn].
Qed.

(** Below that it writes fewer. *)
Lemma str_of_Z_short (n : Z) :
  0 <= n <= 999 -> (String.length (str_of_Z n) <= 3)%nat.
Proof.
  intros Hn. apply Nat.leb_le.
  apply (Z_range_forallb (fun n => (String.length (str_of_Z n) <=? 3)%nat) 0 999);
    [vm_compute; reflexivity|exact Hn].
Qed.

Lemma py_int_two_digits (n : Z) : 0 <= n <= 99 -> py_int (two_digits n) = n.
Proof.
  intros Hn. apply Z.eqb_eq.
  apply (Z_range_forallb (fun n => py_int (two_digits n) =? n) 0 99);
    [vm_compute; reflexivity|exact Hn].
Qed.

Lemma py_int_four_digits (n : Z) : 0 <= n <= 9999 -> py_int (four_digits n) = n.
Proof.
  intros Hn. apply Z.eqb_eq.
  apply (Z_range_forallb (fun n => py_int (four_digits n) =? n) 0 9999);
    [vm_compute; reflexivity|exact Hn].
Qed.

Lemma digit_char_facts (k : Z) :
  0 <= k <= 9 ->
  is_digit (digit_char k) = true /\ is_space (digit_char k) = false.
Proof.
  intros Hk.
  assert (H : (is_digit (digit_char k) && negb (is_space (digit_char k))) = true).
  { apply (Z_range_forallb
             (fun k => is_digit (digit_char k) && negb (is_space (digit_char k)))
             0 9); [reflexivity|exact Hk]. }
  apply andb_true_iff in H as [H1 H2]. apply negb_true_iff in H2. auto.
Qed.

(** ** [str] writes the decimal numeral *)

Lemma int_digits_digits_fuel (fuel : nat) :
  forall (n : Z) (acc : string),
    0 <= n < 10 ^ Z.of_nat fuel ->
    exists k, 0 <= k /\
      forall a, int_digits (digits_fuel fuel n acc) a
                = int_digits acc (a * 10 ^ k + n).
Proof.
  induction fuel as [|fuel IH]; intros n acc Hn.
  - change (10 ^ Z.of_nat 0) with 1 in Hn. exists 0. split; [lia|].
    intros a. cbn [digits_fuel]. f_equal. lia.
  - cbn [digits_fuel].
    destruct (Z.ltb_spec n 10) as [Hsmall|Hbig].
    + exists 1. split; [lia|]. intros a. cbn [int_digits].
      assert (Hc : Z.of_N (code (digit_char (n mod 10))) - 48 = n).
      { rewrite Z.mod_small by lia.
        apply Z.eqb_eq.
        apply (Z_range_forallb
                 (fun n => Z.of_N (code (digit_char n)) - 48 =? n) 0 9);
          [reflexivity|lia]. }
      rewrite Hc. f_equal. lia.
    + assert (Hq : 0 <= n / 10 < 10 ^ Z.of_nat fuel).
      { rewrite Nat2Z.inj_succ, Z.pow_succ_r in Hn by lia.
        split; [apply Z.div_pos; lia|].
        apply Z.div_lt_upper_bound; lia. }
      destruct (IH (n / 10) (String (digit_char (n mod 10)) acc) Hq)
        as (k & Hk & Hval).
      exists (k + 1). split; [lia|]. intros a. rewrite Hval.
      cbn [int_digits].
      assert (Hc : Z.of_N (code (digit_char (n mod 10))) - 48 = n mod 10).
      { apply Z.eqb_eq.
        apply (Z_range_forallb
                 (fun n => Z.of_N (code (digit_char n)) - 48 =? n) 0 9);
          [reflexivity|]. pose proof (Z.mod_pos_bound n 10). lia. }
      rewrite Hc. f_equal. rewrite Z.pow_add_r, Z.pow_1_r by lia.
      pose proof (Z.div_mod n 10). lia.
Qed.

(** Reading the digits of [str(n)] gives [n] back. *)
Lemma str_of_Z_numeral (n : Z) : 0 <= n -> int_digits (str_of_Z n) 0 = n.
Proof.
  intros Hn. unfold str_of_Z.
  destruct (Z.ltb_spec n 0) as [Hneg|_]; [lia|].
  assert (Hfuel : 0 <= n < 10 ^ Z.of_nat (S (Z.to_nat (Z.log2 n)))).
  { split; [exact Hn|].
    rewrite Nat2Z.inj_succ, Z2Nat.id by apply Z.log2_nonneg.
    destruct (Z.eq_dec n 0) as [->|Hnz]; [reflexivity|].
    apply Z.lt_le_trans with (2 ^ Z.succ (Z.log2 n)).
    - apply Z.log2_spec. lia.
    - apply Z.pow_le_mono_l. pose proof (Z.log2_nonneg n). lia. }
  destruct (int_digits_digits_fuel _ n EmptyString Hfuel) as (k & _ & Hval).
  rewrite Hval. cbn [int_digits]. lia.
Qed.

(** ** The ordinal suffix *)

Lemma mod10_cases (n : Z) :
  n mod 10 = 0 \/ n mod 10 = 1 \/ n mod 10 = 2 \/ n mod 10 = 3 \/ n mod 10 = 4 \/
  n mod 10 = 5 \/ n mod 10 = 6 \/ n mod 10 = 7 \/ n mod 10 = 8 \/ n mod 10 = 9.
Proof. pose proof (Z.mod_pos_bound n 10). lia. Qed.

Lemma ordinal_suffix_table (n : Z) :
  last_chars 2 (nth (Z.to_nat (n mod 10)) ORDINAL_WORDS EmptyString)
  = spec_suffix (n mod 10).
Proof.
  destruct (mod10_cases n) as [H|[H|[H|[H|[H|[H|[H|[H|[H|H]]]]]]]]];
    rewrite H; reflexivity.
Qed.

Lemma day_text_of_age (b : Birthday) (today : date) (y age : Z) :
  year b = Some y -> y <> 0 ->
  valid_date (Date y (month b) (day b)) = true ->
  relativedelta_years today (Date y (month b) (day b)) = age ->
  day_text b today = Ok (ordinal age +:+ " ").
Proof.
  intros Hy Hnz Hv Hage. unfold day_text, mk_date. rewrite Hy, Hv.
  destruct (Z.eqb_spec y 0) as [->|_]; [congruence|].
  cbn. now rewrite Hage.
Qed.

(** [day_text] goes through exactly when the date of the row exists. *)
Lemma day_text_date_exists (b : Birthday) (today : date) :
  if date_exists b
  then exists day_, day_text b today = Ok day_
  else day_text b today = Raise ValueError.
Proof.
  unfold date_exists, day_text, mk_date.
  destruct (year b) as [y|]; [|eauto].
  destruct (y =? 0); cbn [orb]; [eauto|].
  destruct (valid_date _); cbn; eauto.
Qed.

Lemma choice_heading (draw : nat) :
  In (choice draw BIRTHDAY_MESSAGES) BIRTHDAY_MESSAGES.
Proof.
  unfold choice. apply nth_In. apply Nat.mod_upper_bound. discriminate.
Qed.

Lemma date_gt_irrefl (d : date) : date_gt d d = false.
Proof. unfold date_gt. rewrite !Z.ltb_irrefl, !Z.eqb_refl. reflexivity. Qed.

(** ** Whole years on the anniversary *)

Lemma set_months_whole_years (n : Z) : 0 <= n -> set_months (12 * n) = (n, 0).
Proof.
  intros Hn. unfold set_months.
  destruct (Z.ltb_spec 11 (Z.abs (12 * n))) as [Hbig|Hsmall].
  - assert (Hs : Z.sgn (12 * n) = 1) by (apply Z.sgn_pos; lia).
    rewrite Hs, !Z.mul_1_r.
    rewrite (Z.mul_comm 12 n), Z.div_mul, Z.mod_mul by lia. reflexivity.
  - assert (n = 0) as -> by lia. reflexivity.
Qed.

Lemma adjust_months_step (fuel : nat) (dt1 dt2 : date) (months : Z) :
  adjust_months (S fuel) dt1 dt2 months
  = let dtm := add_years_months dt2 (set_months months) in
    if date_lt dt1 dt2
    then (if date_gt dt1 dtm then adjust_months fuel dt1 dt2 (months + 1)
          else months)
    else (if date_lt dt1 dtm then adjust_months fuel dt1 dt2 (months - 1)
          else months).
Proof. reflexivity. Qed.

Lemma relativedelta_years_anniversary (today : date) (y : Z) :
  valid_date today = true -> y <= d_year today ->
  relativedelta_years today (Date y (d_month today) (d_day today))
  = d_year today - y.
Proof.
  destruct today as [Y M D]. cbn [d_year d_month d_day]. intros Hv Hy.
  assert (HD : D <= days_in_month Y M).
  { unfold valid_date in Hv. cbn [d_year d_month d_day] in Hv.
    rewrite !andb_true_iff, !Z.leb_le in Hv. tauto. }
  unfold relativedelta_years. cbn [d_year d_month].
  replace ((Y - y) * 12 + (M - M)) with (12 * (Y - y)) by lia.
  assert (Hdtm : add_years_months (Date y M D) (set_months (12 * (Y - y)))
                 = Date Y M D).
  { rewrite set_months_whole_years by lia. unfold add_years_months.
    cbn [d_year d_month d_day]. rewrite Z.eqb_refl.
    replace (y + (Y - y)) with Y by lia. now rewrite Z.min_r by lia. }
  assert (Hlt : date_lt (Date Y M D) (Date y M D) = false).
  { unfold date_lt, date_gt. cbn [d_year d_month d_day].
    rewrite !Z.ltb_irrefl, Z.eqb_refl, andb_false_r, orb_false_r.
    apply Z.ltb_ge. lia. }
  rewrite adjust_months_step. cbv zeta. rewrite Hdtm, Hlt.
  unfold date_lt. rewrite date_gt_irrefl.
  now rewrite set_months_whole_years by lia.
Qed.

(** ** The month loop of [relativedelta] ends after one adjustment *)

Lemma set_months_split (k : Z) :
  let '(q, r) := set_months k in
  k = 12 * q + r /\ -11 <= r <= 11.
Proof.
  unfold set_months.
  pose proof (Z.abs_spec k) as Habs.
  destruct (Z.ltb_spec 11 (Z.abs k)) as [Hbig|Hsmall]; [|cbv beta iota; lia].
  cbv zeta beta iota.
  destruct (Z.sgn_spec k) as [[Hk ->]|[[Hk ->]|[Hk ->]]].
  - rewrite !Z.mul_1_r. Z.div_mod_to_equations. lia.
  - lia.
  - Z.div_mod_to_equations. lia.
Qed.

Lemma add_years_months_index (dt : date) (k : Z) :
  1 <= d_month dt <= 12 ->
  let r := add_years_months dt (set_months k) in
  month_index r = month_index dt + k /\ 1 <= d_month r <= 12.
Proof.
  intros Hm. pose proof (set_months_split k) as Hs.
  destruct (set_months k) as [q r0]. destruct Hs as [Hk Hr].
  unfold add_years_months, month_index.
  destruct (Z.eqb_spec r0 0) as [->|Hnz]; cbn [d_year d_month]; [lia|].
  destruct (Z.ltb_spec 12 (d_month dt + r0)); cbn [d_year d_month]; [lia|].
  destruct (Z.ltb_spec (d_month dt + r0) 1); cbn [d_year d_month]; lia.
Qed.

Lemma date_gt_by_month (a b : date) :
  1 <= d_month a <= 12 -> 1 <= d_month b <= 12 ->
  (month_index b < month_index a -> date_gt a b = true)
  /\ (month_index a < month_index b -> date_gt a b = false).
Proof.
  unfold month_index, date_gt. intros Ha Hb. split; intros H.
  - destruct (Z.ltb_spec (d_year b) (d_year a)); [reflexivity|].
    cbn [orb]. assert (d_year a = d_year b) as -> by lia.
    rewrite Z.eqb_refl. cbn [andb].
    destruct (Z.ltb_spec (d_month b) (d_month a)); [reflexivity|lia].
  - destruct (Z.ltb_spec (d_year b) (d_year a)); [lia|]. cbn [orb].
    destruct (Z.eqb_spec (d_year a) (d_year b)) as [He|]; [|reflexivity].
    cbn [andb].
    destruct (Z.ltb_spec (d_month b) (d_month a)); [lia|]. cbn [orb].
    destruct (Z.eqb_spec (d_month a) (d_month b)); [lia|reflexivity].
Qed.

(** Two rounds of fuel are all the loop uses: after one adjustment the
    shifted date lies in the month before, or after, the target. *)
Lemma adjust_months_two_rounds (fuel : nat) (dt1 dt2 : date) :
  1 <= d_month dt1 <= 12 -> 1 <= d_month dt2 <= 12 ->
  let months := (d_year dt1 - d_year dt2) * 12 + (d_month dt1 - d_month dt2) in
  adjust_months (S (S fuel)) dt1 dt2 months = adjust_months 2 dt1 dt2 months.
Proof.
  intros H1 H2 months.
  rewrite !(adjust_months_step _ dt1 dt2 months). cbv zeta.
  destruct (date_lt dt1 dt2) eqn:H12.
  - destruct (date_gt dt1 (add_years_months dt2 (set_months months)));
      [|reflexivity].
    rewrite !(adjust_months_step _ dt1 dt2 (months + 1)). cbv zeta.
    destruct (add_years_months_index dt2 (months + 1) H2) as [Hi Hr].
    assert (Hgt : date_gt dt1 (add_years_months dt2 (set_months (months + 1)))
                  = false).
    { apply date_gt_by_month; [assumption..|].
      cbv zeta in Hi. rewrite Hi. unfold month_index. subst months. lia. }
    now rewrite H12, Hgt.
  - destruct (date_lt dt1 (add_years_months dt2 (set_months months)));
      [|reflexivity].
    rewrite !(adjust_months_step _ dt1 dt2 (months - 1)). cbv zeta.
    destruct (add_years_months_index dt2 (months - 1) H2) as [Hi Hr].
    assert (Hlt : date_lt dt1 (add_years_months dt2 (set_months (months - 1)))
                  = false).
    { unfold date_lt. apply date_gt_by_month; [assumption..|].
      cbv zeta in Hi. rewrite Hi. unfold month_index. subst months. lia. }
    now rewrite H12, Hlt.
Qed.

Lemma notify_due_same_day (today : date) (b : Birthday) :
  notify_due today b = true ->
  enabled b = true /\ day b = d_day today /\ month b = d_month today.
Proof.
  unfold notify_due. rewrite !andb_true_iff, !Z.eqb_eq. tauto.
Qed.

(** ** Queries and sweeps over the table *)

Lemma elem_of_select (p : Birthday -> bool) (db : table) (k : Z * Z) (b : Birthday) :
  (k, b) ∈ select p db <-> db !! k = Some b /\ p b = true.
Proof.
  unfold select. rewrite list_elem_of_filter, elem_of_map_to_list. simpl. tauto.
Qed.

Lemma elem_of_select_keys (p : Birthday -> bool) (db : table) (k : Z * Z) :
  k ∈ (select p db).*1 <-> exists b, db !! k = Some b /\ p b = true.
Proof.
  rewrite list_elem_of_fmap. split.
  - intros ([k' b] & -> & Hin). apply elem_of_select in Hin. eauto.
  - intros (b & Hb & Hp). exists (k, b). split; [reflexivity|].
    now apply elem_of_select.
Qed.

Lemma NoDup_select_keys (p : Birthday -> bool) (db : table) :
  NoDup (select p db).*1.
Proof.
  unfold select.
  eapply sublist_NoDup; [apply (NoDup_fst_map_to_list db)|].
  apply fmap_sublist, sublist_filter.
Qed.

Lemma retention_fold_lookup (l : list ((Z * Z) * Birthday)) :
  forall (acc : list Z * table) (k : Z * Z),
    snd (foldl retention_step acc l) !! k
    = if decide (k ∈ l.*1) then None else snd acc !! k.
Proof.
  induction l as [|[k' b'] l IH]; intros acc k.
  - destruct (decide (k ∈ ([] : list ((Z * Z) * Birthday)).*1)) as [Hin|_];
      [|reflexivity].
    now apply elem_of_nil in Hin.
  - change (snd (foldl retention_step (retention_step acc (k', b')) l) !! k
            = if decide (k ∈ k' :: l.*1) then None else snd acc !! k).
    rewrite IH.
    change (snd (retention_step acc (k', b'))) with (delete k' (snd acc)).
    destruct (decide (k ∈ l.*1)) as [Hin|Hnin].
    + rewrite decide_True; [reflexivity|]. now apply list_elem_of_further.
    + destruct (decide (k = k')) as [->|Hne].
      * rewrite decide_True by apply list_elem_of_here.
        apply lookup_delete_eq.
      * rewrite decide_False.
        -- now apply lookup_delete_ne.
        -- rewrite elem_of_cons. tauto.
Qed.

(** C5. A retention sweep at [now] deletes a stored record exactly when it
    is disabled and its last update lies strictly before [now] minus 90
    days, and leaves every other record as it was; at the cutoff itself a
    record stays, one microsecond earlier a disabled one goes. *)
Theorem retention_deletes_iff_stale (now : datetime) (db : table)
    (k : Z * Z) (b : Birthday) (Hk : db !! k = Some b) :
  let db' := snd (birthday_cron_retention now db) in
  let cutoff := now - 90 * (86400 * 1000000) in
  (db' !! k = None <-> enabled b = false /\ date_updated b < cutoff)
  /\ (db' !! k = None \/ db' !! k = Some b)
  /\ (date_updated b = cutoff -> db' !! k = Some b)
  /\ (enabled b = false -> date_updated b = cutoff - 1 -> db' !! k = None).
Proof.
  intros db' cutoff.
  assert (Hlook : db' !! k
                  = if retention_due now b then None else Some b).
  { subst db'. unfold birthday_cron_retention.
    rewrite retention_fold_lookup. simpl.
    destruct (decide (k ∈ (select (retention_due now) db).*1)) as [Hin|Hnin].
    - apply elem_of_select_keys in Hin as (b' & Hb' & Hp).
      assert (b' = b) as -> by congruence. now rewrite Hp.
    - destruct (retention_due now b) eqn:Hp; [|exact Hk].
      exfalso. apply Hnin, elem_of_select_keys. eauto. }
  assert (Hdue : retention_due now b = true
                 <-> enabled b = false /\ date_updated b < cutoff).
  { unfold retention_due, minus_days, RETENTION_DAYS, MICROS_PER_DAY.
    rewrite andb_true_iff, negb_true_iff, Z.ltb_lt. subst cutoff. tauto. }
  rewrite Hlook.
  destruct (retention_due now b) eqn:Hp.
  - assert (enabled b = false /\ date_updated b < cutoff) as [He Hlt]
      by now apply Hdue.
    repeat split; auto; intros; lia.
  - assert (Hn : ~ (enabled b = false /\ date_updated b < cutoff)).
    { intros H. apply Hdue in H. congruence. }
    repeat split; auto; try discriminate.
    + intros H. now destruct Hn.
    + intros He Hlt. exfalso. apply Hn. split; [exact He|lia].
Qed.

Lemma retention_deletes_iff_stale_witness :
  snd (birthday_cron_retention sample_now sample_disabled_db) !! (1, 1) = None
  /\ snd (birthday_cron_retention sample_now sample_disabled_db) !! (2, 1)
     = Some sample_edge.
Proof.
  split.
  - apply (retention_deletes_iff_stale sample_now sample_disabled_db (1, 1)
             sample_stale eq_refl); reflexivity.
  - apply (retention_deletes_iff_stale sample_now sample_disabled_db (2, 1)
             sample_edge eq_refl).
    reflexivity.
Defined.

(** ** What the parser returns fits the columns *)

Lemma strptime_Ok_valid (data fmt : string) (d : date) :
  strptime data fmt = Ok d -> valid_date d = true.
Proof.
  unfold strptime.
  destruct (format_regex fmt false) as [r|]; [|discriminate].
  destruct (re_match r data) as [found|]; [|discriminate].
  destruct (negb _); [discriminate|].
  unfold mk_date. destruct (valid_date _) eqn:Hv; [|discriminate].
  now intros [= <-].
Qed.

Lemma parse_date_Ok_inv (today : date) (text : string) (y : option Z) (m d : Z) :
  parse_date today text = Ok (y, m, d) ->
  exists matched fmt dt,
    first_match PATTERNS_DATE (strip text) = Some (matched, fmt)
    /\ m = d_month dt /\ d = d_day dt
    /\ ((has_year fmt = false /\ y = None
         /\ strptime (matched +:+ strftime today " %Y") (fmt +:+ " %Y") = Ok dt)
        \/ (has_year fmt = true /\ y = Some (d_year dt)
            /\ strptime matched fmt = Ok dt /\ date_gt dt today = false)).
Proof.
  unfold parse_date. intros H.
  destruct (first_match PATTERNS_DATE (strip text)) as [[matched fmt]|] eqn:Hf;
    [|discriminate].
  exists matched, fmt.
  destruct (negb (contains "%y" fmt) && negb (contains "%Y" fmt)) eqn:Hy.
  - destruct (strptime (matched +:+ strftime today " %Y") (fmt +:+ " %Y"))
      as [dt|e] eqn:Hs; [|discriminate].
    cbn in H. injection H as <- <- <-. exists dt.
    repeat split; try reflexivity. left. repeat split; try assumption.
    unfold has_year. apply andb_true_iff in Hy as [Ha Hb].
    apply negb_true_iff in Ha, Hb. now rewrite Ha, Hb.
  - destruct (strptime matched fmt) as [dt|e] eqn:Hs; [|discriminate].
    cbn in H. destruct (date_gt dt today) eqn:Hgt; [discriminate|].
    injection H as <- <- <-. exists dt.
    repeat split; try reflexivity. right. repeat split; try assumption.
    unfold has_year. apply andb_false_iff in Hy as [Ha|Hb].
    + apply negb_false_iff in Ha. now rewrite Ha.
    + apply negb_false_iff in Hb. rewrite Hb. apply orb_true_r.
Qed.

Lemma parse_date_Ok_some_year (today : date) (text : string) (y : option Z)
    (m d : Z) :
  parse_date today text = Ok (y, m, d) ->
  match y with
  | Some yy => valid_date (Date yy m d) = true /\ date_gt (Date yy m d) today = false
  | None => exists yr, valid_date (Date yr m d) = true
  end.
Proof.
  intros H. apply parse_date_Ok_inv in H as (matched & fmt & dt & Hf & -> & -> & H).
  destruct H as [(_ & -> & Hs)|(_ & -> & Hs & Hgt)].
  - exists (d_year dt). apply strptime_Ok_valid in Hs. now destruct dt.
  - apply strptime_Ok_valid in Hs. now destruct dt.
Qed.

Lemma days_in_month_bounds (y m : Z) : 28 <= days_in_month y m <= 31.
Proof.
  unfold days_in_month.
  destruct (m =? 2); [destruct (is_leap y); lia|].
  destruct ((m =? 4) || (m =? 6) || (m =? 9) || (m =? 11)); lia.
Qed.

Lemma valid_date_fits (y m d : Z) :
  valid_date (Date y m d) = true ->
  smallint y = true /\ smallint m = true /\ smallint d = true.
Proof.
  unfold valid_date, smallint, MINYEAR, MAXYEAR. cbn [d_year d_month d_day].
  pose proof (days_in_month_bounds y m).
  rewrite !andb_true_iff, !Z.leb_le. lia.
Qed.

(** Year, month and day as the parser returns them are never refused by
    the database. *)
Lemma parse_date_fits (today : date) (text : string) (y : option Z) (m d : Z) :
  parse_date today text = Ok (y, m, d) ->
  fits_column (f_year y) = true /\ smallint m = true /\ smallint d = true.
Proof.
  intros H. apply parse_date_Ok_some_year in H.
  destruct y as [yy|].
  - destruct H as [Hv _]. apply valid_date_fits in Hv. cbn [fits_column]. tauto.
  - destruct H as (yr & Hv). apply valid_date_fits in Hv. cbn [fits_column]. tauto.
Qed.

(** ** The [birthday] command and the membership listeners *)

(** An update that names columns writes the values of those columns,
    stamped by [BaseModel.update], or is refused. *)
Lemma update_fields_named (pk : Z * Z) (b : Birthday) (f : field)
    (fields : list field) (now : datetime) (db : table) :
  let row' := foldl set_field b (f :: fields) in
  let assignments :=
    BaseModel_update now (map (value_of row') (map column_of (f :: fields))) in
  update_fields (ModelObj pk b) (f :: fields) now db
  = if forallb fits_column assignments
    then Ok (ModelObj pk row',
             alter (fun row => foldl set_field row assignments) pk db)
    else Raise DataError.
Proof.
  intros row' assignments. subst assignments.
  unfold update_fields, Manager_update. fold row'.
  change (map column_of (f :: fields))
    with (column_of f :: map column_of fields).
  cbv iota. destruct (forallb fits_column _); reflexivity.
Qed.

(** The update of the [birthday] command. *)
Lemma update_fields_date (pk : Z * Z) (b : Birthday) (y : option Z) (m d : Z)
    (now : datetime) (db : table) :
  fits_column (f_year y) = true -> smallint m = true -> smallint d = true ->
  update_fields (ModelObj pk b) [f_year y; f_month m; f_day d] now db
  = Ok (ModelObj pk (mkBirthday y m d (last_notified b) (enabled b)
                       (date_created b) (date_updated b)),
        alter (fun row => mkBirthday y m d (last_notified row) (enabled row)
                            (date_created row) now) pk db).
Proof.
  intros Hy Hm Hd. rewrite update_fields_named. cbv zeta.
  cbn [foldl set_field map column_of value_of BaseModel_update existsb
       is_date_updated orb app forallb year month day last_notified enabled
       date_created date_updated].
  cbn [fits_column] in *. rewrite Hy, Hm, Hd. reflexivity.
Qed.

(** The update of one column other than the three numbers. *)
Lemma update_fields_enabled_table (pk : Z * Z) (b : Birthday) (v : bool)
    (now : datetime) (db : table) :
  update_fields (ModelObj pk b) [f_enabled v] now db
  = Ok (ModelObj pk (set_field b (f_enabled v)),
        alter (fun row => mkBirthday (year row) (month row) (day row)
                            (last_notified row) v (date_created row) now)
          pk db).
Proof. reflexivity. Qed.

(** C1 (as the code has it). Re-setting the birthday of an existing record
    overwrites year, month and day and stamps [date_updated]; it leaves
    [last_notified] and [enabled] as they were, and touches no other
    record. *)
Theorem birthday_reset_keeps_last_notified (user_id guild_id : Z)
    (text : string) (today : date) (defaults : datetime * datetime)
    (now : datetime) (db : table)
    (b : Birthday) (y : option Z) (m d : Z)
    (Hk : db !! (user_id, guild_id) = Some b)
    (Htext : text <> EmptyString)
    (Hparse : parse_date today text = Ok (y, m, d)) :
  let db' := fst (birthday user_id guild_id (Some text) today defaults now db) in
  db' !! (user_id, guild_id)
  = Some (mkBirthday y m d (last_notified b) (enabled b) (date_created b) now)
  /\ forall k, k <> (user_id, guild_id) -> db' !! k = db !! k.
Proof.
  intros db'. subst db'. unfold birthday.
  destruct text as [|c t]; [congruence|].
  rewrite Hparse. unfold safe_get. rewrite Hk. cbn [truthy].
  destruct (parse_date_fits _ _ _ _ _ Hparse) as (Hy & Hm & Hd).
  rewrite update_fields_date by assumption.
  cbn [fst]. split.
  - rewrite lookup_alter_eq, Hk. reflexivity.
  - intros k Hne. now rewrite lookup_alter_ne by congruence.
Qed.

Lemma birthday_reset_keeps_last_notified_witness :
  fst (birthday 1 1 (Some "14.02.1990") sample_today sample_defaults sample_now
         sample_db)
    !! (1, 1)
  = Some (mkBirthday (Some 1990) 2 14 (Some sample_notified) true 7 sample_now).
Proof.
  apply (birthday_reset_keeps_last_notified 1 1 "14.02.1990" sample_today
           sample_defaults sample_now sample_db sample_row (Some 1990) 2 14
           eq_refl).
  - discriminate.
  - reflexivity.
Defined.

(** C1 (as stated, refuted). A record notified earlier is re-set with a
    newly parsed date: its [last_notified] is still there afterwards, not
    cleared. *)
Lemma birthday_reset_does_not_clear :
  parse_date sample_today "14.02.1990" = Ok (Some 1990, 2, 14)
  /\ last_notified
       <$> fst (birthday 1 1 (Some "14.02.1990") sample_today sample_defaults
                  sample_now sample_db) !! (1, 1)
     = Some (Some sample_notified)
  /\ Some (Some sample_notified) <> Some (@None datetime).
Proof. split; [reflexivity|split; [reflexivity|discriminate]]. Qed.

(** What the listeners would write were [safe_get] awaited: an
    [update_fields] of [enabled] alone sets that column and stamps
    [date_updated]; [last_notified] is not among the columns written. *)
Lemma update_fields_enabled (pk : Z * Z) (b : Birthday) (v : bool)
    (now : datetime) (db : table) :
  db !! pk = Some b ->
  exists obj db',
    update_fields (ModelObj pk b) [f_enabled v] now db = Ok (obj, db')
    /\ db' !! pk
       = Some (mkBirthday (year b) (month b) (day b) (last_notified b) v
                 (date_created b) now).
Proof.
  intros Hk. eexists _, _. split; [apply update_fields_enabled_table|].
  now rewrite lookup_alter_eq, Hk.
Qed.

(** C6 (the code against the claim). [on_member_join] and
    [on_member_leave] never reach the table: the unawaited [safe_get]
    leaves a coroutine object in [birthday], [setattr] on it raises
    [AttributeError], and the record keeps its [enabled] flag and its
    [date_updated].  For the stored, disabled sample record a join neither
    enables it nor stamps the time of the event. *)
Theorem member_listeners_raise (user_id guild_id : Z) (now : datetime)
    (db : table) :
  on_member_join user_id guild_id now db = (db, Raise AttributeError)
  /\ on_member_leave user_id guild_id now db = (db, Raise AttributeError)
  /\ sample_disabled_db !! (1, 1) = Some sample_stale
  /\ enabled sample_stale = false
  /\ fst (on_member_join 1 1 sample_now sample_disabled_db) !! (1, 1)
     = Some sample_stale
  /\ date_updated sample_stale <> sample_now.
Proof.
  split; [reflexivity|]. split; [reflexivity|]. split; [reflexivity|].
  split; [reflexivity|]. split; [reflexivity|discriminate].
Qed.

(** ** The notification sweep *)

(** The update at the end of an attempt writes the two clock readings. *)
Lemma update_fields_last_notified (pk : Z * Z) (b : Birthday) (t u : datetime)
    (db : table) :
  update_fields (ModelObj pk b) [f_last_notified (Some t)] u db
  = Ok (ModelObj pk (set_field b (f_last_notified (Some t))),
        alter (notified_at t u) pk db).
Proof. reflexivity. Qed.

(** The message goes together exactly when the date of the row exists. *)
Lemma embed_of_date_exists (a : attempt) (b : Birthday) (today : date)
    (mention : string) :
  if date_exists b
  then exists e, embed_of a b today mention = Ok e
  else embed_of a b today mention = Raise ValueError.
Proof.
  unfold embed_of, heading_of.
  pose proof (day_text_date_exists b today) as H.
  destruct (date_exists b).
  - destruct H as (day_ & ->). cbn. eauto.
  - rewrite H. reflexivity.
Qed.

(** An attempt, case by case. *)
Lemma try_notify_cases (gg : Z -> option Guild) (a : attempt) (pk : Z * Z)
    (b : Birthday) (today : date) (db : table) :
  try_notify gg a pk b today db
  = match resolve gg pk with
    | None => (Abandoned, db)
    | Some (channel, mention) =>
        match embed_of a b today mention with
        | Raise e => (Failed e, db)
        | Ok message =>
            if send_ok a
            then (Sent channel message,
                  alter (notified_at (clock a) (clock_update a)) pk db)
            else (Failed HTTPException, db)
        end
    end.
Proof.
  unfold try_notify, resolve.
  destruct (gg (snd pk)) as [guild|]; [|reflexivity].
  cbn [mbind option_bind].
  destruct (system_channel guild) as [channel|]; [|reflexivity].
  cbn [mbind option_bind].
  destruct (get_member guild (fst pk)) as [mention|]; [|reflexivity].
  cbn [mbind option_bind].
  destruct (embed_of a b today mention) as [message|e]; [|reflexivity].
  destruct (send_ok a); [|reflexivity].
  now rewrite update_fields_last_notified.
Qed.

Lemma try_notify_sent (gg : Z -> option Guild) (a : attempt) (pk : Z * Z)
    (b : Birthday) (today : date) (db : table) :
  date_exists b && delivers gg a pk = true ->
  exists ch e,
    try_notify gg a pk b today db
    = (Sent ch e, alter (notified_at (clock a) (clock_update a)) pk db).
Proof.
  rewrite try_notify_cases. unfold delivers.
  intros [Hdate Hd]%andb_true_iff.
  destruct (resolve gg pk) as [[channel mention]|]; [|discriminate].
  pose proof (embed_of_date_exists a b today mention) as He.
  rewrite Hdate in He. destruct He as (e & ->). rewrite Hd. eauto.
Qed.

Lemma try_notify_unsent (gg : Z -> option Guild) (a : attempt) (pk : Z * Z)
    (b : Birthday) (today : date) (db : table) :
  date_exists b && delivers gg a pk = false ->
  exists o, try_notify gg a pk b today db = (o, db) /\ is_sent o = false.
Proof.
  rewrite try_notify_cases. unfold delivers. intros H.
  destruct (resolve gg pk) as [[channel mention]|]; [|eauto].
  pose proof (embed_of_date_exists a b today mention) as He.
  destruct (date_exists b).
  - destruct He as (e & ->). cbn [andb] in H. rewrite H. eauto.
  - rewrite He. eauto.
Qed.

(** What an attempt reports, case by case. *)
Lemma try_notify_report (gg : Z -> option Guild) (a : attempt) (pk : Z * Z)
    (b : Birthday) (today : date) (db : table) :
  match resolve gg pk with
  | None => fst (try_notify gg a pk b today db) = Abandoned
  | Some (channel, mention) =>
      if date_exists b
      then if send_ok a
           then exists e, fst (try_notify gg a pk b today db) = Sent channel e
           else fst (try_notify gg a pk b today db) = Failed HTTPException
      else fst (try_notify gg a pk b today db) = Failed ValueError
  end.
Proof.
  rewrite try_notify_cases.
  destruct (resolve gg pk) as [[channel mention]|]; [|reflexivity].
  pose proof (embed_of_date_exists a b today mention) as He.
  destruct (date_exists b).
  - destruct He as (e & ->). destruct (send_ok a); eauto.
  - now rewrite He.
Qed.

(** A sweep with an attempt that raised does not return. *)
Lemma gather_raised (log : list ((Z * Z) * outcome)) (k : Z * Z) (e : exn) :
  (k, Failed e) ∈ log -> gather log (Raise e) /\ ~ gather log (Ok tt).
Proof.
  intros Hin. split; [now apply (gather_raises log k e)|].
  intros Hg. inversion Hg as [Hnone|]. exact (Hnone k e Hin).
Qed.

(** What an attempt reports does not depend on the table. *)
Lemma try_notify_outcome (gg : Z -> option Guild) (a : attempt) (pk : Z * Z)
    (b : Birthday) (today : date) (db : table) :
  fst (try_notify gg a pk b today db) = fst (try_notify gg a pk b today ∅).
Proof.
  rewrite !try_notify_cases.
  destruct (resolve gg pk) as [[channel mention]|]; [|reflexivity].
  destruct (embed_of a b today mention); [|reflexivity].
  now destruct (send_ok a).
Qed.

Lemma sends_to_app (k : Z * Z) (l1 l2 : list ((Z * Z) * outcome)) :
  sends_to k (l1 ++ l2) = (sends_to k l1 + sends_to k l2)%nat.
Proof. unfold sends_to. now rewrite filter_app, length_app. Qed.

Lemma sends_to_one (k k' : Z * Z) (o : outcome) :
  sends_to k [(k', o)]
  = if decide (k' = k) then (if is_sent o then 1 else 0)%nat else 0%nat.
Proof.
  unfold sends_to.
  destruct (decide (k' = k)) as [->|Hne].
  - destruct (is_sent o) eqn:Ho.
    + rewrite filter_cons_True; [reflexivity|]. simpl. auto.
    + rewrite filter_cons_False; [reflexivity|]. simpl. intros [_ H]. congruence.
  - rewrite filter_cons_False; [reflexivity|]. simpl. tauto.
Qed.

Section NotifyFold.
Variable gg : Z -> option Guild.
Variable env : Z * Z -> attempt.
Variable today : date.

(** One round of the sweep, seen from the row of [k]. *)
Lemma notify_step (acc : list ((Z * Z) * outcome) * table)
    (k' : Z * Z) (b' : Birthday) (k : Z * Z) :
  (k' <> k ->
     snd (notify_round gg env today acc (k', b')) !! k = snd acc !! k
     /\ sends_to k (fst (notify_round gg env today acc (k', b')))
        = sends_to k (fst acc))
  /\ (k' = k ->
        if date_exists b' && delivers gg (env k) k
        then snd (notify_round gg env today acc (k', b')) !! k
             = notified_at (clock (env k)) (clock_update (env k)) <$> snd acc !! k
             /\ sends_to k (fst (notify_round gg env today acc (k', b')))
                = S (sends_to k (fst acc))
        else snd (notify_round gg env today acc (k', b')) !! k = snd acc !! k
             /\ sends_to k (fst (notify_round gg env today acc (k', b')))
                = sends_to k (fst acc)).
Proof.
  unfold notify_round. cbn [fst snd].
  destruct (date_exists b' && delivers gg (env k') k') eqn:Hd.
  - destruct (try_notify_sent gg (env k') k' b' today (snd acc) Hd)
      as (ch & e & ->).
    cbn [fst snd]. rewrite sends_to_app, sends_to_one. cbn [is_sent].
    split.
    + intros Hne. rewrite lookup_alter_ne, !decide_False by congruence.
      split; [reflexivity|lia].
    + intros ->. rewrite Hd.
      rewrite lookup_alter_eq, !decide_True by reflexivity.
      split; [reflexivity|lia].
  - destruct (try_notify_unsent gg (env k') k' b' today (snd acc) Hd)
      as (o & -> & Ho).
    cbn [fst snd]. rewrite sends_to_app, sends_to_one, Ho.
    split.
    + intros _. split; [reflexivity|]. destruct (decide (k' = k)); lia.
    + intros ->. rewrite Hd. split; [reflexivity|].
      destruct (decide (k = k)); lia.
Qed.

Lemma notify_fold (l : list ((Z * Z) * Birthday)) :
  NoDup l.*1 ->
  forall (acc : list ((Z * Z) * outcome) * table) (k : Z * Z),
    (k ∉ l.*1 ->
       snd (foldl (notify_round gg env today) acc l) !! k = snd acc !! k
       /\ sends_to k (fst (foldl (notify_round gg env today) acc l))
          = sends_to k (fst acc))
    /\ (forall b, (k, b) ∈ l ->
          if date_exists b && delivers gg (env k) k
          then snd (foldl (notify_round gg env today) acc l) !! k
               = notified_at (clock (env k)) (clock_update (env k))
                   <$> snd acc !! k
               /\ sends_to k (fst (foldl (notify_round gg env today) acc l))
                  = S (sends_to k (fst acc))
          else snd (foldl (notify_round gg env today) acc l) !! k
               = snd acc !! k
               /\ sends_to k (fst (foldl (notify_round gg env today) acc l))
                  = sends_to k (fst acc)).
Proof.
  induction l as [|[k' b'] l IH]; intros Hnd acc k.
  - split; [intros _; split; reflexivity|].
    intros b Hin. now apply elem_of_nil in Hin.
  - change (((k', b') :: l).*1) with (k' :: l.*1) in *.
    apply NoDup_cons in Hnd as [Hk' Hnd].
    change (foldl (notify_round gg env today) acc ((k', b') :: l))
      with (foldl (notify_round gg env today) (notify_round gg env today acc (k', b')) l).
    destruct (IH Hnd (notify_round gg env today acc (k', b')) k) as [IHout IHin].
    destruct (notify_step acc k' b' k) as [Sne Seq].
    split.
    + intros Hnin. apply not_elem_of_cons in Hnin as [Hne Hnin].
      destruct (IHout Hnin) as [-> ->]. apply Sne. congruence.
    + intros b Hin. apply elem_of_cons in Hin as [[= -> ->]|Hin].
      * destruct (IHout Hk') as [-> ->]. now apply Seq.
      * assert (Hne : k' <> k).
        { intros ->. apply Hk'. apply list_elem_of_fmap. now exists (k, b). }
        destruct (Sne Hne) as [Hl Hs]. specialize (IHin b Hin).
        destruct (date_exists b && delivers gg (env k) k);
          now rewrite <- Hl, <- Hs.
Qed.

(** The log of a fold lists the selected rows in their order, each with
    what its attempt reports. *)
Lemma notify_fold_log (l : list ((Z * Z) * Birthday)) :
  forall acc : list ((Z * Z) * outcome) * table,
    fst (foldl (notify_round gg env today) acc l)
    = fst acc
      ++ map (fun kb => (fst kb,
                         fst (try_notify gg (env (fst kb)) (fst kb) (snd kb)
                                today ∅))) l.
Proof.
  induction l as [|[k' b'] l IH]; intros acc.
  - cbn. now rewrite app_nil_r.
  - cbn [foldl map]. rewrite IH. unfold notify_round. cbn [fst snd].
    rewrite (surjective_pairing (try_notify gg (env k') k' b' today (snd acc))).
    cbn [fst]. rewrite try_notify_outcome, <- app_assoc. reflexivity.
Qed.

(** A whole sweep, seen from the row of [k]. *)
Lemma notify_sweep_row (db : table) (k : Z * Z) :
  let r := birthday_cron_notify gg env today db in
  match db !! k with
  | Some b =>
      if notified gg env today k b
      then snd r !! k
           = Some (notified_at (clock (env k)) (clock_update (env k)) b)
           /\ sends_to k (fst r) = 1%nat
      else snd r !! k = Some b /\ sends_to k (fst r) = 0%nat
  | None => snd r !! k = None /\ sends_to k (fst r) = 0%nat
  end.
Proof.
  intros r. subst r. unfold birthday_cron_notify, notified.
  destruct (notify_fold (select (notify_due today) db)
              (NoDup_select_keys _ db) ([], db) k) as [Hout Hin].
  cbn [fst snd] in Hout, Hin.
  destruct (db !! k) as [b|] eqn:Hk.
  - destruct (notify_due today b) eqn:Hdue; cbn [andb].
    + assert (Hsel : (k, b) ∈ select (notify_due today) db)
        by (apply elem_of_select; auto).
      specialize (Hin b Hsel).
      destruct (date_exists b && delivers gg (env k) k); exact Hin.
    + apply Hout. rewrite elem_of_select_keys.
      intros (b' & Hb' & Hp). congruence.
  - apply Hout. rewrite elem_of_select_keys.
    intros (b' & Hb' & _). congruence.
Qed.

(** The log of a sweep: one entry per row that is due, with what its
    attempt reports. *)
Lemma notify_sweep_log (db : table) (k : Z * Z) (o : outcome) :
  (k, o) ∈ fst (birthday_cron_notify gg env today db)
  <-> exists b, db !! k = Some b /\ notify_due today b = true
                /\ o = fst (try_notify gg (env k) k b today ∅).
Proof.
  unfold birthday_cron_notify. rewrite notify_fold_log. cbn [fst app].
  rewrite list_elem_of_fmap. split.
  - intros ([k' b] & [= -> ->] & Hin). apply elem_of_select in Hin as [Hk Hdue].
    eauto.
  - intros (b & Hk & Hdue & ->). exists (k, b). split; [reflexivity|].
    now apply elem_of_select.
Qed.
End NotifyFold.

(** A record already notified at or after today's midnight is not due. *)
Lemma notified_today_not_due (today : date) (b : Birthday) (t : datetime) :
  last_notified b = Some t -> datetime_at_midnight today <= t ->
  notify_due today b = false.
Proof.
  intros Hl Ht. unfold notify_due. rewrite Hl.
  assert ((t <? datetime_at_midnight today) = false) as -> by lia.
  now rewrite andb_false_r.
Qed.

Lemma not_due_not_selected (today : date) (db : table) (k : Z * Z) (b : Birthday) :
  db !! k = Some b -> notify_due today b = false ->
  k ∉ (select (notify_due today) db).*1.
Proof.
  intros Hk Hdue. rewrite elem_of_select_keys.
  intros (b' & Hb' & Hp). congruence.
Qed.

Lemma not_due_not_notified (gg : Z -> option Guild) (env : Z * Z -> attempt)
    (today : date) (k : Z * Z) (b : Birthday) :
  notify_due today b = false -> notified gg env today k b = false.
Proof. unfold notified. now intros ->. Qed.

(** Later sweeps of the same day leave such a record alone. *)
Lemma notify_runs_skip (gg : Z -> option Guild) (today : date) (k : Z * Z)
    (b : Birthday) (envs : list (Z * Z -> attempt)) :
  notify_due today b = false ->
  forall db : table,
    db !! k = Some b ->
    snd (notify_runs gg envs today db) !! k = Some b
    /\ sends_to k (fst (notify_runs gg envs today db)) = 0%nat.
Proof.
  intros Hdue. induction envs as [|env envs IH]; intros db Hk.
  - split; [exact Hk|reflexivity].
  - cbn [notify_runs].
    pose proof (notify_sweep_row gg env today db k) as Hrow.
    cbn zeta in Hrow.
    rewrite Hk, (not_due_not_notified gg env today k b Hdue) in Hrow.
    destruct (birthday_cron_notify gg env today db) as [log db1].
    cbn [fst snd] in Hrow. destruct Hrow as [Hk1 Hs1].
    specialize (IH db1 Hk1).
    destruct (notify_runs gg envs today db1) as [logs db2].
    cbn [fst snd] in *. rewrite sends_to_app. split; [tauto|lia].
Qed.

(** However many sweeps run on one day, and whichever of them is the first
    to get through, a record is sent at most one notification. *)
Lemma notify_runs_at_most_once (gg : Z -> option Guild) (today : date)
    (k : Z * Z) (envs : list (Z * Z -> attempt)) :
  Forall (fun env => datetime_at_midnight today <= clock (env k)) envs ->
  forall db : table,
    (sends_to k (fst (notify_runs gg envs today db)) <= 1)%nat.
Proof.
  induction envs as [|env envs IH]; intros Hclk db.
  - cbn. lia.
  - apply Forall_cons in Hclk as [Hnow Hclk]. cbn [notify_runs].
    pose proof (notify_sweep_row gg env today db k) as Hrow.
    cbn zeta in Hrow.
    pose proof (IH Hclk (snd (birthday_cron_notify gg env today db))) as Hrest.
    destruct (db !! k) as [b|] eqn:Hk.
    + destruct (notified gg env today k b) eqn:Hgo.
      * destruct Hrow as [Hk1 Hs1].
        destruct (notify_runs_skip gg today k
                    (notified_at (clock (env k)) (clock_update (env k)) b) envs
                    (notified_today_not_due today
                       (notified_at (clock (env k)) (clock_update (env k)) b)
                       (clock (env k)) eq_refl Hnow)
                    _ Hk1) as [_ Hzero].
        destruct (birthday_cron_notify gg env today db) as [log db1].
        cbn [fst snd] in *.
        destruct (notify_runs gg envs today db1) as [logs db2].
        cbn [fst snd] in *. rewrite sends_to_app. lia.
      * destruct Hrow as [_ Hs1].
        destruct (birthday_cron_notify gg env today db) as [log db1].
        cbn [fst snd] in *.
        destruct (notify_runs gg envs today db1) as [logs db2].
        cbn [fst snd] in *. rewrite sends_to_app. lia.
    + destruct Hrow as [_ Hs1].
      destruct (birthday_cron_notify gg env today db) as [log db1].
      cbn [fst snd] in *.
      destruct (notify_runs gg envs today db1) as [logs db2].
      cbn [fst snd] in *. rewrite sends_to_app. lia.
Qed.

(** C2. When a sweep sends for a record and writes [last_notified] with a
    clock reading at or after the day's midnight, the reading is what the
    table holds afterwards, and after any number of further sweeps on that
    calendar day the record is not selected and nothing more is sent for
    it: one notification for that day.  More generally, whichever sweep of
    a day is the first to get through, a record is sent at most one
    notification that day. *)
Theorem notify_once_per_day (gg : Z -> option Guild) (today : date)
    (env : Z * Z -> attempt) (db : table) (k : Z * Z)
    (Hclock : datetime_at_midnight today <= clock (env k))
    (Hsent : (0 < sends_to k (fst (birthday_cron_notify gg env today db)))%nat) :
  let db1 := snd (birthday_cron_notify gg env today db) in
  (exists b, db1 !! k = Some b /\ last_notified b = Some (clock (env k)))
  /\ (forall envs : list (Z * Z -> attempt),
        (k ∉ (select (notify_due today) (snd (notify_runs gg envs today db1))).*1)
        /\ sends_to k (fst (notify_runs gg envs today db1)) = 0%nat
        /\ sends_to k (fst (notify_runs gg (env :: envs) today db)) = 1%nat)
  /\ (forall (envs : list (Z * Z -> attempt)) (db0 : table),
        Forall (fun e => datetime_at_midnight today <= clock (e k)) envs ->
        (sends_to k (fst (notify_runs gg envs today db0)) <= 1)%nat).
Proof.
  intros db1.
  pose proof (notify_sweep_row gg env today db k) as Hrow. cbn zeta in Hrow.
  fold db1 in Hrow.
  destruct (db !! k) as [b|] eqn:Hk; [|destruct Hrow; lia].
  destruct (notified gg env today k b) eqn:Hgo; [|destruct Hrow; lia].
  destruct Hrow as [Hk1 Hs1].
  pose proof (notified_today_not_due today
                (notified_at (clock (env k)) (clock_update (env k)) b)
                (clock (env k)) eq_refl Hclock) as Hnd.
  split; [eauto|]. split.
  - intros envs.
    destruct (notify_runs_skip gg today k _ envs Hnd db1 Hk1) as [Hk2 Hzero].
    split; [now apply (not_due_not_selected today _ k _ Hk2)|].
    split; [exact Hzero|].
    cbn [notify_runs]. fold db1 in Hzero. revert Hs1 Hzero. subst db1.
    destruct (birthday_cron_notify gg env today db) as [log dbx].
    cbn [fst snd].
    destruct (notify_runs gg envs today dbx) as [logs db2].
    cbn [fst snd]. rewrite sends_to_app. lia.
  - intros envs db0 Hclk. now apply notify_runs_at_most_once.
Qed.

Lemma notify_once_per_day_witness :
  last_notified
    <$> snd (birthday_cron_notify sample_guild sample_env sample_today sample_db)
        !! (2, 1)
  = Some (Some sample_now)
  /\ sends_to (2, 1)
       (fst (notify_runs sample_guild [sample_env; sample_env; sample_env]
               sample_today sample_db)) = 1%nat.
Proof.
  destruct (notify_once_per_day sample_guild sample_today sample_env sample_db
              (2, 1)) as ((b & Hb & Hl) & Hlater & _).
  - vm_compute. discriminate.
  - vm_compute. lia.
  - split.
    + rewrite Hb. cbn. now rewrite Hl.
    + apply (Hlater [sample_env; sample_env]).
Defined.

(** ** The ordinal in the message of an attempt *)

Lemma resolve_parts (gg : Z -> option Guild) (pk : Z * Z) (guild : Guild)
    (channel : Z) (mention : string) :
  gg (snd pk) = Some guild -> system_channel guild = Some channel ->
  get_member guild (fst pk) = Some mention ->
  resolve gg pk = Some (channel, mention).
Proof.
  unfold resolve. intros -> Hc Hm. cbn [mbind option_bind].
  rewrite Hc. cbn [mbind option_bind]. now rewrite Hm.
Qed.

(** The message an attempt sends for a record of civil age 34. *)
Lemma try_notify_34th (gg : Z -> option Guild) (a : attempt) (pk : Z * Z)
    (b : Birthday) (today : date) (db : table) (channel : Z)
    (mention : string) (y : Z) :
  resolve gg pk = Some (channel, mention) -> send_ok a = true ->
  year b = Some y -> y <> 0 ->
  valid_date (Date y (month b) (day b)) = true ->
  relativedelta_years today (Date y (month b) (day b)) = 34 ->
  exists heading,
    In heading (headings_34th mention)
    /\ fst (try_notify gg a pk b today db)
       = Sent channel
           (Embed None
              ("**" +:+ heading +:+ "**" +:+ NEWLINE +:+ NEWLINE +:+ comment a)).
Proof.
  intros Hres Hsend Hy Hnz Hv Hage.
  exists (format_template (choice (heading_draw a) BIRTHDAY_MESSAGES)
            (ordinal 34 +:+ " ") mention).
  split.
  - pose proof (choice_heading (heading_draw a)) as Hin.
    destruct Hin as [<-|[<-|[<-|[<-|[]]]]]; simpl.
    + left; reflexivity.
    + right; left; reflexivity.
    + right; right; left; reflexivity.
    + right; right; right; left; reflexivity.
  - rewrite try_notify_cases, Hres. unfold embed_of, heading_of.
    rewrite (day_text_of_age b today y 34 Hy Hnz Hv Hage).
    cbn [mbind result_bind]. now rewrite Hsend.
Qed.

(** C8. For every non-negative age [n], [ordinal n] is the decimal numeral
    of [n] followed by the suffix of its last digit (1 -> st, 2 -> nd,
    3 -> rd, otherwise th); 11, 12 and 13 get no special treatment;
    [ordinal 34] is 34th.  An attempt that resolves its guild, system
    channel and member and whose send goes through, for a record that
    holds a date of the calendar and whose civil age is 34, sends one of
    the four headings with 34th in it, between the asterisks and in front
    of the comment drawn; and a sweep on the 34th anniversary of a record
    that is due logs such a message for it. *)
Theorem ordinal_by_last_digit (n : Z) (Hn : 0 <= n) :
  ordinal n = str_of_Z n +:+ spec_suffix (n mod 10)
  /\ int_digits (str_of_Z n) 0 = n
  /\ ordinal 11 = "11st" /\ ordinal 12 = "12nd" /\ ordinal 13 = "13rd"
  /\ ordinal 34 = "34th"
  /\ (forall (gg : Z -> option Guild) (a : attempt) (pk : Z * Z)
             (b : Birthday) (today : date) (db : table) (guild : Guild)
             (channel : Z) (mention : string) (y : Z),
        gg (snd pk) = Some guild -> system_channel guild = Some channel ->
        get_member guild (fst pk) = Some mention -> send_ok a = true ->
        year b = Some y -> y <> 0 ->
        valid_date (Date y (month b) (day b)) = true ->
        relativedelta_years today (Date y (month b) (day b)) = 34 ->
        exists heading,
          In heading (headings_34th mention)
          /\ fst (try_notify gg a pk b today db)
             = Sent channel
                 (Embed None
                    ("**" +:+ heading +:+ "**" +:+ NEWLINE +:+ NEWLINE
                     +:+ comment a)))
  /\ (forall (gg : Z -> option Guild) (env : Z * Z -> attempt) (today : date)
             (db : table) (k : Z * Z) (b : Birthday) (guild : Guild)
             (channel : Z) (mention : string),
        gg (snd k) = Some guild -> system_channel guild = Some channel ->
        get_member guild (fst k) = Some mention -> send_ok (env k) = true ->
        valid_date today = true ->
        db !! k = Some b -> notify_due today b = true ->
        year b = Some (d_year today - 34) ->
        valid_date (Date (d_year today - 34) (month b) (day b)) = true ->
        exists heading,
          In heading (headings_34th mention)
          /\ (k, Sent channel
                   (Embed None
                      ("**" +:+ heading +:+ "**" +:+ NEWLINE +:+ NEWLINE
                       +:+ comment (env k))))
             ∈ fst (birthday_cron_notify gg env today db)).
Proof.
  split; [unfold ordinal; now rewrite ordinal_suffix_table|].
  split; [now apply str_of_Z_numeral|].
  do 4 (split; [reflexivity|]).
  split.
  - intros gg a pk b today db guild channel mention y Hg Hc Hm Hsend Hy Hnz
      Hv Hage.
    apply (try_notify_34th gg a pk b today db channel mention y);
      try assumption.
    now apply (resolve_parts gg pk guild).
  - intros gg env today db k b guild channel mention Hg Hc Hm Hsend Ht Hk Hdue
      Hy Hv.
    assert (Hyear : 1 <= d_year today - 34).
    { unfold valid_date, MINYEAR in Hv. cbn [d_year] in Hv.
      rewrite !andb_true_iff, !Z.leb_le in Hv. tauto. }
    assert (Hage : relativedelta_years today
                     (Date (d_year today - 34) (month b) (day b)) = 34).
    { apply notify_due_same_day in Hdue as (_ & -> & ->).
      rewrite relativedelta_years_anniversary by (assumption || lia). lia. }
    destruct (try_notify_34th gg (env k) k b today ∅ channel mention
                (d_year today - 34)) as (heading & Hin & Hsent);
      try assumption; [now apply (resolve_parts gg k guild)|lia|].
    exists heading. split; [exact Hin|].
    apply notify_sweep_log. exists b. now rewrite Hsent.
Qed.

Lemma ordinal_by_last_digit_witness :
  ordinal 34 = "34th"
  /\ (exists heading,
        In heading (headings_34th "<@member>")
        /\ fst (try_notify sample_guild
                  (mkAttempt 1 "Feeling old yet?" true sample_now sample_now)
                  (1, 1) (mkBirthday (Some 1990) 5 17 None true 0 0)
                  (Date 2024 5 17) ∅)
           = Sent 77
               (Embed None
                  ("**" +:+ heading +:+ "**" +:+ NEWLINE +:+ NEWLINE
                   +:+ "Feeling old yet?")))
  /\ (exists heading,
        In heading (headings_34th "<@member>")
        /\ ((1, 1),
            Sent 77
              (Embed None
                 ("**" +:+ heading +:+ "**" +:+ NEWLINE +:+ NEWLINE
                  +:+ "Feeling old yet?")))
           ∈ fst (birthday_cron_notify sample_guild sample_env (Date 2024 5 17)
                    (<[(1, 1) := mkBirthday (Some 1990) 5 17 None true 0 0]> ∅))).
Proof.
  destruct (ordinal_by_last_digit 34 ltac:(lia))
    as (_ & _ & _ & _ & _ & H & Hage & Hdue).
  split; [exact H|]. split.
  - exact (Hage sample_guild
             (mkAttempt 1 "Feeling old yet?" true sample_now sample_now)
             (1, 1) (mkBirthday (Some 1990) 5 17 None true 0 0)
             (Date 2024 5 17) ∅
             (mkGuild (Some 77) (fun user_id => Some "<@member>")) 77
             "<@member>" 1990
             eq_refl eq_refl eq_refl eq_refl eq_refl ltac:(lia) eq_refl
             eq_refl).
  - exact (Hdue sample_guild sample_env (Date 2024 5 17)
             (<[(1, 1) := mkBirthday (Some 1990) 5 17 None true 0 0]> ∅)
             (1, 1) (mkBirthday (Some 1990) 5 17 None true 0 0)
             (mkGuild (Some 77) (fun user_id => Some "<@member>")) 77
             "<@member>"
             eq_refl eq_refl eq_refl eq_refl eq_refl eq_refl eq_refl eq_refl
             eq_refl).
Defined.

(** ** The date parser on fixed inputs *)

Lemma valid_date_year (d : date) :
  valid_date d = true -> 1 <= d_year d <= 9999.
Proof.
  unfold valid_date, MINYEAR, MAXYEAR. rewrite !andb_true_iff. lia.
Qed.

(** C9 (the code against the claim). 2000-02-30 matches the ISO pattern,
    and [strptime] then raises the built-in [ValueError] for the day out
    of range; this is not a [BirthdayParseError], the [except] clause of
    the [birthday] command does not catch it, and the command ends with
    that exception instead of an error reply. *)
Theorem parse_invalid_day_escapes (today : date) (user_id guild_id : Z)
    (defaults : datetime * datetime) (now : datetime) (db : table) :
  first_match PATTERNS_DATE (strip "2000-02-30") = Some ("2000-02-30", "%Y-%m-%d")
  /\ strptime "2000-02-30" "%Y-%m-%d" = Raise ValueError
  /\ parse_date today "2000-02-30" = Raise ValueError
  /\ isinstance ValueError CBirthdayParseError = false
  /\ birthday user_id guild_id (Some "2000-02-30") today defaults now db
     = (db, Raise ValueError).
Proof.
  split; [reflexivity|]. split; [reflexivity|].
  assert (Hp : parse_date today "2000-02-30" = Raise ValueError) by reflexivity.
  split; [exact Hp|]. split; [reflexivity|].
  unfold birthday. now rewrite Hp.
Qed.

(** ** The matcher *)

(** Whatever a match returns was returned by the rest of the pattern. *)
Lemma plus_match_result {A : Type} (p : ascii -> bool) (s : string)
    (k : string -> option A) (x : A) :
  plus_match p s k = Some x -> exists s', k s' = Some x.
Proof.
  induction s as [|c s IH]; simpl; [discriminate|].
  destruct (p c); [|discriminate].
  destruct (plus_match p s k) as [y|] eqn:E.
  - intros [= ->]. now apply IH.
  - eauto.
Qed.

Lemma rmatch_result {A : Type} (r : regex) :
  forall (s : string) (g : groups) (k : string -> groups -> option A) (x : A),
    rmatch r s g k = Some x -> exists s' g', k s' g' = Some x.
Proof.
  induction r as [|p|r1 IH1 r2 IH2|r1 IH1 r2 IH2|r1 IH1|p|name r1 IH1];
    intros s g k x; simpl.
  - eauto.
  - destruct s as [|c s]; [discriminate|]. destruct (p c); [eauto|discriminate].
  - intros H. apply IH1 in H as (s1 & g1 & H). now apply IH2 in H.
  - destruct (rmatch r1 s g k) as [y|] eqn:E.
    + intros [= ->]. now apply IH1 in E.
    + apply IH2.
  - destruct (rmatch r1 s g k) as [y|] eqn:E.
    + intros [= ->]. now apply IH1 in E.
    + eauto.
  - intros H. apply plus_match_result in H as (s' & H). eauto.
  - intros H. apply IH1 in H as (s' & g' & H). eauto.
Qed.

(** A match of a pattern wrapped in the group [date] has that group. *)
Lemma re_match_date_group (r : regex) (s : string) (m : match_obj) :
  re_match (Grp "date" r) s = Some m ->
  exists v, group "date" (m_groups m) = Some v.
Proof.
  unfold re_match. cbn [rmatch]. intros H.
  apply rmatch_result in H as (s' & g' & [= <-]). simpl. eauto.
Qed.

(** If a pattern matches with one continuation, it matches with any
    continuation that succeeds wherever the first one does. *)
Lemma plus_match_mono {A B : Type} (p : ascii -> bool) (s : string)
    (k1 : string -> option A) (k2 : string -> option B) :
  (forall s', is_Some (k1 s') -> is_Some (k2 s')) ->
  is_Some (plus_match p s k1) -> is_Some (plus_match p s k2).
Proof.
  intros Hk. induction s as [|c s IH]; simpl; [intros [x [=]]|].
  destruct (p c); [|intros [x [=]]].
  destruct (plus_match p s k1) as [y|].
  - intros _. destruct IH as [z ->]; eauto.
  - intros H. apply Hk in H. destruct (plus_match p s k2); eauto.
Qed.

Lemma rmatch_mono {A B : Type} (r : regex) :
  forall (s : string) (g1 g2 : groups)
         (k1 : string -> groups -> option A) (k2 : string -> groups -> option B),
    (forall s' g1' g2', is_Some (k1 s' g1') -> is_Some (k2 s' g2')) ->
    is_Some (rmatch r s g1 k1) -> is_Some (rmatch r s g2 k2).
Proof.
  induction r as [|p|r1 IH1 r2 IH2|r1 IH1 r2 IH2|r1 IH1|p|name r1 IH1];
    intros s g1 g2 k1 k2 Hk; simpl.
  - apply Hk.
  - destruct s as [|c s]; [intros [x [=]]|].
    destruct (p c); [apply Hk|intros [x [=]]].
  - apply IH1. intros s' g1' g2'. now apply IH2.
  - destruct (rmatch r1 s g1 k1) as [y|] eqn:E1.
    + intros _.
      destruct (IH1 s g1 g2 k1 k2 Hk) as [z ->]; [rewrite E1|]; eauto.
    + intros H. apply (IH2 s g1 g2 k1 k2 Hk) in H.
      destruct (rmatch r1 s g2 k2); eauto.
  - destruct (rmatch r1 s g1 k1) as [y|] eqn:E1.
    + intros _.
      destruct (IH1 s g1 g2 k1 k2 Hk) as [z ->]; [rewrite E1|]; eauto.
    + intros H. apply (Hk s g1 g2) in H.
      destruct (rmatch r1 s g2 k2); eauto.
  - apply plus_match_mono. intros s'. apply Hk.
  - apply IH1. intros s' g1' g2'. apply Hk.
Qed.

(** Wherever the rule with the trailing dot matches, the rule before it,
    without the dot, matches too. *)
Lemma dm_dot_needs_dm (text : string) :
  is_Some (re_match P_dm_dot text) -> is_Some (re_match P_dm text).
Proof.
  unfold re_match, P_dm_dot, P_dm. cbn [rmatch].
  apply rmatch_mono. intros s1 g1 g1'.
  apply rmatch_mono. intros s2 g2 g2'.
  apply rmatch_mono. intros s3 g3 g3' _. eauto.
Qed.

Lemma first_match_cons (r : regex) (fmt : string)
    (rest : list (regex * string)) (text : string) :
  first_match ((Grp "date" r, fmt) :: rest) text
  = match re_match (Grp "date" r) text with
    | Some m => Some (default EmptyString (group "date" (m_groups m)), fmt)
    | None => first_match rest text
    end.
Proof.
  cbn [first_match].
  destruct (re_match (Grp "date" r) text) as [m|] eqn:E; [|reflexivity].
  apply re_match_date_group in E as [v ->]. reflexivity.
Qed.

(** C10. The patterns are anchored at the start of the trimmed input only:
    14.02.1990 followed by other text parses as 14.02.1990 does, the text
    after the match being ignored; 14.02. is taken by the rule without the
    trailing dot, which leaves the dot unread; and for no input at all is
    the rule with the trailing dot the first to match. *)
Theorem parse_ignores_trailing_text (text : string) :
  (forall today : date,
     parse_date today "14.02.1990 extra" = parse_date today "14.02.1990")
  /\ parse_date sample_today "14.02.1990 extra" = Ok (Some 1990, 2, 14)
  /\ first_match PATTERNS_DATE "14.02.1990 extra"
     = Some ("14.02.1990", "%d.%m.%Y")
  /\ first_match PATTERNS_DATE "14.02." = Some ("14.02", "%d.%m")
  /\ parse_date sample_today "14.02." = Ok (None, 2, 14)
  /\ forall matched : string,
       first_match PATTERNS_DATE text <> Some (matched, "%d.%m.").
Proof.
  split; [intros today; reflexivity|].
  split; [reflexivity|]. split; [reflexivity|]. split; [reflexivity|].
  split; [reflexivity|].
  intros matched. unfold PATTERNS_DATE.
  unfold P_Ymd, P_ymd, P_md, P_dmY, P_dmy, P_mdY_slash, P_mdy_slash, P_md_slash.
  pose proof (dm_dot_needs_dm text) as Hdot.
  unfold P_dm, P_dm_dot in *.
  rewrite !first_match_cons.
  repeat match goal with
         | |- context [re_match ?r text] =>
             let E := fresh "E" in
             destruct (re_match r text) as [?|] eqn:E;
             [try discriminate|]
         end.
  - exfalso. destruct Hdot as [? [=]]. eauto.
  - discriminate.
Qed.

(** ** Prefixes, reversal and [strip] *)

Lemma append_nil_l (s : string) : EmptyString +:+ s = s.
Proof. reflexivity. Qed.

Lemma append_cons (c : ascii) (a b : string) :
  String c a +:+ b = String c (a +:+ b).
Proof. reflexivity. Qed.

Lemma length_append (p r : string) :
  String.length (p +:+ r) = (String.length p + String.length r)%nat.
Proof.
  induction p as [|c p IH]; [reflexivity|].
  rewrite append_cons. simpl. now rewrite IH.
Qed.

Lemma take_string_append (p r : string) :
  take_string (String.length p) (p +:+ r) = p.
Proof.
  induction p as [|c p IH]; [reflexivity|].
  rewrite append_cons. simpl. now rewrite IH.
Qed.

Lemma take_prefix (p r : string) :
  take_string (String.length (p +:+ r) - String.length r) (p +:+ r) = p.
Proof.
  rewrite length_append.
  replace (String.length p + String.length r - String.length r)%nat
    with (String.length p) by lia.
  apply take_string_append.
Qed.

Lemma append_assoc (a b c : string) : (a +:+ b) +:+ c = a +:+ (b +:+ c).
Proof.
  induction a as [|x a IH]; [reflexivity|].
  rewrite !append_cons. now rewrite IH.
Qed.

Lemma append_empty_r (a : string) : a +:+ EmptyString = a.
Proof.
  induction a as [|x a IH]; [reflexivity|].
  rewrite append_cons. now rewrite IH.
Qed.

Lemma rev_string_spec (s acc : string) :
  rev_string s acc = rev_string s EmptyString +:+ acc.
Proof.
  revert acc. induction s as [|c s IH]; intros acc; [reflexivity|].
  cbn [rev_string].
  rewrite (IH (String c acc)), (IH (String c EmptyString)), append_assoc.
  reflexivity.
Qed.

Lemma rev_string_append (a b : string) :
  rev_string (a +:+ b) EmptyString
  = rev_string b EmptyString +:+ rev_string a EmptyString.
Proof.
  induction a as [|c a IH].
  - rewrite append_nil_l. cbn [rev_string]. now rewrite append_empty_r.
  - rewrite append_cons. cbn [rev_string].
    rewrite (rev_string_spec (a +:+ b) (String c EmptyString)), IH,
      (rev_string_spec a (String c EmptyString)).
    now rewrite append_assoc.
Qed.

Lemma rev_string_involutive (s : string) :
  rev_string (rev_string s EmptyString) EmptyString = s.
Proof.
  induction s as [|c s IH]; [reflexivity|].
  cbn [rev_string].
  rewrite (rev_string_spec s (String c EmptyString)), rev_string_append, IH.
  reflexivity.
Qed.

(** Text that neither starts nor ends with a blank is left as it is. *)
Lemma strip_no_blanks (a z : ascii) (middle : string) :
  is_space a = false -> is_space z = false ->
  strip (String a (middle +:+ String z EmptyString))
  = String a (middle +:+ String z EmptyString).
Proof.
  intros Ha Hz. unfold strip.
  assert (Hl : lstrip (String a (middle +:+ String z EmptyString))
               = String a (middle +:+ String z EmptyString))
    by (cbn [lstrip]; now rewrite Ha).
  rewrite Hl, <- append_cons, rev_string_append.
  change (rev_string (String z EmptyString) EmptyString +:+
          rev_string (String a middle) EmptyString)
    with (String z (rev_string (String a middle) EmptyString)).
  cbn [lstrip]. rewrite Hz.
  change (String z (rev_string (String a middle) EmptyString))
    with (String z EmptyString +:+ rev_string (String a middle) EmptyString).
  rewrite rev_string_append, rev_string_involutive. reflexivity.
Qed.

(** ** The matcher on numerals *)

Ltac enum_Z d lo n :=
  lazymatch n with
  | O => exfalso; lia
  | S ?n' =>
      destruct (Z.eq_dec d lo) as [->|?];
      [|let lo' := eval compute in (lo + 1) in enum_Z d lo' n']
  end.

(** Evaluate the matcher on a numeral that is known, in front of text and
    a rest of the pattern that are not. *)
Ltac run_matcher HK :=
  vm_compute; rewrite HK; reflexivity.

Lemma day_alts_ok {A : Type} (d : Z) (r : string) (g : groups)
    (K : string -> groups -> option A) (x : A) :
  1 <= d <= 31 -> K r g = Some x ->
  rmatch day_alts (two_digits d +:+ r) g K = Some x.
Proof. intros Hd HK. enum_Z d 1 31%nat; run_matcher HK. Qed.

Lemma month_alts_ok {A : Type} (m : Z) (r : string) (g : groups)
    (K : string -> groups -> option A) (x : A) :
  1 <= m <= 12 -> K r g = Some x ->
  rmatch month_alts (two_digits m +:+ r) g K = Some x.
Proof. intros Hm HK. enum_Z m 1 12%nat; run_matcher HK. Qed.

Lemma dd_ok {A : Type} (d : Z) (r : string) (g : groups)
    (K : string -> groups -> option A) (x : A) :
  1 <= d <= 31 -> K r g = Some x ->
  rmatch dd (two_digits d +:+ r) g K = Some x.
Proof. intros Hd HK. enum_Z d 1 31%nat; run_matcher HK. Qed.

Lemma mm_ok {A : Type} (m : Z) (r : string) (g : groups)
    (K : string -> groups -> option A) (x : A) :
  1 <= m <= 12 -> K r g = Some x ->
  rmatch mm (two_digits m +:+ r) g K = Some x.
Proof. intros Hm HK. enum_Z m 1 12%nat; run_matcher HK. Qed.

Lemma lit_ok {A : Type} (c : ascii) (r : string) (g : groups)
    (K : string -> groups -> option A) :
  rmatch (lit c) (String c r) g K = K r g.
Proof. cbn [rmatch lit]. unfold is_char. now rewrite Ascii.eqb_refl. Qed.

Lemma is_digit_digit_char (k : Z) : 0 <= k <= 9 -> is_digit (digit_char k) = true.
Proof. intros Hk. now apply digit_char_facts. Qed.

Lemma is_space_digit_char (k : Z) : 0 <= k <= 9 -> is_space (digit_char k) = false.
Proof. intros Hk. now apply digit_char_facts. Qed.

Lemma d4_ok {A : Type} (y : Z) (r : string) (g : groups)
    (K : string -> groups -> option A) :
  0 <= y <= 9999 ->
  rmatch d4 (four_digits y +:+ r) g K = K r g.
Proof.
  intros Hy. unfold four_digits, d4, dig. rewrite !append_cons, append_nil_l.
  cbn [rmatch].
  rewrite !is_digit_digit_char by (Z.div_mod_to_equations; lia). reflexivity.
Qed.

(** A group around a pattern that takes exactly the prefix [p] records
    [p]. *)
Lemma grp_ok {A : Type} (name : string) (body : regex) (p r : string)
    (g : groups) (K : string -> groups -> option A) (x : A) :
  (forall K' : string -> groups -> option A,
     K' r g = Some x -> rmatch body (p +:+ r) g K' = Some x) ->
  K r ((name, p) :: g) = Some x ->
  rmatch (Grp name body) (p +:+ r) g K = Some x.
Proof.
  intros Hbody HK. cbn [rmatch]. apply Hbody. now rewrite take_prefix.
Qed.

(** ** [strptime] on what [__str__] writes *)

Lemma plus_space_ok {A : Type} (y : Z) (r : string) (k : string -> option A) :
  0 <= y <= 9999 ->
  plus_match is_space (String " " (four_digits y +:+ r)) k
  = k (four_digits y +:+ r).
Proof.
  intros Hy. unfold four_digits. rewrite !append_cons.
  cbn [plus_match].
  rewrite is_space_digit_char by (Z.div_mod_to_equations; lia).
  reflexivity.
Qed.

Lemma groups_dmY (y m d : Z) :
  0 <= y <= 9999 -> 0 <= m <= 99 -> 0 <= d <= 99 ->
  let g := [("Y", four_digits y); ("m", two_digits m); ("d", two_digits d)] in
  year_of_groups g = y /\ month_of_groups g = m /\ day_of_groups g = d.
Proof.
  intros Hy Hm Hd g. subst g.
  unfold year_of_groups, month_of_groups, day_of_groups.
  cbn [group String.eqb Ascii.eqb Bool.eqb].
  rewrite py_int_four_digits, !py_int_two_digits by assumption. auto.
Qed.

Lemma strptime_dmY (y m d : Z) :
  1 <= d <= 31 -> 1 <= m <= 12 -> 0 <= y <= 9999 ->
  strptime (two_digits d +:+ "." +:+ two_digits m +:+ "." +:+ four_digits y)
    "%d.%m.%Y"
  = mk_date y m d.
Proof.
  intros Hd Hm Hy.
  set (s := two_digits d +:+ "." +:+ two_digits m +:+ "." +:+ four_digits y).
  assert (Hmatch :
    re_match (Seq RE_d (Seq (lit ".") (Seq RE_m (Seq (lit ".") (Seq RE_Y Eps))))) s
    = Some (MatchObj (String.length s)
              [("Y", four_digits y); ("m", two_digits m); ("d", two_digits d)])).
  { unfold re_match. subst s. cbn [rmatch].
    rewrite <- (append_empty_r (four_digits y)) at 1.
    unfold RE_d. eapply grp_ok; [intros K' HK'; now apply day_alts_ok|].
    rewrite append_cons, append_nil_l, lit_ok.
    unfold RE_m. eapply grp_ok; [intros K' HK'; now apply month_alts_ok|].
    rewrite append_cons, append_nil_l, lit_ok.
    unfold RE_Y. eapply grp_ok; [intros K' HK'; now rewrite (d4_ok y)|].
    cbn [rmatch String.length]. now rewrite Nat.sub_0_r. }
  unfold strptime.
  change (format_regex "%d.%m.%Y" false)
    with (Some (Seq RE_d (Seq (lit ".") (Seq RE_m (Seq (lit ".") (Seq RE_Y Eps)))))).
  cbv beta iota. rewrite Hmatch. cbn [m_end m_groups].
  rewrite Nat.eqb_refl. cbn [negb].
  destruct (groups_dmY y m d) as (-> & -> & ->); (lia || reflexivity).
Qed.

Lemma strptime_dm_Y (y m d : Z) :
  1 <= d <= 31 -> 1 <= m <= 12 -> 0 <= y <= 9999 ->
  strptime ((two_digits d +:+ "." +:+ two_digits m) +:+ " " +:+ four_digits y)
    "%d.%m %Y"
  = mk_date y m d.
Proof.
  intros Hd Hm Hy.
  set (s := (two_digits d +:+ "." +:+ two_digits m) +:+ " " +:+ four_digits y).
  assert (Hmatch :
    re_match (Seq RE_d (Seq (lit ".") (Seq RE_m (Seq (Plus is_space) (Seq RE_Y Eps))))) s
    = Some (MatchObj (String.length s)
              [("Y", four_digits y); ("m", two_digits m); ("d", two_digits d)])).
  { unfold re_match. subst s. rewrite !append_assoc. cbn [rmatch].
    rewrite <- (append_empty_r (four_digits y)) at 1.
    unfold RE_d. eapply grp_ok; [intros K' HK'; now apply day_alts_ok|].
    rewrite append_cons, append_nil_l, lit_ok.
    unfold RE_m. eapply grp_ok; [intros K' HK'; now apply month_alts_ok|].
    rewrite append_cons, append_nil_l. cbn [rmatch].
    rewrite plus_space_ok by exact Hy.
    unfold RE_Y. eapply grp_ok; [intros K' HK'; now rewrite (d4_ok y)|].
    cbn [rmatch String.length]. now rewrite Nat.sub_0_r. }
  unfold strptime.
  change (format_regex "%d.%m %Y" false)
    with (Some (Seq RE_d (Seq (lit ".") (Seq RE_m
                 (Seq (Plus is_space) (Seq RE_Y Eps)))))).
  cbv beta iota. rewrite Hmatch. cbn [m_end m_groups].
  rewrite Nat.eqb_refl. cbn [negb].
  destruct (groups_dmY y m d) as (-> & -> & ->); (lia || reflexivity).
Qed.

(** ** The patterns on what [__str__] writes *)

Lemma early_patterns_fail (d : Z) (rest : string) :
  1 <= d <= 31 ->
  re_match P_Ymd (two_digits d +:+ "." +:+ rest) = None
  /\ re_match P_ymd (two_digits d +:+ "." +:+ rest) = None
  /\ re_match P_md (two_digits d +:+ "." +:+ rest) = None.
Proof. intros Hd. enum_Z d 1 31%nat; vm_compute; auto. Qed.

Lemma re_match_whole (name : string) (body : regex) (p : string) :
  (forall K' : string -> groups -> option match_obj,
     K' EmptyString [] = Some (MatchObj (String.length p) [(name, p)]) ->
     rmatch body (p +:+ EmptyString) [] K'
     = Some (MatchObj (String.length p) [(name, p)])) ->
  re_match (Grp name body) p = Some (MatchObj (String.length p) [(name, p)]).
Proof.
  intros Hbody. unfold re_match. cbn [rmatch].
  specialize (Hbody
    (fun s' g' =>
       Some (MatchObj (String.length p - String.length s')
               ((name, take_string (String.length p - String.length s') p) :: g')))).
  rewrite append_empty_r in Hbody. apply Hbody.
  cbn [String.length]. rewrite Nat.sub_0_r.
  rewrite <- (append_empty_r p) at 3. now rewrite take_string_append.
Qed.

Lemma P_dmY_matches (y m d : Z) :
  1 <= d <= 31 -> 1 <= m <= 12 -> 0 <= y <= 9999 ->
  let s := two_digits d +:+ "." +:+ two_digits m +:+ "." +:+ four_digits y in
  re_match P_dmY s = Some (MatchObj (String.length s) [("date", s)]).
Proof.
  intros Hd Hm Hy s. subst s. unfold P_dmY. apply re_match_whole.
  intros K' HK'. rewrite !append_assoc. cbn [rmatch].
  apply dd_ok; [exact Hd|]. rewrite append_cons, append_nil_l, lit_ok.
  apply mm_ok; [exact Hm|]. rewrite append_cons, append_nil_l, lit_ok.
  rewrite d4_ok by exact Hy. exact HK'.
Qed.

Lemma first_match_dmY (y m d : Z) :
  1 <= d <= 31 -> 1 <= m <= 12 -> 0 <= y <= 9999 ->
  let s := two_digits d +:+ "." +:+ two_digits m +:+ "." +:+ four_digits y in
  first_match PATTERNS_DATE s = Some (s, "%d.%m.%Y").
Proof.
  intros Hd Hm Hy s.
  destruct (early_patterns_fail d (two_digits m +:+ "." +:+ four_digits y) Hd)
    as (H1 & H2 & H3).
  pose proof (P_dmY_matches y m d Hd Hm Hy) as H4. cbn zeta in H4.
  fold s in H1, H2, H3, H4.
  unfold PATTERNS_DATE. cbn [first_match].
  rewrite H1, H2, H3, H4. reflexivity.
Qed.

Lemma strip_dmY (y m d : Z) :
  0 <= d <= 99 -> 0 <= y <= 9999 ->
  let s := two_digits d +:+ "." +:+ two_digits m +:+ "." +:+ four_digits y in
  strip s = s.
Proof.
  intros Hd Hy s.
  assert (Hs : s = String (digit_char (d / 10))
                 ((String (digit_char (d mod 10))
                     ("." +:+ two_digits m +:+ "." +:+
                      String (digit_char (y / 1000))
                        (String (digit_char (y / 100 mod 10))
                           (String (digit_char (y / 10 mod 10)) EmptyString))))
                  +:+ String (digit_char (y mod 10)) EmptyString)).
  { subst s. unfold two_digits at 1, four_digits.
    rewrite !append_cons, append_nil_l. rewrite !append_assoc.
    rewrite !append_cons, !append_nil_l. reflexivity. }
  rewrite Hs.
  apply strip_no_blanks; apply is_space_digit_char; Z.div_mod_to_equations; lia.
Qed.

Lemma yearless_text_checked :
  forallb (fun d => forallb (fun m => yearless_text_check d m) (Z_range 1 12))
    (Z_range 1 31) = true.
Proof. vm_compute. reflexivity. Qed.

Lemma yearless_text (d m : Z) :
  1 <= d <= 31 -> 1 <= m <= 12 ->
  let s := two_digits d +:+ "." +:+ two_digits m +:+ "." in
  strip s = s
  /\ first_match PATTERNS_DATE s
     = Some (two_digits d +:+ "." +:+ two_digits m, "%d.%m").
Proof.
  intros Hd Hm s.
  pose proof (Z_range_forallb _ _ _ yearless_text_checked d Hd) as H.
  cbv beta in H.
  pose proof (Z_range_forallb _ _ _ H m Hm) as H'. cbv beta in H'.
  unfold yearless_text_check in H'. cbn zeta in H'. fold s in H'.
  apply andb_true_iff in H' as [Hs Hf]. apply String.eqb_eq in Hs.
  split; [exact Hs|].
  destruct (first_match PATTERNS_DATE s) as [[matched fmt]|]; [|discriminate].
  apply andb_true_iff in Hf as [Ha Hb].
  apply String.eqb_eq in Ha, Hb. now subst.
Qed.

(** ** Rendering a record and parsing it back *)

Lemma valid_date_bounds (y m d : Z) :
  valid_date (Date y m d) = true ->
  1 <= y <= 9999 /\ 1 <= m <= 12 /\ 1 <= d <= 31.
Proof.
  unfold valid_date, MINYEAR, MAXYEAR, days_in_month. cbn [d_year d_month d_day].
  rewrite !andb_true_iff, !Z.leb_le.
  intros (((((H1 & H2) & H3) & H4) & H5) & H6).
  repeat split; try assumption.
  destruct (m =? 2); [destruct (is_leap y); lia|].
  destruct ((m =? 4) || (m =? 6) || (m =? 9) || (m =? 11)); lia.
Qed.

Lemma parse_rendered_with_year (today : date) (y m d : Z) :
  valid_date (Date y m d) = true ->
  date_gt (Date y m d) today = false ->
  parse_date today
    (two_digits d +:+ "." +:+ two_digits m +:+ "." +:+ four_digits y)
  = Ok (Some y, m, d).
Proof.
  intros Hv Hgt. destruct (valid_date_bounds y m d Hv) as (Hy & Hm & Hd).
  unfold parse_date.
  rewrite strip_dmY by lia. rewrite first_match_dmY by lia.
  change (negb (contains "%y" "%d.%m.%Y") && negb (contains "%Y" "%d.%m.%Y"))
    with false.
  cbv beta iota. rewrite strptime_dmY by lia.
  unfold mk_date. rewrite Hv. cbn. now rewrite Hgt.
Qed.

Lemma parse_rendered_without_year (today : date) (m d : Z) :
  1000 <= d_year today ->
  valid_date (Date (d_year today) m d) = true ->
  parse_date today (two_digits d +:+ "." +:+ two_digits m +:+ ".")
  = Ok (None, m, d).
Proof.
  intros H1000 Hv.
  destruct (valid_date_bounds _ m d Hv) as (Hy & Hm & Hd).
  destruct (yearless_text d m Hd Hm) as [Hs Hf].
  unfold parse_date. rewrite Hs, Hf.
  change (negb (contains "%y" "%d.%m") && negb (contains "%Y" "%d.%m"))
    with true.
  cbv beta iota zeta.
  assert (Hnow : strftime today " %Y" = " " +:+ four_digits (d_year today)).
  { cbn [strftime]. rewrite str_of_Z_four_digits by lia.
    now rewrite append_empty_r. }
  rewrite Hnow.
  change ("%d.%m" +:+ " %Y") with "%d.%m %Y".
  rewrite strptime_dm_Y by lia.
  unfold mk_date. rewrite Hv. reflexivity.
Qed.

(** C7 (as the code has it). A record with a four-digit year and a valid
    date not after today is written [dd.mm.yyyy] and parses back to its
    year, month and day; a record without a year is written [dd.mm.], and
    when the clock shows a four-digit year in which its month and day
    exist, that text parses back to no year, its month and its day. *)
Theorem str_then_parse (today : date) (b : Birthday) :
  (forall y : Z,
     year b = Some y -> 1000 <= y ->
     valid_date (Date y (month b) (day b)) = true ->
     date_gt (Date y (month b) (day b)) today = false ->
     Birthday_str b
     = Ok (two_digits (day b) +:+ "." +:+ two_digits (month b) +:+ "."
           +:+ four_digits y)
     /\ parse_date today
          (two_digits (day b) +:+ "." +:+ two_digits (month b) +:+ "."
           +:+ four_digits y)
        = Ok (Some y, month b, day b))
  /\ (year b = None ->
      1000 <= d_year today ->
      valid_date (Date (d_year today) (month b) (day b)) = true ->
      Birthday_str b
      = Ok (two_digits (day b) +:+ "." +:+ two_digits (month b) +:+ ".")
      /\ parse_date today
           (two_digits (day b) +:+ "." +:+ two_digits (month b) +:+ ".")
         = Ok (None, month b, day b)).
Proof.
  split.
  - intros y Hy H1000 Hv Hgt.
    destruct (valid_date_bounds _ _ _ Hv) as (Hyr & Hm & Hd).
    split; [|now apply parse_rendered_with_year].
    unfold Birthday_str. rewrite Hy.
    destruct (Z.eqb_spec y 0) as [->|_]; [lia|].
    unfold mk_date. rewrite Hv. cbn [mbind result_bind strftime d_day d_month d_year].
    rewrite !format_two_digits, str_of_Z_four_digits by lia.
    now rewrite append_empty_r.
  - intros Hy H1000 Hv.
    destruct (valid_date_bounds _ _ _ Hv) as (Hyr & Hm & Hd).
    split; [|now apply parse_rendered_without_year].
    unfold Birthday_str. rewrite Hy.
    now rewrite !format_two_digits by lia.
Qed.

Lemma str_then_parse_witness :
  parse_date sample_today "14.02.1990" = Ok (Some 1990, 2, 14)
  /\ Birthday_str (mkBirthday None 2 14 None true 0 0) = Ok "14.02."
  /\ parse_date sample_today "14.02." = Ok (None, 2, 14).
Proof.
  destruct (str_then_parse sample_today (mkBirthday (Some 1990) 2 14 None true 0 0))
    as [Hwith _].
  destruct (str_then_parse sample_today (mkBirthday None 2 14 None true 0 0))
    as [_ Hwithout].
  split; [|split].
  - apply (Hwith 1990 eq_refl ltac:(lia) eq_refl eq_refl).
  - apply (Hwithout eq_refl ltac:(cbn; lia) eq_refl).
  - apply (Hwithout eq_refl ltac:(cbn; lia) eq_refl).
Defined.

(** C7 (as stated, refuted). February 29 without a year is a record the
    parser itself produces in a leap year; in 2025 it is still written
    [29.02.], and parsing that text raises [ValueError] instead of giving
    back month and day. *)
Lemma feb29_does_not_round_trip :
  parse_date (Date 2024 6 1) "29.02." = Ok (None, 2, 29)
  /\ Birthday_str (mkBirthday None 2 29 None true 0 0) = Ok "29.02."
  /\ parse_date (Date 2025 6 1) "29.02." = Raise ValueError
  /\ parse_date (Date 2025 6 1) "29.02." <> Ok (None, 2, 29).
Proof.
  split; [reflexivity|]. split; [reflexivity|]. split; [reflexivity|].
  discriminate.
Qed.

(** ** The parser's two errors *)

Lemma not_digit_not_in_range (c : ascii) :
  is_digit c = false ->
  in_range "0" "1" c = false /\ in_range "0" "3" c = false.
Proof.
  unfold is_digit, in_range.
  change (code "0") with 48%N. change (code "1") with 49%N.
  change (code "3") with 51%N.
  rewrite !andb_false_iff, !N.leb_gt. lia.
Qed.

(** Every pattern starts with a digit. *)
Lemma first_match_needs_digit (c : ascii) (rest : string) :
  is_digit c = false -> first_match PATTERNS_DATE (String c rest) = None.
Proof.
  intros Hd. destruct (not_digit_not_in_range c Hd) as [H01 H03].
  unfold PATTERNS_DATE, P_Ymd, P_ymd, P_md, P_dmY, P_dmy, P_dm, P_dm_dot,
    P_mdY_slash, P_mdy_slash, P_md_slash.
  rewrite !first_match_cons.
  unfold re_match, d4, d2, mm, dd, dig, rng. cbn [rmatch].
  rewrite Hd, H01, H03. reflexivity.
Qed.

Lemma lstrip_before_nonspace (x : string) (c : ascii) :
  is_space c = false ->
  exists x', lstrip (x +:+ String c EmptyString) = x' +:+ String c EmptyString.
Proof.
  intros Hc. induction x as [|a x IH].
  - exists EmptyString. rewrite !append_nil_l. cbn [lstrip]. now rewrite Hc.
  - rewrite append_cons. cbn [lstrip]. destruct (is_space a).
    + exact IH.
    + exists (String a x). now rewrite append_cons.
Qed.

Lemma strip_keeps_head (c : ascii) (rest : string) :
  is_space c = false -> exists rest', strip (String c rest) = String c rest'.
Proof.
  intros Hc. unfold strip. cbn [lstrip]. rewrite Hc. cbn [rev_string].
  rewrite (rev_string_spec rest (String c EmptyString)).
  destruct (lstrip_before_nonspace (rev_string rest EmptyString) c Hc)
    as (x' & ->).
  rewrite rev_string_append. eexists. reflexivity.
Qed.

Lemma parse_without_leading_digit (today : date) (c : ascii) (rest : string) :
  is_digit c = false -> is_space c = false ->
  parse_date today (String c rest) = Raise (BirthdayParseError MSG_CANNOT_PARSE).
Proof.
  intros Hd Hs. unfold parse_date.
  destruct (strip_keeps_head c rest Hs) as (rest' & ->).
  now rewrite first_match_needs_digit.
Qed.

Lemma parse_rendered_future (today : date) (y m d : Z) :
  valid_date (Date y m d) = true ->
  date_gt (Date y m d) today = true ->
  parse_date today
    (two_digits d +:+ "." +:+ two_digits m +:+ "." +:+ four_digits y)
  = Raise (BirthdayParseError MSG_FUTURE).
Proof.
  intros Hv Hgt. destruct (valid_date_bounds y m d Hv) as (Hy & Hm & Hd).
  unfold parse_date.
  rewrite strip_dmY by lia. rewrite first_match_dmY by lia.
  change (negb (contains "%y" "%d.%m.%Y") && negb (contains "%Y" "%d.%m.%Y"))
    with false.
  cbv beta iota. rewrite strptime_dmY by lia.
  unfold mk_date. rewrite Hv. cbn. now rewrite Hgt.
Qed.

(** C3 (as the code has it). When no pattern matches the trimmed input,
    as for every input that does not start with a digit, [parse_date]
    raises [BirthdayParseError] with the cannot-be-parsed message; when the
    matched text has a layout with a year and reads as a date strictly
    after today, it raises [BirthdayParseError] with the
    born-in-the-future message; when that date is today, or any day not
    after today, it returns year, month and day.  So for every calendar
    date written [dd.mm.yyyy].  The two errors are of one class and differ
    in their message only. *)
Theorem parse_date_errors (today : date) (text : string) :
  (first_match PATTERNS_DATE (strip text) = None ->
     parse_date today text = Raise (BirthdayParseError MSG_CANNOT_PARSE))
  /\ (forall (matched fmt : string) (d : date),
        first_match PATTERNS_DATE (strip text) = Some (matched, fmt) ->
        has_year fmt = true ->
        strptime matched fmt = Ok d ->
        (date_gt d today = true ->
           parse_date today text = Raise (BirthdayParseError MSG_FUTURE))
        /\ (date_gt d today = false ->
              parse_date today text = Ok (Some (d_year d), d_month d, d_day d))
        /\ (d = today ->
              parse_date today text = Ok (Some (d_year d), d_month d, d_day d)))
  /\ (forall (c : ascii) (rest : string),
        is_digit c = false -> is_space c = false ->
        parse_date today (String c rest)
        = Raise (BirthdayParseError MSG_CANNOT_PARSE))
  /\ (forall y m d : Z,
        valid_date (Date y m d) = true ->
        parse_date today
          (two_digits d +:+ "." +:+ two_digits m +:+ "." +:+ four_digits y)
        = if date_gt (Date y m d) today
          then Raise (BirthdayParseError MSG_FUTURE)
          else Ok (Some y, m, d))
  /\ class_of (BirthdayParseError MSG_CANNOT_PARSE)
     = class_of (BirthdayParseError MSG_FUTURE)
  /\ MSG_CANNOT_PARSE <> MSG_FUTURE.
Proof.
  split; [|split; [|split; [|split; [|split; [reflexivity|discriminate]]]]].
  - intros Hnone. unfold parse_date. now rewrite Hnone.
  - intros matched fmt d Hm Hy Hd.
    assert (Hgo : forall gt, date_gt d today = gt ->
              parse_date today text
              = if gt then Raise (BirthdayParseError MSG_FUTURE)
                else Ok (Some (d_year d), d_month d, d_day d)).
    { intros gt Hgt. unfold parse_date. rewrite Hm.
      unfold has_year in Hy. apply orb_true_iff in Hy.
      assert (negb (contains "%y" fmt) && negb (contains "%Y" fmt) = false)
        as -> by (destruct Hy as [-> | ->]; [reflexivity|apply andb_false_r]).
      rewrite Hd. cbn. now rewrite Hgt. }
    split; [|split].
    + intros Hgt. now apply (Hgo true).
    + intros Hgt. now apply (Hgo false).
    + intros ->. apply (Hgo false), date_gt_irrefl.
  - intros c rest. apply parse_without_leading_digit.
  - intros y m d Hv. destruct (date_gt (Date y m d) today) eqn:Hgt.
    + now apply parse_rendered_future.
    + now apply parse_rendered_with_year.
Qed.

Lemma parse_date_errors_witness :
  parse_date sample_today "no date here" = Raise (BirthdayParseError MSG_CANNOT_PARSE)
  /\ parse_date sample_today "04.11.2026" = Raise (BirthdayParseError MSG_FUTURE)
  /\ parse_date sample_today "2026-11-03" = Ok (Some 2026, 11, 3)
  /\ parse_date sample_today "03.11.2026" = Ok (Some 2026, 11, 3).
Proof.
  split; [|split; [|split]].
  - destruct (parse_date_errors sample_today "no date here") as (H & _).
    apply H. reflexivity.
  - destruct (parse_date_errors sample_today "04.11.2026") as (_ & H & _).
    apply (H "04.11.2026" "%d.%m.%Y" (Date 2026 11 4));
      reflexivity.
  - destruct (parse_date_errors sample_today "2026-11-03") as (_ & H & _).
    destruct (H "2026-11-03" "%Y-%m-%d" (Date 2026 11 3)
                eq_refl eq_refl eq_refl) as (_ & _ & Heq).
    apply (Heq eq_refl).
  - destruct (parse_date_errors sample_today "03.11.2026")
      as (_ & _ & _ & H & _).
    apply (H 2026 11 3 eq_refl).
Defined.

(** C3 (as stated, refuted). The error for an input no pattern matches and
    the error for a date in the future are not distinct error classes:
    both are [BirthdayParseError]. *)
Lemma parse_errors_share_class :
  raised_class (parse_date sample_today "no date here") = Some CBirthdayParseError
  /\ raised_class (parse_date sample_today "04.11.2026") = Some CBirthdayParseError
  /\ ~ (raised_class (parse_date sample_today "no date here")
        <> raised_class (parse_date sample_today "04.11.2026")).
Proof.
  split; [reflexivity|]. split; [reflexivity|]. intros H. now apply H.
Qed.

(* ===================================================================== *)
(** * Further properties of the parser *)
(* ===================================================================== *)

(** ** Numerals with and without a leading zero *)

Ltac both_forms H := destruct H as [->| ->].

Lemma numeral_solid (n : Z) (s : string) :
  numeral_of n s -> 1 <= n <= 31 ->
  starts_solid s = true /\ starts_solid (rev_string s EmptyString) = true.
Proof. intros Hs Hn. both_forms Hs; enum_Z n 1 31%nat; split; reflexivity. Qed.

Lemma numeral_value (n : Z) (s : string) :
  numeral_of n s -> 1 <= n <= 31 -> py_int s = n.
Proof. intros Hs Hn. both_forms Hs; enum_Z n 1 31%nat; reflexivity. Qed.

(** A day or a month in front of a separator is taken whole: taking one
    digit of two leaves a digit where the separator should be, and a
    numeral of one digit is taken without the optional first digit. *)
Lemma dd_sep {A : Type} (d : Z) (ds : string) (sep : ascii) (rest : string)
    (g : groups) (K : string -> groups -> option A) :
  numeral_of d ds -> 1 <= d <= 31 -> separator sep ->
  rmatch dd (ds +:+ String sep rest) g
    (fun s' g' => rmatch (lit sep) s' g' K)
  = K rest g.
Proof.
  intros Hs Hd [->|[->|[->| ->]]]; both_forms Hs; enum_Z d 1 31%nat;
    vm_compute; now destruct (K rest g).
Qed.

Lemma mm_sep {A : Type} (m : Z) (ms : string) (sep : ascii) (rest : string)
    (g : groups) (K : string -> groups -> option A) :
  numeral_of m ms -> 1 <= m <= 12 -> separator sep ->
  rmatch mm (ms +:+ String sep rest) g
    (fun s' g' => rmatch (lit sep) s' g' K)
  = K rest g.
Proof.
  intros Hs Hm [->|[->|[->| ->]]]; both_forms Hs; enum_Z m 1 12%nat;
    vm_compute; now destruct (K rest g).
Qed.

Lemma dd_end {A : Type} (d : Z) (ds : string) (g : groups)
    (K : string -> groups -> option A) (x : A) :
  numeral_of d ds -> 1 <= d <= 31 ->
  K EmptyString g = Some x ->
  rmatch dd (ds +:+ EmptyString) g K = Some x.
Proof.
  intros Hs Hd HK. both_forms Hs; enum_Z d 1 31%nat; run_matcher HK.
Qed.

Lemma day_alts_sep {A : Type} (d : Z) (ds : string) (sep : ascii)
    (rest : string) (g : groups) (K : string -> groups -> option A) (x : A) :
  numeral_of d ds -> 1 <= d <= 31 -> separator sep ->
  K (String sep rest) g = Some x ->
  rmatch day_alts (ds +:+ String sep rest) g K = Some x.
Proof.
  intros Hs Hd [->|[->|[->| ->]]] HK; both_forms Hs; enum_Z d 1 31%nat;
    run_matcher HK.
Qed.

Lemma day_alts_end {A : Type} (d : Z) (ds : string) (g : groups)
    (K : string -> groups -> option A) (x : A) :
  numeral_of d ds -> 1 <= d <= 31 ->
  K EmptyString g = Some x ->
  rmatch day_alts (ds +:+ EmptyString) g K = Some x.
Proof.
  intros Hs Hd HK. both_forms Hs; enum_Z d 1 31%nat; run_matcher HK.
Qed.

Lemma month_alts_sep {A : Type} (m : Z) (ms : string) (sep : ascii)
    (rest : string) (g : groups) (K : string -> groups -> option A) (x : A) :
  numeral_of m ms -> 1 <= m <= 12 -> separator sep ->
  K (String sep rest) g = Some x ->
  rmatch month_alts (ms +:+ String sep rest) g K = Some x.
Proof.
  intros Hs Hm [->|[->|[->| ->]]] HK; both_forms Hs; enum_Z m 1 12%nat;
    run_matcher HK.
Qed.

(** ** Text without blanks at its ends *)

Lemma lstrip_solid (s : string) : starts_solid s = true -> lstrip s = s.
Proof.
  destruct s as [|c s]; [discriminate|]. cbn [starts_solid lstrip].
  now destruct (is_space c).
Qed.

Lemma strip_solid (s : string) :
  starts_solid s = true -> starts_solid (rev_string s EmptyString) = true ->
  strip s = s.
Proof.
  intros Hfirst Hlast. unfold strip.
  rewrite (lstrip_solid s Hfirst), (lstrip_solid _ Hlast).
  apply rev_string_involutive.
Qed.

Lemma starts_solid_append (a b : string) :
  starts_solid a = true -> starts_solid (a +:+ b) = true.
Proof. destruct a as [|c a]; [discriminate|]. now rewrite append_cons. Qed.

Lemma ends_solid_append (a b : string) :
  starts_solid (rev_string b EmptyString) = true ->
  starts_solid (rev_string (a +:+ b) EmptyString) = true.
Proof. intros Hb. rewrite rev_string_append. now apply starts_solid_append. Qed.

Lemma four_digits_ends_solid (y : Z) :
  0 <= y <= 9999 ->
  starts_solid (rev_string (four_digits y) EmptyString) = true.
Proof.
  intros Hy. unfold four_digits. cbn [rev_string starts_solid].
  rewrite is_space_digit_char by (Z.div_mod_to_equations; lia). reflexivity.
Qed.

Lemma two_digits_ends_solid (n : Z) :
  0 <= n <= 99 ->
  starts_solid (rev_string (two_digits n) EmptyString) = true.
Proof.
  intros Hn. unfold two_digits. cbn [rev_string starts_solid].
  rewrite is_space_digit_char by (Z.div_mod_to_equations; lia). reflexivity.
Qed.

(** ** The dotted layout *)

Lemma dotted_early_patterns_fail (d : Z) (ds rest : string) :
  numeral_of d ds -> 1 <= d <= 31 ->
  re_match P_Ymd (ds +:+ "." +:+ rest) = None
  /\ re_match P_ymd (ds +:+ "." +:+ rest) = None
  /\ re_match P_md (ds +:+ "." +:+ rest) = None.
Proof.
  intros Hs Hd. both_forms Hs; enum_Z d 1 31%nat; vm_compute; auto.
Qed.

Lemma P_dmY_numerals (y m d : Z) (ms ds : string) :
  1 <= d <= 31 -> 1 <= m <= 12 -> 0 <= y <= 9999 ->
  numeral_of m ms -> numeral_of d ds ->
  let s := ds +:+ "." +:+ ms +:+ "." +:+ four_digits y in
  re_match P_dmY s = Some (MatchObj (String.length s) [("date", s)]).
Proof.
  intros Hd Hm Hy Hms Hds s. subst s. unfold P_dmY. apply re_match_whole.
  intros K' HK'. rewrite !append_assoc. cbn [rmatch].
  rewrite !append_cons, !append_nil_l.
  rewrite (dd_sep d) by (assumption || (left; reflexivity)).
  rewrite (mm_sep m) by (assumption || (left; reflexivity)).
  rewrite d4_ok by exact Hy. exact HK'.
Qed.

Lemma strptime_dmY_numerals (y m d : Z) (ms ds : string) :
  1 <= d <= 31 -> 1 <= m <= 12 -> 0 <= y <= 9999 ->
  numeral_of m ms -> numeral_of d ds ->
  strptime (ds +:+ "." +:+ ms +:+ "." +:+ four_digits y) "%d.%m.%Y"
  = mk_date y m d.
Proof.
  intros Hd Hm Hy Hms Hds.
  assert (Hmatch :
    re_match (Seq RE_d (Seq (lit ".") (Seq RE_m (Seq (lit ".") (Seq RE_Y Eps)))))
      (ds +:+ "." +:+ ms +:+ "." +:+ four_digits y)
    = Some (MatchObj
              (String.length (ds +:+ "." +:+ ms +:+ "." +:+ four_digits y))
              [("Y", four_digits y); ("m", ms); ("d", ds)])).
  { unfold re_match. cbn [rmatch].
    rewrite <- (append_empty_r (four_digits y)) at 1.
    rewrite !append_cons, !append_nil_l.
    unfold RE_d. eapply grp_ok;
      [intros K' HK'; apply (day_alts_sep d); auto; now left|].
    rewrite lit_ok.
    unfold RE_m. eapply grp_ok;
      [intros K' HK'; apply (month_alts_sep m); auto; now left|].
    rewrite lit_ok.
    unfold RE_Y. eapply grp_ok; [intros K' HK'; now rewrite (d4_ok y)|].
    cbn [rmatch String.length]. now rewrite Nat.sub_0_r. }
  unfold strptime.
  change (format_regex "%d.%m.%Y" false)
    with (Some (Seq RE_d (Seq (lit ".") (Seq RE_m (Seq (lit ".") (Seq RE_Y Eps)))))).
  cbv beta iota. rewrite Hmatch. cbn [m_end m_groups].
  rewrite Nat.eqb_refl. cbn [negb].
  unfold year_of_groups, month_of_groups, day_of_groups.
  cbn [group String.eqb Ascii.eqb Bool.eqb].
  rewrite py_int_four_digits by lia.
  rewrite (numeral_value m ms), (numeral_value d ds) by (assumption || lia).
  reflexivity.
Qed.

Lemma parse_dotted (today : date) (y m d : Z) (ms ds : string) :
  1 <= d <= 31 -> 1 <= m <= 12 -> 0 <= y <= 9999 ->
  numeral_of m ms -> numeral_of d ds ->
  parse_date today (ds +:+ "." +:+ ms +:+ "." +:+ four_digits y)
  = read_full_date today y m d.
Proof.
  intros Hd Hm Hy Hms Hds. unfold parse_date.
  assert (Hstrip : strip (ds +:+ "." +:+ ms +:+ "." +:+ four_digits y)
                   = ds +:+ "." +:+ ms +:+ "." +:+ four_digits y).
  { apply strip_solid.
    - apply starts_solid_append. now apply (numeral_solid d).
    - do 4 apply ends_solid_append. now apply four_digits_ends_solid. }
  rewrite Hstrip.
  destruct (dotted_early_patterns_fail d ds (ms +:+ "." +:+ four_digits y)
              Hds Hd) as (H1 & H2 & H3).
  pose proof (P_dmY_numerals y m d ms ds Hd Hm Hy Hms Hds) as H4.
  cbv zeta in H4.
  unfold PATTERNS_DATE. cbn [first_match]. rewrite H1, H2, H3, H4.
  cbn [m_groups group String.eqb Ascii.eqb Bool.eqb].
  change (negb (contains "%y" "%d.%m.%Y") && negb (contains "%Y" "%d.%m.%Y"))
    with false.
  cbv beta iota. rewrite (strptime_dmY_numerals y m d) by assumption.
  unfold mk_date, read_full_date. now destruct (valid_date (Date y m d)).
Qed.

(** ** The ISO layout *)

Lemma P_Ymd_numerals (y m d : Z) (ms ds : string) :
  1 <= d <= 31 -> 1 <= m <= 12 -> 0 <= y <= 9999 ->
  numeral_of m ms -> numeral_of d ds ->
  let s := four_digits y +:+ "-" +:+ ms +:+ "-" +:+ ds in
  re_match P_Ymd s = Some (MatchObj (String.length s) [("date", s)]).
Proof.
  intros Hd Hm Hy Hms Hds s. subst s. unfold P_Ymd. apply re_match_whole.
  intros K' HK'. rewrite !append_assoc. cbn [rmatch].
  rewrite d4_ok by exact Hy.
  rewrite !append_cons, !append_nil_l, lit_ok.
  rewrite (mm_sep m) by (assumption || (right; left; reflexivity)).
  now apply (dd_end d).
Qed.

Lemma strptime_Ymd_numerals (y m d : Z) (ms ds : string) :
  1 <= d <= 31 -> 1 <= m <= 12 -> 0 <= y <= 9999 ->
  numeral_of m ms -> numeral_of d ds ->
  strptime (four_digits y +:+ "-" +:+ ms +:+ "-" +:+ ds) "%Y-%m-%d"
  = mk_date y m d.
Proof.
  intros Hd Hm Hy Hms Hds.
  assert (Hmatch :
    re_match (Seq RE_Y (Seq (lit "-") (Seq RE_m (Seq (lit "-") (Seq RE_d Eps)))))
      (four_digits y +:+ "-" +:+ ms +:+ "-" +:+ ds)
    = Some (MatchObj
              (String.length (four_digits y +:+ "-" +:+ ms +:+ "-" +:+ ds))
              [("d", ds); ("m", ms); ("Y", four_digits y)])).
  { unfold re_match. cbn [rmatch].
    rewrite <- (append_empty_r ds) at 1.
    unfold RE_Y. eapply grp_ok; [intros K' HK'; now rewrite (d4_ok y)|].
    rewrite !append_cons, !append_nil_l, lit_ok.
    unfold RE_m. eapply grp_ok;
      [intros K' HK'; apply (month_alts_sep m); auto; right; now left|].
    rewrite lit_ok.
    unfold RE_d. eapply grp_ok; [intros K' HK'; now apply (day_alts_end d)|].
    cbn [rmatch String.length]. now rewrite Nat.sub_0_r. }
  unfold strptime.
  change (format_regex "%Y-%m-%d" false)
    with (Some (Seq RE_Y (Seq (lit "-") (Seq RE_m (Seq (lit "-") (Seq RE_d Eps)))))).
  cbv beta iota. rewrite Hmatch. cbn [m_end m_groups].
  rewrite Nat.eqb_refl. cbn [negb].
  unfold year_of_groups, month_of_groups, day_of_groups.
  cbn [group String.eqb Ascii.eqb Bool.eqb].
  rewrite py_int_four_digits by lia.
  rewrite (numeral_value m ms), (numeral_value d ds) by (assumption || lia).
  reflexivity.
Qed.

Lemma four_digits_solid (y : Z) :
  0 <= y <= 9999 -> starts_solid (four_digits y) = true.
Proof.
  intros Hy. unfold four_digits. cbn [starts_solid].
  rewrite is_space_digit_char by (Z.div_mod_to_equations; lia). reflexivity.
Qed.

Lemma parse_iso (today : date) (y m d : Z) (ms ds : string) :
  1 <= d <= 31 -> 1 <= m <= 12 -> 0 <= y <= 9999 ->
  numeral_of m ms -> numeral_of d ds ->
  parse_date today (four_digits y +:+ "-" +:+ ms +:+ "-" +:+ ds)
  = read_full_date today y m d.
Proof.
  intros Hd Hm Hy Hms Hds. unfold parse_date.
  assert (Hstrip : strip (four_digits y +:+ "-" +:+ ms +:+ "-" +:+ ds)
                   = four_digits y +:+ "-" +:+ ms +:+ "-" +:+ ds).
  { apply strip_solid.
    - apply starts_solid_append. now apply four_digits_solid.
    - do 4 apply ends_solid_append. now apply (numeral_solid d). }
  rewrite Hstrip.
  pose proof (P_Ymd_numerals y m d ms ds Hd Hm Hy Hms Hds) as H1.
  cbv zeta in H1.
  unfold PATTERNS_DATE. cbn [first_match]. rewrite H1.
  cbn [m_groups group String.eqb Ascii.eqb Bool.eqb].
  change (negb (contains "%y" "%Y-%m-%d") && negb (contains "%Y" "%Y-%m-%d"))
    with false.
  cbv beta iota. rewrite (strptime_Ymd_numerals y m d) by assumption.
  unfold mk_date, read_full_date. now destruct (valid_date (Date y m d)).
Qed.

(** ** The slashed layout *)

Lemma slash_other_patterns_fail (m : Z) (ms rest : string) :
  numeral_of m ms -> 1 <= m <= 12 ->
  re_match P_Ymd (ms +:+ "/" +:+ rest) = None
  /\ re_match P_ymd (ms +:+ "/" +:+ rest) = None
  /\ re_match P_md (ms +:+ "/" +:+ rest) = None
  /\ re_match P_dmY (ms +:+ "/" +:+ rest) = None
  /\ re_match P_dmy (ms +:+ "/" +:+ rest) = None
  /\ re_match P_dm (ms +:+ "/" +:+ rest) = None
  /\ re_match P_dm_dot (ms +:+ "/" +:+ rest) = None.
Proof.
  intros Hs Hm. both_forms Hs; enum_Z m 1 12%nat; vm_compute; auto 10.
Qed.

Lemma P_mdY_slash_numerals (y m d : Z) (ms ds : string) :
  1 <= d <= 31 -> 1 <= m <= 12 -> 0 <= y <= 9999 ->
  numeral_of m ms -> numeral_of d ds ->
  let s := ms +:+ "/" +:+ ds +:+ "/" +:+ four_digits y in
  re_match P_mdY_slash s = Some (MatchObj (String.length s) [("date", s)]).
Proof.
  intros Hd Hm Hy Hms Hds s. subst s. unfold P_mdY_slash.
  apply re_match_whole.
  intros K' HK'. rewrite !append_assoc. cbn [rmatch].
  rewrite !append_cons, !append_nil_l.
  rewrite (mm_sep m) by (assumption || (right; right; left; reflexivity)).
  rewrite (dd_sep d) by (assumption || (right; right; left; reflexivity)).
  rewrite d4_ok by exact Hy. exact HK'.
Qed.

Lemma strptime_mdY_numerals (y m d : Z) (ms ds : string) :
  1 <= d <= 31 -> 1 <= m <= 12 -> 0 <= y <= 9999 ->
  numeral_of m ms -> numeral_of d ds ->
  strptime (ms +:+ "/" +:+ ds +:+ "/" +:+ four_digits y) "%m/%d/%Y"
  = mk_date y m d.
Proof.
  intros Hd Hm Hy Hms Hds.
  assert (Hmatch :
    re_match (Seq RE_m (Seq (lit "/") (Seq RE_d (Seq (lit "/") (Seq RE_Y Eps)))))
      (ms +:+ "/" +:+ ds +:+ "/" +:+ four_digits y)
    = Some (MatchObj
              (String.length (ms +:+ "/" +:+ ds +:+ "/" +:+ four_digits y))
              [("Y", four_digits y); ("d", ds); ("m", ms)])).
  { unfold re_match. cbn [rmatch].
    rewrite <- (append_empty_r (four_digits y)) at 1.
    rewrite !append_cons, !append_nil_l.
    unfold RE_m. eapply grp_ok;
      [intros K' HK'; apply (month_alts_sep m); auto; right; right; now left|].
    rewrite lit_ok.
    unfold RE_d. eapply grp_ok;
      [intros K' HK'; apply (day_alts_sep d); auto; right; right; now left|].
    rewrite lit_ok.
    unfold RE_Y. eapply grp_ok; [intros K' HK'; now rewrite (d4_ok y)|].
    cbn [rmatch String.length]. now rewrite Nat.sub_0_r. }
  unfold strptime.
  change (format_regex "%m/%d/%Y" false)
    with (Some (Seq RE_m (Seq (lit "/") (Seq RE_d (Seq (lit "/") (Seq RE_Y Eps)))))).
  cbv beta iota. rewrite Hmatch. cbn [m_end m_groups].
  rewrite Nat.eqb_refl. cbn [negb].
  unfold year_of_groups, month_of_groups, day_of_groups.
  cbn [group String.eqb Ascii.eqb Bool.eqb].
  rewrite py_int_four_digits by lia.
  rewrite (numeral_value m ms), (numeral_value d ds) by (assumption || lia).
  reflexivity.
Qed.

Lemma parse_slash (today : date) (y m d : Z) (ms ds : string) :
  1 <= d <= 31 -> 1 <= m <= 12 -> 0 <= y <= 9999 ->
  numeral_of m ms -> numeral_of d ds ->
  parse_date today (ms +:+ "/" +:+ ds +:+ "/" +:+ four_digits y)
  = read_full_date today y m d.
Proof.
  intros Hd Hm Hy Hms Hds. unfold parse_date.
  assert (Hstrip : strip (ms +:+ "/" +:+ ds +:+ "/" +:+ four_digits y)
                   = ms +:+ "/" +:+ ds +:+ "/" +:+ four_digits y).
  { apply strip_solid.
    - apply starts_solid_append. apply (numeral_solid m); [exact Hms|lia].
    - do 4 apply ends_solid_append. now apply four_digits_ends_solid. }
  rewrite Hstrip.
  destruct (slash_other_patterns_fail m ms (ds +:+ "/" +:+ four_digits y)
              Hms Hm) as (H1 & H2 & H3 & H4 & H5 & H6 & H7).
  pose proof (P_mdY_slash_numerals y m d ms ds Hd Hm Hy Hms Hds) as H8.
  cbv zeta in H8.
  unfold PATTERNS_DATE. cbn [first_match].
  rewrite H1, H2, H3, H4, H5, H6, H7, H8.
  cbn [m_groups group String.eqb Ascii.eqb Bool.eqb].
  change (negb (contains "%y" "%m/%d/%Y") && negb (contains "%Y" "%m/%d/%Y"))
    with false.
  cbv beta iota. rewrite (strptime_mdY_numerals y m d) by assumption.
  unfold mk_date, read_full_date. now destruct (valid_date (Date y m d)).
Qed.

(** ** Two-digit years *)

Lemma d2_ok {A : Type} (yy : Z) (r : string) (g : groups)
    (K : string -> groups -> option A) :
  0 <= yy <= 99 ->
  rmatch (Seq dig dig) (two_digits yy +:+ r) g K = K r g.
Proof.
  intros Hy. unfold two_digits, dig. rewrite !append_cons, append_nil_l.
  cbn [rmatch].
  rewrite !is_digit_digit_char by (Z.div_mod_to_equations; lia). reflexivity.
Qed.

Lemma strptime_dmy (yy m d : Z) :
  1 <= d <= 31 -> 1 <= m <= 12 -> 0 <= yy <= 99 ->
  strptime (short_dotted_text yy m d) "%d.%m.%y"
  = mk_date (pivot_year yy) m d.
Proof.
  intros Hd Hm Hy.
  assert (Hmatch :
    re_match (Seq RE_d (Seq (lit ".") (Seq RE_m (Seq (lit ".") (Seq RE_y Eps)))))
      (short_dotted_text yy m d)
    = Some (MatchObj (String.length (short_dotted_text yy m d))
              [("y", two_digits yy); ("m", two_digits m); ("d", two_digits d)])).
  { unfold re_match. unfold short_dotted_text at 1. cbn [rmatch].
    rewrite <- (append_empty_r (two_digits yy)) at 1.
    unfold RE_d. eapply grp_ok; [intros K' HK'; now apply day_alts_ok|].
    rewrite append_cons, append_nil_l, lit_ok.
    unfold RE_m. eapply grp_ok; [intros K' HK'; now apply month_alts_ok|].
    rewrite append_cons, append_nil_l, lit_ok.
    unfold RE_y. eapply grp_ok; [intros K' HK'; now rewrite (d2_ok yy)|].
    cbn [rmatch String.length]. now rewrite Nat.sub_0_r. }
  unfold strptime.
  change (format_regex "%d.%m.%y" false)
    with (Some (Seq RE_d (Seq (lit ".") (Seq RE_m (Seq (lit ".") (Seq RE_y Eps)))))).
  cbv beta iota. rewrite Hmatch. cbn [m_end m_groups].
  rewrite Nat.eqb_refl. cbn [negb].
  unfold year_of_groups, month_of_groups, day_of_groups.
  cbn [group String.eqb Ascii.eqb Bool.eqb].
  rewrite !py_int_two_digits by lia. reflexivity.
Qed.

Lemma d4_needs_four_digits {A : Type} (yy : Z) (g : groups)
    (K : string -> groups -> option A) :
  rmatch d4 (two_digits yy) g K = None.
Proof.
  unfold two_digits, d4, dig. cbn [rmatch].
  destruct (is_digit (digit_char (yy / 10))); [|reflexivity].
  now destruct (is_digit (digit_char (yy mod 10))).
Qed.

Lemma P_dmY_needs_long_year (yy m d : Z) :
  1 <= d <= 31 -> 1 <= m <= 12 ->
  re_match P_dmY (short_dotted_text yy m d) = None.
Proof.
  intros Hd Hm. unfold re_match, P_dmY. cbn [rmatch].
  change (short_dotted_text yy m d)
    with (two_digits d
          +:+ String "." (two_digits m +:+ String "." (two_digits yy))) at 1.
  rewrite (dd_sep d) by (assumption || (now right) || (now left)).
  rewrite (mm_sep m) by (assumption || (now right) || (now left)).
  apply d4_needs_four_digits.
Qed.

Lemma P_dmy_matches (yy m d : Z) :
  1 <= d <= 31 -> 1 <= m <= 12 -> 0 <= yy <= 99 ->
  re_match P_dmy (short_dotted_text yy m d)
  = Some (MatchObj (String.length (short_dotted_text yy m d))
            [("date", short_dotted_text yy m d)]).
Proof.
  intros Hd Hm Hy. unfold P_dmy. apply re_match_whole.
  intros K' HK'. unfold short_dotted_text. rewrite !append_assoc. cbn [rmatch].
  apply dd_ok; [exact Hd|]. rewrite append_cons, append_nil_l, lit_ok.
  apply mm_ok; [exact Hm|]. rewrite append_cons, append_nil_l, lit_ok.
  unfold d2. rewrite d2_ok by exact Hy. exact HK'.
Qed.

Lemma strip_short_dotted (yy m d : Z) :
  1 <= d <= 31 -> 0 <= yy <= 99 ->
  strip (short_dotted_text yy m d) = short_dotted_text yy m d.
Proof.
  intros Hd Hy. unfold short_dotted_text. apply strip_solid.
  - apply starts_solid_append. apply (numeral_solid d); [now right|exact Hd].
  - do 4 apply ends_solid_append. now apply two_digits_ends_solid.
Qed.

Lemma short_dotted_first_match (yy m d : Z) :
  1 <= d <= 31 -> 1 <= m <= 12 -> 0 <= yy <= 99 ->
  strip (short_dotted_text yy m d) = short_dotted_text yy m d
  /\ first_match PATTERNS_DATE (short_dotted_text yy m d)
     = Some (short_dotted_text yy m d, "%d.%m.%y").
Proof.
  intros Hd Hm Hy. split; [apply strip_short_dotted; lia|].
  destruct (early_patterns_fail d (two_digits m +:+ "." +:+ two_digits yy) Hd)
    as (H1 & H2 & H3).
  fold (short_dotted_text yy m d) in H1, H2, H3.
  unfold PATTERNS_DATE. cbn [first_match].
  rewrite H1, H2, H3, P_dmY_needs_long_year, P_dmy_matches by assumption.
  reflexivity.
Qed.

(** ** Blanks around the input *)

Lemma lstrip_all_space (p : string) : all_space p = true -> lstrip p = EmptyString.
Proof.
  induction p as [|c p IH]; [reflexivity|].
  cbn [all_space lstrip]. intros H. apply andb_true_iff in H as [-> H].
  now apply IH.
Qed.

Lemma lstrip_blanks_before (p s : string) :
  all_space p = true -> lstrip (p +:+ s) = lstrip s.
Proof.
  induction p as [|c p IH]; [reflexivity|].
  rewrite append_cons. cbn [all_space lstrip].
  intros H. apply andb_true_iff in H as [-> H]. now apply IH.
Qed.

Lemma lstrip_blanks_after (t p : string) :
  all_space p = true ->
  lstrip (t +:+ p) = if all_space t then EmptyString else lstrip t +:+ p.
Proof.
  intros Hp. induction t as [|c t IH].
  - rewrite append_nil_l. cbn [all_space]. now apply lstrip_all_space.
  - rewrite append_cons. cbn [all_space lstrip].
    destruct (is_space c); [exact IH|]. now rewrite append_cons.
Qed.

Lemma all_space_append (a b : string) :
  all_space (a +:+ b) = all_space a && all_space b.
Proof.
  induction a as [|c a IH]; [reflexivity|].
  rewrite append_cons. cbn [all_space]. now rewrite IH, andb_assoc.
Qed.

Lemma all_space_rev (s : string) :
  all_space (rev_string s EmptyString) = all_space s.
Proof.
  induction s as [|c s IH]; [reflexivity|].
  cbn [rev_string all_space].
  rewrite (rev_string_spec s (String c EmptyString)), all_space_append, IH.
  cbn [all_space]. now rewrite andb_true_r, andb_comm.
Qed.

Lemma strip_blanks_around (pre text post : string) :
  all_space pre = true -> all_space post = true ->
  strip (pre +:+ text +:+ post) = strip text.
Proof.
  intros Hpre Hpost. unfold strip.
  rewrite lstrip_blanks_before by exact Hpre.
  rewrite lstrip_blanks_after by exact Hpost.
  destruct (all_space text) eqn:Ht.
  - now rewrite (lstrip_all_space text Ht).
  - rewrite rev_string_append, lstrip_blanks_before; [reflexivity|].
    now rewrite all_space_rev.
Qed.

(** ** What the parser returns is a calendar date *)

Lemma plus_match_suffix {A : Type} (p : ascii -> bool) (s : string)
    (k : string -> option A) (x : A) :
  plus_match p s k = Some x -> exists q s', s = q +:+ s' /\ k s' = Some x.
Proof.
  induction s as [|c s IH]; cbn [plus_match]; [discriminate|].
  destruct (p c); [|discriminate].
  destruct (plus_match p s k) as [y|] eqn:E.
  - intros [= ->]. destruct (IH eq_refl) as (q & s' & -> & Hk).
    exists (String c q), s'. now rewrite append_cons.
  - intros Hk. exists (String c EmptyString), s. auto.
Qed.

(** Whatever a match returns was returned by the rest of the pattern on
    what the pattern left of the text. *)
Lemma rmatch_suffix {A : Type} (r : regex) :
  forall (s : string) (g : groups) (k : string -> groups -> option A) (x : A),
    rmatch r s g k = Some x ->
    exists q s' g', s = q +:+ s' /\ k s' g' = Some x.
Proof.
  induction r as [|p|r1 IH1 r2 IH2|r1 IH1 r2 IH2|r1 IH1|p|name r1 IH1];
    intros s g k x; cbn [rmatch].
  - intros H. exists EmptyString, s, g. auto.
  - destruct s as [|c s]; [discriminate|]. destruct (p c); [|discriminate].
    intros H. exists (String c EmptyString), s, g. auto.
  - intros H. apply IH1 in H as (q1 & s1 & g1 & -> & H).
    apply IH2 in H as (q2 & s2 & g2 & -> & H).
    exists (q1 +:+ q2), s2, g2. now rewrite append_assoc.
  - destruct (rmatch r1 s g k) as [y|] eqn:E.
    + intros [= ->]. now apply IH1 in E.
    + apply IH2.
  - destruct (rmatch r1 s g k) as [y|] eqn:E.
    + intros [= ->]. now apply IH1 in E.
    + intros H. exists EmptyString, s, g. auto.
  - intros H. apply plus_match_suffix in H as (q & s' & -> & H). eauto.
  - intros H. apply IH1 in H as (q & s' & g' & -> & H). eauto.
Qed.

Lemma d4_inv {A : Type} (s : string) (g : groups)
    (K : string -> groups -> option A) (x : A) :
  rmatch d4 s g K = Some x ->
  exists y s',
    s = y +:+ s' /\ String.length y = 4%nat /\ all_digits y = true
    /\ K s' g = Some x.
Proof.
  unfold d4, dig. cbn [rmatch].
  destruct s as [|c1 [|c2 [|c3 [|c4 s']]]]; try discriminate;
    repeat (match goal with
            | |- context [if is_digit ?c then _ else _] =>
                destruct (is_digit c) eqn:?
            end; try discriminate).
  intros H.
  exists (String c1 (String c2 (String c3 (String c4 EmptyString)))), s'.
  cbn [all_digits]. repeat split; try assumption; try reflexivity.
  repeat match goal with H : is_digit _ = true |- _ => rewrite H; clear H end.
  reflexivity.
Qed.

(** With the four-digit year as its last group, a match records under [Y]
    the four characters just before the point where it ends. *)
Lemma ends_with_Y_capture (r : regex) (Hr : ends_with_Y r) :
  forall (s : string) (g : groups) (n : nat) (found : match_obj),
    rmatch r s g (fun s' g' => Some (MatchObj (n - String.length s') g'))
    = Some found ->
    exists q y rest g0,
      s = q +:+ y +:+ rest /\ String.length y = 4%nat /\ all_digits y = true
      /\ found = MatchObj (n - String.length rest) (("Y", y) :: g0).
Proof.
  induction Hr as [|a r Hr IH]; intros s g n found H.
  - unfold RE_Y in H. cbn [rmatch] in H.
    apply d4_inv in H as (y & s' & -> & Hlen & Hdig & H).
    rewrite take_prefix in H. injection H as <-.
    exists EmptyString, y, s', g. auto.
  - cbn [rmatch] in H.
    apply rmatch_suffix in H as (q1 & s1 & g1 & -> & H).
    apply IH in H as (q & y & rest & g0 & -> & Hlen & Hdig & ->).
    exists (q1 +:+ q), y, rest, g0. now rewrite append_assoc.
Qed.

Lemma all_digits_append (a b : string) :
  all_digits (a +:+ b) = all_digits a && all_digits b.
Proof.
  induction a as [|c a IH]; [now rewrite append_nil_l|].
  rewrite append_cons. cbn [all_digits]. now rewrite IH, andb_assoc.
Qed.

(** Digits that end a text do not reach back over a blank. *)
Lemma digits_after_blank (q y p ds : string) :
  all_digits y = true -> q +:+ y = p +:+ String " " ds ->
  (String.length y <= String.length ds)%nat.
Proof.
  intros Hdig. revert p. induction q as [|c q IH]; intros p H.
  - rewrite append_nil_l in H. subst y.
    rewrite all_digits_append in Hdig. cbn [all_digits] in Hdig.
    change (is_digit " ") with false in Hdig.
    now rewrite andb_false_r in Hdig.
  - destruct p as [|c' p].
    + rewrite append_nil_l, append_cons in H. injection H as _ H.
      apply (f_equal String.length) in H. rewrite length_append in H. lia.
    + rewrite !append_cons in H. injection H as _ H. now apply (IH p).
Qed.

Lemma append_same_length_tail (p q y z : string) :
  p +:+ y = q +:+ z -> String.length y = String.length z -> y = z.
Proof.
  revert q. induction p as [|c p IH]; intros q H Hlen.
  - destruct q as [|c' q]; [exact H|].
    apply (f_equal String.length) in H.
    rewrite append_nil_l, append_cons in H. cbn [String.length] in H.
    rewrite length_append in H. lia.
  - destruct q as [|c' q].
    + apply (f_equal String.length) in H.
      rewrite append_nil_l, append_cons in H. cbn [String.length] in H.
      rewrite length_append in H. lia.
    + rewrite !append_cons in H. injection H as _ H. now apply (IH q).
Qed.

(** The layout returned is one of the list. *)
Lemma first_match_layout (patterns : list (regex * string))
    (text matched fmt : string) :
  first_match patterns text = Some (matched, fmt) ->
  In fmt (map snd patterns).
Proof.
  induction patterns as [|[pattern fmt_] rest IH]; cbn [first_match map snd];
    [discriminate|].
  destruct (re_match pattern text) as [m|]; [|intros H; right; auto].
  destruct (group "date" (m_groups m)); [|intros H; right; auto].
  intros [= _ <-]. now left.
Qed.

(** For a layout without a year, [strptime] reads a date from the match
    followed by the current year only when that year is written with four
    digits, and the date then lies in the current year. *)
Lemma yearless_date_in_clock_year (today : date) (matched fmt : string)
    (d : date) :
  1 <= d_year today <= 9999 ->
  In fmt (map snd PATTERNS_DATE) -> has_year fmt = false ->
  strptime (matched +:+ strftime today " %Y") (fmt +:+ " %Y") = Ok d ->
  1000 <= d_year today /\ d_year d = d_year today.
Proof.
  intros Hy Hin Hny Hs.
  assert (Hre : exists r, format_regex (fmt +:+ " %Y") false = Some r
                          /\ ends_with_Y r).
  { cbn in Hin.
    destruct Hin as [<-|[<-|[<-|[<-|[<-|[<-|[<-|[<-|[<-|[<-|[]]]]]]]]]]];
      try discriminate Hny;
      (eexists; split; [reflexivity|repeat constructor]). }
  destruct Hre as (r & Hfr & Hends).
  unfold strptime in Hs. rewrite Hfr in Hs.
  set (data := matched +:+ strftime today " %Y") in *.
  destruct (re_match r data) as [found|] eqn:Hm; [|discriminate].
  destruct (Nat.eqb_spec (m_end found) (String.length data)) as [Hend|];
    [|discriminate].
  cbn [negb] in Hs.
  unfold re_match in Hm.
  apply (ends_with_Y_capture r Hends) in Hm
    as (q & y & rest & g0 & Hdata & Hlen & Hdig & ->).
  cbn [m_end m_groups] in *.
  assert (Hrest : rest = EmptyString).
  { apply (f_equal String.length) in Hdata.
    rewrite !length_append in Hdata.
    destruct rest; [reflexivity|]. cbn [String.length] in *. lia. }
  subst rest. rewrite append_empty_r in Hdata.
  assert (Hwritten : data = matched +:+ String " " (str_of_Z (d_year today))).
  { subst data. cbn [strftime]. now rewrite append_empty_r. }
  assert (H1000 : 1000 <= d_year today).
  { destruct (Z.le_gt_cases 1000 (d_year today)) as [|Hshort]; [assumption|].
    exfalso.
    pose proof (str_of_Z_short (d_year today) ltac:(lia)) as Hfew.
    pose proof (digits_after_blank q y matched (str_of_Z (d_year today)) Hdig
                  ltac:(now rewrite <- Hdata)) as Hreach.
    lia. }
  assert (Hyear : y = four_digits (d_year today)).
  { apply (append_same_length_tail q (matched +:+ " ")).
    - rewrite <- Hdata, Hwritten.
      rewrite str_of_Z_four_digits by lia.
      rewrite append_assoc. reflexivity.
    - now rewrite Hlen. }
  split; [exact H1000|].
  unfold mk_date in Hs. destruct (valid_date _); [|discriminate].
  injection Hs as <-. cbn [d_year].
  unfold year_of_groups. cbn [group String.eqb Ascii.eqb Bool.eqb].
  rewrite Hyear. apply py_int_four_digits. lia.
Qed.

Lemma strptime_raises (data fmt : string) (e : exn) :
  strptime data fmt = Raise e -> e = ValueError.
Proof.
  unfold strptime, mk_date.
  destruct (format_regex fmt false) as [r|]; [|congruence].
  destruct (re_match r data) as [found|]; [|congruence].
  destruct (negb _); [congruence|].
  destruct (valid_date _); congruence.
Qed.

(** ** What the parser accepts and returns *)

Lemma parse_two_digit_year (today : date) (yy m d : Z) :
  1 <= d <= 31 -> 1 <= m <= 12 -> 0 <= yy <= 99 ->
  parse_date today (short_dotted_text yy m d)
  = read_full_date today (pivot_year yy) m d.
Proof.
  intros Hd Hm Hy. unfold parse_date.
  destruct (short_dotted_first_match yy m d Hd Hm Hy) as [Hs Hf].
  rewrite Hs, Hf.
  change (negb (contains "%y" "%d.%m.%y") && negb (contains "%Y" "%d.%m.%y"))
    with false.
  cbv beta iota. rewrite strptime_dmy by lia.
  unfold mk_date, read_full_date.
  now destruct (valid_date (Date (pivot_year yy) m d)).
Qed.

(** X1.  Whatever [parse_date] returns is a calendar date: with a year,
    a date that [datetime.date] accepts and that does not lie after
    today; without a year, a month and a day that exist in the current
    year. *)
Theorem parse_date_returns_calendar_dates (today : date) (text : string)
    (y : option Z) (m d : Z) :
  valid_date today = true ->
  parse_date today text = Ok (y, m, d) ->
  match y with
  | Some yy =>
      valid_date (Date yy m d) = true /\ date_gt (Date yy m d) today = false
  | None => valid_date (Date (d_year today) m d) = true
  end.
Proof.
  intros Ht H. pose proof (parse_date_Ok_some_year _ _ _ _ _ H) as Hsome.
  destruct y as [yy|]; [exact Hsome|].
  apply parse_date_Ok_inv in H as (matched & fmt & dt & Hf & -> & -> & H).
  destruct H as [(Hy & _ & Hs)|(_ & [=] & _)].
  pose proof (yearless_date_in_clock_year today matched fmt dt
                (valid_date_year _ Ht) (first_match_layout _ _ _ _ Hf) Hy Hs)
    as [_ Hyear].
  apply strptime_Ok_valid in Hs. rewrite <- Hyear. now destruct dt.
Qed.

Lemma parse_date_returns_calendar_dates_witness :
  valid_date (Date 1990 2 14) = true
  /\ date_gt (Date 1990 2 14) sample_today = false.
Proof.
  exact (parse_date_returns_calendar_dates sample_today "14.02.1990 or so"
           (Some 1990) 2 14 eq_refl eq_refl).
Defined.

(** X2.  Blanks before and after the text do not matter to the parser. *)
Theorem parse_date_ignores_blanks (today : date) (pre text post : string) :
  all_space pre = true -> all_space post = true ->
  parse_date today (pre +:+ text +:+ post) = parse_date today text.
Proof.
  intros Hpre Hpost. unfold parse_date.
  now rewrite strip_blanks_around.
Qed.

Lemma parse_date_ignores_blanks_witness :
  parse_date sample_today "  14.02.1990 " = parse_date sample_today "14.02.1990".
Proof.
  exact (parse_date_ignores_blanks sample_today "  " "14.02.1990" " "
           eq_refl eq_refl).
Defined.

(** X3.  The three layouts that spell out the year, [yyyy-mm-dd],
    [mm/dd/yyyy] and [dd.mm.yyyy], read the same date, and day and month
    may be written with or without a leading zero: for a day 1..31, a
    month 1..12 and a year 0..9999 each of them gives the year, month and
    day written when they form a date not after today, the "future" error
    when the date lies after today, and the built-in [ValueError] when no
    such date exists. *)
Theorem full_date_layouts_agree (today : date) (y m d : Z) (ms ds : string) :
  1 <= d <= 31 -> 1 <= m <= 12 -> 0 <= y <= 9999 ->
  numeral_of m ms -> numeral_of d ds ->
  parse_date today (four_digits y +:+ "-" +:+ ms +:+ "-" +:+ ds)
  = read_full_date today y m d
  /\ parse_date today (ms +:+ "/" +:+ ds +:+ "/" +:+ four_digits y)
     = read_full_date today y m d
  /\ parse_date today (ds +:+ "." +:+ ms +:+ "." +:+ four_digits y)
     = read_full_date today y m d.
Proof.
  intros Hd Hm Hy Hms Hds. split; [|split].
  - now apply parse_iso.
  - now apply parse_slash.
  - now apply parse_dotted.
Qed.

Lemma full_date_layouts_agree_witness :
  parse_date sample_today "1990-2-14" = Ok (Some 1990, 2, 14)
  /\ parse_date sample_today "2/14/1990" = Ok (Some 1990, 2, 14)
  /\ parse_date sample_today "14.2.1990" = Ok (Some 1990, 2, 14).
Proof.
  exact (full_date_layouts_agree sample_today 1990 2 14 "2" "14"
           ltac:(lia) ltac:(lia) ltac:(lia)
           ltac:(left; reflexivity) ltac:(left; reflexivity)).
Defined.

(** X4.  A two-digit year in [dd.mm.yy] is read with [strptime]'s pivot:
    00..68 are the years 2000..2068, 69..99 the years 1969..1999; the date
    read that way is then checked like one with a four-digit year. *)
Theorem two_digit_year_pivot (today : date) (yy m d : Z) :
  1 <= d <= 31 -> 1 <= m <= 12 -> 0 <= yy <= 99 ->
  parse_date today (short_dotted_text yy m d)
  = read_full_date today (if yy <=? 68 then 2000 + yy else 1900 + yy) m d.
Proof.
  intros Hd Hm Hy. rewrite parse_two_digit_year by assumption.
  unfold pivot_year. destruct (yy <=? 68); f_equal; lia.
Qed.

Lemma two_digit_year_pivot_witness :
  parse_date sample_today "14.02.69" = Ok (Some 1969, 2, 14)
  /\ parse_date sample_today "14.02.68"
     = Raise (BirthdayParseError MSG_FUTURE).
Proof.
  split.
  - exact (two_digit_year_pivot sample_today 69 2 14
             ltac:(lia) ltac:(lia) ltac:(lia)).
  - exact (two_digit_year_pivot sample_today 68 2 14
             ltac:(lia) ltac:(lia) ltac:(lia)).
Defined.

(** ** The layouts without a year *)

Lemma strftime_year (today : date) :
  1000 <= d_year today <= 9999 ->
  strftime today " %Y" = " " +:+ four_digits (d_year today).
Proof.
  intros Hy. cbn [strftime]. rewrite str_of_Z_four_digits by lia.
  now rewrite append_empty_r.
Qed.

(** A numeral at the end of the text: the pattern goes on behind it and
    finds nothing. *)
Lemma mm_end_needs_more {A : Type} (n : Z) (s : string) (sep : ascii)
    (g : groups) (K : string -> groups -> option A) :
  numeral_of n s -> 1 <= n <= 31 -> separator sep ->
  rmatch mm (s +:+ EmptyString) g (fun s' g' => rmatch (lit sep) s' g' K)
  = None.
Proof.
  intros Hs Hn [->|[->|[->| ->]]]; both_forms Hs; enum_Z n 1 31%nat;
    reflexivity.
Qed.

Lemma dd_end_needs_more {A : Type} (n : Z) (s : string) (sep : ascii)
    (g : groups) (K : string -> groups -> option A) :
  numeral_of n s -> 1 <= n <= 31 -> separator sep ->
  rmatch dd (s +:+ EmptyString) g (fun s' g' => rmatch (lit sep) s' g' K)
  = None.
Proof.
  intros Hs Hn [->|[->|[->| ->]]]; both_forms Hs; enum_Z n 1 31%nat;
    reflexivity.
Qed.

Lemma mm_end {A : Type} (m : Z) (ms : string) (g : groups)
    (K : string -> groups -> option A) (x : A) :
  numeral_of m ms -> 1 <= m <= 12 ->
  K EmptyString g = Some x ->
  rmatch mm (ms +:+ EmptyString) g K = Some x.
Proof.
  intros Hs Hm HK. both_forms Hs; enum_Z m 1 12%nat; run_matcher HK.
Qed.

Lemma mm_before {A : Type} (m : Z) (ms : string) (sep : ascii) (rest : string)
    (g : groups) (K : string -> groups -> option A) (x : A) :
  numeral_of m ms -> 1 <= m <= 12 -> separator sep ->
  K (String sep rest) g = Some x ->
  rmatch mm (ms +:+ String sep rest) g K = Some x.
Proof.
  intros Hs Hm [->|[->|[->| ->]]] HK; both_forms Hs; enum_Z m 1 12%nat;
    run_matcher HK.
Qed.

(** The two-digit year of [yy-mm-dd] in front of a dash: a month of two
    digits passes for it, one of a single digit does not. *)
Lemma d2_dash {A : Type} (m : Z) (ms rest : string) (g : groups)
    (K : string -> groups -> option A) :
  numeral_of m ms -> 1 <= m <= 12 ->
  rmatch d2 (ms +:+ String "-" rest) g (fun s' g' => rmatch (lit "-") s' g' K)
  = if Nat.eqb (String.length ms) 2 then K rest g else None.
Proof.
  intros Hs Hm. both_forms Hs; enum_Z m 1 12%nat; reflexivity.
Qed.

Lemma dash_early_patterns_fail (m d : Z) (ms ds : string) :
  1 <= d <= 31 -> 1 <= m <= 12 -> numeral_of m ms -> numeral_of d ds ->
  re_match P_Ymd (ms +:+ "-" +:+ ds) = None
  /\ re_match P_ymd (ms +:+ "-" +:+ ds) = None.
Proof.
  intros Hd Hm Hms Hds. split.
  - both_forms Hms; enum_Z m 1 12%nat; reflexivity.
  - unfold re_match, P_ymd. cbn [rmatch].
    rewrite append_cons, append_nil_l.
    rewrite (d2_dash m) by assumption.
    destruct (Nat.eqb (String.length ms) 2); [|reflexivity].
    rewrite <- (append_empty_r ds).
    apply (mm_end_needs_more d); auto. unfold separator. tauto.
Qed.

Lemma whole_match (pattern : regex) (p : string) (fmt : string)
    (earlier later : list (regex * string)) :
  Forall (fun pf => re_match (fst pf) p = None) earlier ->
  re_match pattern p = Some (MatchObj (String.length p) [("date", p)]) ->
  first_match (earlier ++ (pattern, fmt) :: later) p = Some (p, fmt).
Proof.
  intros Hearlier Hhere. induction Hearlier as [|[r f] earlier Hr _ IH].
  - cbn [app first_match]. rewrite Hhere. reflexivity.
  - cbn [app first_match]. cbn [fst] in Hr. now rewrite Hr.
Qed.

Lemma first_match_md (m d : Z) (ms ds : string) :
  1 <= d <= 31 -> 1 <= m <= 12 -> numeral_of m ms -> numeral_of d ds ->
  first_match PATTERNS_DATE (ms +:+ "-" +:+ ds)
  = Some (ms +:+ "-" +:+ ds, "%m-%d").
Proof.
  intros Hd Hm Hms Hds.
  destruct (dash_early_patterns_fail m d ms ds Hd Hm Hms Hds) as [H1 H2].
  apply (whole_match P_md _ "%m-%d" [(P_Ymd, _); (P_ymd, _)]).
  - repeat constructor; assumption.
  - unfold P_md. apply re_match_whole. intros K' HK'.
    rewrite !append_assoc. cbn [rmatch]. rewrite !append_cons, !append_nil_l.
    rewrite (mm_sep m) by (assumption || (unfold separator; tauto)).
    now apply (dd_end d).
Qed.

Lemma first_match_dm (m d : Z) (ms ds : string) :
  1 <= d <= 31 -> 1 <= m <= 12 -> numeral_of m ms -> numeral_of d ds ->
  first_match PATTERNS_DATE (ds +:+ "." +:+ ms)
  = Some (ds +:+ "." +:+ ms, "%d.%m").
Proof.
  intros Hd Hm Hms Hds.
  destruct (dotted_early_patterns_fail d ds ms Hds Hd) as (H1 & H2 & H3).
  assert (Hsep : separator ".") by (unfold separator; tauto).
  assert (Hm' : 1 <= m <= 31) by lia.
  apply (whole_match P_dm _ "%d.%m"
           [(P_Ymd, _); (P_ymd, _); (P_md, _); (P_dmY, _); (P_dmy, _)]).
  - repeat constructor; try assumption; cbn [fst].
    + unfold re_match, P_dmY. cbn [rmatch]. rewrite append_cons, append_nil_l.
      rewrite (dd_sep d) by assumption. rewrite <- (append_empty_r ms).
      now apply (mm_end_needs_more m).
    + unfold re_match, P_dmy. cbn [rmatch]. rewrite append_cons, append_nil_l.
      rewrite (dd_sep d) by assumption. rewrite <- (append_empty_r ms).
      now apply (mm_end_needs_more m).
  - unfold P_dm. apply re_match_whole. intros K' HK'.
    rewrite !append_assoc. cbn [rmatch]. rewrite !append_cons, !append_nil_l.
    rewrite (dd_sep d) by assumption.
    now apply (mm_end m).
Qed.

Lemma dm_before_dot {A : Type} (m d : Z) (ms ds : string) (g : groups)
    (K : string -> groups -> option A) (x : A) :
  1 <= d <= 31 -> 1 <= m <= 12 -> numeral_of m ms -> numeral_of d ds ->
  K "." g = Some x ->
  rmatch (dd · lit "." · mm)%re ((ds +:+ "." +:+ ms) +:+ ".") g K = Some x.
Proof.
  intros Hd Hm Hms Hds HK.
  assert (Hsep : separator ".") by (unfold separator; tauto).
  rewrite !append_assoc. cbn [rmatch]. rewrite !append_cons, !append_nil_l.
  rewrite (dd_sep d) by assumption.
  now apply (mm_before m).
Qed.

Lemma first_match_dm_dot (m d : Z) (ms ds : string) :
  1 <= d <= 31 -> 1 <= m <= 12 -> numeral_of m ms -> numeral_of d ds ->
  first_match PATTERNS_DATE (ds +:+ "." +:+ ms +:+ ".")
  = Some (ds +:+ "." +:+ ms, "%d.%m").
Proof.
  intros Hd Hm Hms Hds.
  destruct (dotted_early_patterns_fail d ds (ms +:+ ".") Hds Hd)
    as (H1 & H2 & H3).
  assert (Hsep : separator ".") by (unfold separator; tauto).
  assert (H4 : re_match P_dmY (ds +:+ "." +:+ ms +:+ ".") = None).
  { unfold re_match, P_dmY. cbn [rmatch]. rewrite !append_cons, !append_nil_l.
    rewrite (dd_sep d) by assumption. now rewrite (mm_sep m) by assumption. }
  assert (H5 : re_match P_dmy (ds +:+ "." +:+ ms +:+ ".") = None).
  { unfold re_match, P_dmy. cbn [rmatch]. rewrite !append_cons, !append_nil_l.
    rewrite (dd_sep d) by assumption. now rewrite (mm_sep m) by assumption. }
  assert (H6 : re_match P_dm (ds +:+ "." +:+ ms +:+ ".")
               = Some (MatchObj
                         (String.length (ds +:+ "." +:+ ms +:+ ".") - 1)
                         [("date", ds +:+ "." +:+ ms)])).
  { unfold re_match, P_dm.
    replace (ds +:+ "." +:+ ms +:+ ".") with ((ds +:+ "." +:+ ms) +:+ ".")
      by now rewrite !append_assoc.
    eapply grp_ok; [|reflexivity].
    intros K' HK'. now apply (dm_before_dot m d). }
  unfold PATTERNS_DATE. cbn [first_match]. rewrite H1, H2, H3, H4, H5, H6.
  reflexivity.
Qed.

Lemma first_match_md_slash (m d : Z) (ms ds : string) :
  1 <= d <= 31 -> 1 <= m <= 12 -> numeral_of m ms -> numeral_of d ds ->
  first_match PATTERNS_DATE (ms +:+ "/" +:+ ds)
  = Some (ms +:+ "/" +:+ ds, "%m/%d").
Proof.
  intros Hd Hm Hms Hds.
  destruct (slash_other_patterns_fail m ms ds Hms Hm)
    as (H1 & H2 & H3 & H4 & H5 & H6 & H7).
  assert (Hsep : separator "/") by (unfold separator; tauto).
  apply (whole_match P_md_slash _ "%m/%d"
           [(P_Ymd, _); (P_ymd, _); (P_md, _); (P_dmY, _); (P_dmy, _);
            (P_dm, _); (P_dm_dot, _); (P_mdY_slash, _); (P_mdy_slash, _)]).
  - repeat constructor; try assumption; cbn [fst].
    + unfold re_match, P_mdY_slash. cbn [rmatch].
      rewrite append_cons, append_nil_l.
      rewrite (mm_sep m) by assumption. rewrite <- (append_empty_r ds).
      now apply (dd_end_needs_more d).
    + unfold re_match, P_mdy_slash. cbn [rmatch].
      rewrite append_cons, append_nil_l.
      rewrite (mm_sep m) by assumption. rewrite <- (append_empty_r ds).
      now apply (dd_end_needs_more d).
  - unfold P_md_slash. apply re_match_whole. intros K' HK'.
    rewrite !append_assoc. cbn [rmatch]. rewrite !append_cons, !append_nil_l.
    rewrite (mm_sep m) by assumption.
    now apply (dd_end d).
Qed.

Lemma dot_ends_solid : starts_solid (rev_string "." EmptyString) = true.
Proof. reflexivity. Qed.

Lemma yearless_first_matches (m d : Z) (ms ds : string) :
  1 <= d <= 31 -> 1 <= m <= 12 -> numeral_of m ms -> numeral_of d ds ->
  (strip (ms +:+ "-" +:+ ds) = ms +:+ "-" +:+ ds
   /\ first_match PATTERNS_DATE (ms +:+ "-" +:+ ds)
      = Some (ms +:+ "-" +:+ ds, "%m-%d"))
  /\ (strip (ds +:+ "." +:+ ms) = ds +:+ "." +:+ ms
      /\ first_match PATTERNS_DATE (ds +:+ "." +:+ ms)
         = Some (ds +:+ "." +:+ ms, "%d.%m"))
  /\ (strip (ds +:+ "." +:+ ms +:+ ".") = ds +:+ "." +:+ ms +:+ "."
      /\ first_match PATTERNS_DATE (ds +:+ "." +:+ ms +:+ ".")
         = Some (ds +:+ "." +:+ ms, "%d.%m"))
  /\ (strip (ms +:+ "/" +:+ ds) = ms +:+ "/" +:+ ds
      /\ first_match PATTERNS_DATE (ms +:+ "/" +:+ ds)
         = Some (ms +:+ "/" +:+ ds, "%m/%d")).
Proof.
  intros Hd Hm Hms Hds.
  assert (Hm' : 1 <= m <= 31) by lia.
  destruct (numeral_solid m ms Hms Hm') as [Sm Em].
  destruct (numeral_solid d ds Hds Hd) as [Sd Ed].
  repeat split.
  - apply strip_solid; [now apply starts_solid_append|].
    now do 2 apply ends_solid_append.
  - now apply (first_match_md m d).
  - apply strip_solid; [now apply starts_solid_append|].
    now do 2 apply ends_solid_append.
  - now apply (first_match_dm m d).
  - apply strip_solid; [now apply starts_solid_append|].
    do 3 apply ends_solid_append. apply dot_ends_solid.
  - now apply (first_match_dm_dot m d).
  - apply strip_solid; [now apply starts_solid_append|].
    now do 2 apply ends_solid_append.
  - now apply (first_match_md_slash m d).
Qed.

Lemma strptime_yearless (first second : string) (sep : ascii) (y m d : Z)
    (regex_first regex_second : regex) (fmt : string) :
  0 <= y <= 9999 ->
  format_regex fmt false
  = Some (Seq regex_first
            (Seq (lit sep)
               (Seq regex_second (Seq (Plus is_space) (Seq RE_Y Eps))))) ->
  (forall (K : string -> groups -> option match_obj) (x : match_obj)
          (rest : string) (g : groups),
     K (String sep rest) ((
       match regex_first with Grp name _ => name | _ => EmptyString end,
       first) :: g) = Some x ->
     rmatch regex_first (first +:+ String sep rest) g K = Some x) ->
  (forall (K : string -> groups -> option match_obj) (x : match_obj)
          (rest : string) (g : groups),
     K (String " " rest) ((
       match regex_second with Grp name _ => name | _ => EmptyString end,
       second) :: g) = Some x ->
     rmatch regex_second (second +:+ String " " rest) g K = Some x) ->
  re_match (Seq regex_first
              (Seq (lit sep)
                 (Seq regex_second (Seq (Plus is_space) (Seq RE_Y Eps)))))
    ((first +:+ String sep second) +:+ " " +:+ four_digits y)
  = Some (MatchObj
            (String.length ((first +:+ String sep second) +:+ " "
                            +:+ four_digits y))
            [("Y", four_digits y);
             (match regex_second with Grp name _ => name | _ => EmptyString end,
              second);
             (match regex_first with Grp name _ => name | _ => EmptyString end,
              first)]).
Proof.
  intros Hy _ Hfirst Hsecond. unfold re_match.
  rewrite !append_assoc, !append_cons, !append_nil_l. cbn [rmatch].
  apply Hfirst. rewrite lit_ok. apply Hsecond.
  rewrite <- (append_empty_r (four_digits y)) at 1.
  rewrite plus_space_ok by exact Hy.
  unfold RE_Y. eapply grp_ok; [intros K' HK'; now rewrite (d4_ok y)|].
  cbn [rmatch String.length]. now rewrite Nat.sub_0_r.
Qed.

Lemma RE_d_before (d : Z) (ds : string) (sep : ascii) :
  numeral_of d ds -> 1 <= d <= 31 -> separator sep ->
  forall (K : string -> groups -> option match_obj) (x : match_obj)
         (rest : string) (g : groups),
    K (String sep rest) (("d", ds) :: g) = Some x ->
    rmatch RE_d (ds +:+ String sep rest) g K = Some x.
Proof.
  intros Hds Hd Hsep K x rest g HK. unfold RE_d.
  eapply grp_ok; [intros K' HK'; now apply (day_alts_sep d)|exact HK].
Qed.

Lemma RE_m_before (m : Z) (ms : string) (sep : ascii) :
  numeral_of m ms -> 1 <= m <= 12 -> separator sep ->
  forall (K : string -> groups -> option match_obj) (x : match_obj)
         (rest : string) (g : groups),
    K (String sep rest) (("m", ms) :: g) = Some x ->
    rmatch RE_m (ms +:+ String sep rest) g K = Some x.
Proof.
  intros Hms Hm Hsep K x rest g HK. unfold RE_m.
  eapply grp_ok; [intros K' HK'; now apply (month_alts_sep m)|exact HK].
Qed.

Lemma strptime_md_Y (y m d : Z) (ms ds : string) (sep : ascii) (fmt : string) :
  1 <= d <= 31 -> 1 <= m <= 12 -> 0 <= y <= 9999 ->
  numeral_of m ms -> numeral_of d ds ->
  (sep = "-"%char /\ fmt = "%m-%d %Y") \/ (sep = "/"%char /\ fmt = "%m/%d %Y") ->
  strptime ((ms +:+ String sep ds) +:+ " " +:+ four_digits y) fmt
  = mk_date y m d.
Proof.
  intros Hd Hm Hy Hms Hds Hfmt.
  assert (Hsep : separator sep)
    by (destruct Hfmt as [[-> _]|[-> _]]; unfold separator; tauto).
  assert (Hregex : format_regex fmt false
                   = Some (Seq RE_m (Seq (lit sep) (Seq RE_d
                             (Seq (Plus is_space) (Seq RE_Y Eps))))))
    by (destruct Hfmt as [[-> ->]|[-> ->]]; reflexivity).
  pose proof (strptime_yearless ms ds sep y m d RE_m RE_d fmt Hy Hregex
                (RE_m_before m ms sep Hms Hm Hsep)
                (RE_d_before d ds " " Hds Hd
                   ltac:(unfold separator; tauto))) as Hmatch.
  unfold strptime. rewrite Hregex, Hmatch. cbn [m_end m_groups].
  rewrite Nat.eqb_refl. cbn [negb].
  unfold year_of_groups, month_of_groups, day_of_groups.
  cbn [RE_m RE_d group String.eqb Ascii.eqb Bool.eqb].
  rewrite py_int_four_digits by lia.
  rewrite (numeral_value m ms), (numeral_value d ds) by (assumption || lia).
  reflexivity.
Qed.


Lemma parse_yearless (today : date) (text matched fmt fmt_year : string)
    (m d : Z) :
  1000 <= d_year today <= 9999 ->
  strip text = text ->
  first_match PATTERNS_DATE text = Some (matched, fmt) ->
  has_year fmt = false ->
  fmt +:+ " %Y" = fmt_year ->
  strptime (matched +:+ " " +:+ four_digits (d_year today)) fmt_year
  = mk_date (d_year today) m d ->
  parse_date today text = read_day_of_year today m d.
Proof.
  intros Hy Hstrip Hfirst Hfmt Hfmt_year Hstrptime. unfold parse_date.
  rewrite Hstrip, Hfirst.
  unfold has_year in Hfmt. apply orb_false_iff in Hfmt as [Ha Hb].
  rewrite Ha, Hb. cbn [negb andb]. cbv zeta.
  rewrite (strftime_year today Hy), Hfmt_year, Hstrptime.
  unfold mk_date, read_day_of_year.
  now destruct (valid_date (Date (d_year today) m d)).
Qed.

(** The layout [mm-dd] on a month and a day. *)
Lemma parse_dash (today : date) (m d : Z) (ms ds : string) :
  1000 <= d_year today <= 9999 ->
  1 <= d <= 31 -> 1 <= m <= 12 ->
  numeral_of m ms -> numeral_of d ds ->
  parse_date today (ms +:+ "-" +:+ ds) = read_day_of_year today m d.
Proof.
  intros Hy Hd Hm Hms Hds.
  destruct (yearless_first_matches m d ms ds Hd Hm Hms Hds) as ((S1 & F1) & _).
  apply (parse_yearless today _ _ "%m-%d" "%m-%d %Y" m d Hy S1 F1);
    try reflexivity.
  apply (strptime_md_Y _ m d ms ds "-"); auto; lia.
Qed.

Lemma february_days (y : Z) :
  1 <= y <= 9999 ->
  valid_date (Date y 2 14) = true /\ valid_date (Date y 2 29) = is_leap y.
Proof.
  intros Hy. unfold valid_date, days_in_month, MINYEAR, MAXYEAR.
  cbn [d_year d_month d_day]. change (2 =? 2) with true. cbv iota.
  assert ((1 <=? y) = true) as -> by lia.
  assert ((y <=? 9999) = true) as -> by lia.
  destruct (is_leap y); split; reflexivity.
Qed.

(** C4. Whatever the current year, as long as the clock writes it with
    four digits, [parse_date] reads 2-14 as February 14 without a year; it
    reads 2-29 as February 29 without a year exactly when the current year
    is a leap year and raises otherwise, because the text handed to
    [strptime] is the match followed by the current year. *)
Theorem parse_feb_by_current_year (today : date)
    (Htoday : valid_date today = true) (Hyear : 1000 <= d_year today) :
  parse_date today "2-14" = Ok (None, 2, 14)
  /\ parse_date today "2-29"
     = (if is_leap (d_year today) then Ok (None, 2, 29) else Raise ValueError)
  /\ parse_date today "2-29"
     = (d ← strptime ("2-29" +:+ strftime today " %Y") "%m-%d %Y";
        Ok (None, d_month d, d_day d)).
Proof.
  pose proof (valid_date_year today Htoday) as Hy.
  destruct (february_days (d_year today) Hy) as [H14 H29].
  split; [|split].
  - pose proof (parse_dash today 2 14 "2" "14" ltac:(lia) ltac:(lia) ltac:(lia)
                  ltac:(left; reflexivity) ltac:(left; reflexivity)) as H.
    change ("2" +:+ "-" +:+ "14") with "2-14" in H. rewrite H.
    unfold read_day_of_year. now rewrite H14.
  - pose proof (parse_dash today 2 29 "2" "29" ltac:(lia) ltac:(lia) ltac:(lia)
                  ltac:(left; reflexivity) ltac:(left; reflexivity)) as H.
    change ("2" +:+ "-" +:+ "29") with "2-29" in H. rewrite H.
    unfold read_day_of_year. now rewrite H29.
  - reflexivity.
Qed.

Lemma parse_feb_by_current_year_witness :
  parse_date (Date 2025 6 1) "2-14" = Ok (None, 2, 14)
  /\ parse_date (Date 2025 6 1) "2-29" = Raise ValueError
  /\ parse_date (Date 2024 6 1) "2-29" = Ok (None, 2, 29).
Proof.
  split; [|split].
  - apply (parse_feb_by_current_year (Date 2025 6 1) eq_refl ltac:(cbn; lia)).
  - apply (parse_feb_by_current_year (Date 2025 6 1) eq_refl ltac:(cbn; lia)).
  - apply (parse_feb_by_current_year (Date 2024 6 1) eq_refl ltac:(cbn; lia)).
Defined.



(** X27.  While the clock shows a year before 1000, which it writes with
    fewer than four digits, a text whose layout has no year is not read:
    [strptime] wants four digits for the year and raises the built-in
    [ValueError]. *)
Theorem yearless_before_year_1000 (today : date) (text matched fmt : string) :
  1 <= d_year today <= 999 ->
  first_match PATTERNS_DATE (strip text) = Some (matched, fmt) ->
  has_year fmt = false ->
  parse_date today text = Raise ValueError.
Proof.
  intros Hy Hf Hfmt. unfold parse_date. rewrite Hf.
  unfold has_year in Hfmt. apply orb_false_iff in Hfmt as [Ha Hb].
  rewrite Ha, Hb. cbn [negb andb]. cbv zeta.
  destruct (strptime (matched +:+ strftime today " %Y") (fmt +:+ " %Y"))
    as [d|e] eqn:Hs.
  - exfalso.
    destruct (yearless_date_in_clock_year today matched fmt d) as [H1000 _];
      try assumption; try lia.
    + exact (first_match_layout _ _ _ _ Hf).
    + unfold has_year. now rewrite Ha, Hb.
  - apply strptime_raises in Hs as ->. reflexivity.
Qed.

Lemma yearless_before_year_1000_witness :
  parse_date (Date 999 6 1) "2-14" = Raise ValueError.
Proof.
  exact (yearless_before_year_1000 (Date 999 6 1) "2-14" "2-14" "%m-%d"
           ltac:(cbn; lia) eq_refl eq_refl).
Defined.

(* ===================================================================== *)
(** * Further properties of the commands *)
(* ===================================================================== *)

Lemma birthday_parse_failure (user_id guild_id : Z) (text : string)
    (today : date) (defaults : datetime * datetime) (now : datetime)
    (db : table) (e : exn) :
  text <> EmptyString ->
  parse_date today text = Raise e ->
  birthday user_id guild_id (Some text) today defaults now db
  = (db, parse_failure_reply e).
Proof.
  intros Ht Hp. destruct text as [|c t]; [congruence|].
  unfold birthday. rewrite Hp. now destruct e.
Qed.

Lemma birthday_without_text (user_id guild_id : Z) (text : option string)
    (today : date) (defaults : datetime * datetime) (now : datetime)
    (db : table) :
  text = None \/ text = Some EmptyString ->
  fst (birthday user_id guild_id text today defaults now db) = db.
Proof.
  intros [->| ->]; unfold birthday; now destruct (safe_get db user_id guild_id).
Qed.

Lemma Birthday_str_columns (b : Birthday) (ln : option datetime) (en : bool)
    (dc du : datetime) :
  Birthday_str (mkBirthday (year b) (month b) (day b) ln en dc du)
  = Birthday_str b.
Proof. reflexivity. Qed.

(** A new row of the parser's year, month and day is never refused. *)
Lemma Manager_create_new (pk : Z * Z) (y : option Z) (m d : Z)
    (defaults : datetime * datetime) (now : datetime) (db : table) :
  db !! pk = None ->
  fits_column (f_year y) = true -> smallint m = true -> smallint d = true ->
  Manager_create pk y m d defaults now db
  = Ok (ModelObj pk (mkBirthday y m d None true (fst defaults) (snd defaults)),
        <[pk := mkBirthday y m d None true (fst defaults) now]> db).
Proof.
  intros Hk Hy Hm Hd. unfold Manager_create. rewrite Hk.
  cbn [map ALL_COLUMNS value_of set_field forallb year month day
       last_notified enabled date_created date_updated].
  cbn [fits_column] in *. rewrite Hy, Hm, Hd. reflexivity.
Qed.

Lemma birthday_set (user_id guild_id : Z) (text : string)
    (today : date) (defaults : datetime * datetime) (now : datetime)
    (db : table) (y : option Z) (m d : Z) :
  text <> EmptyString ->
  parse_date today text = Ok (y, m, d) ->
  birthday user_id guild_id (Some text) today defaults now db
  = (<[(user_id, guild_id) :=
         stored_row (db !! (user_id, guild_id)) y m d defaults now]> db,
     shown ← Birthday_str (mkBirthday y m d None true now now);
     Ok (Embed None ("Your birthday was set to `" +:+ shown +:+ "`"))).
Proof.
  intros Ht Hp. destruct text as [|c t]; [congruence|].
  destruct (parse_date_fits _ _ _ _ _ Hp) as (Hy & Hm & Hd).
  unfold birthday. rewrite Hp. unfold safe_get.
  destruct (db !! (user_id, guild_id)) as [b|] eqn:Hk; cbn [truthy stored_row].
  - rewrite update_fields_date by assumption.
    f_equal. apply map_eq. intros k. rewrite lookup_alter, lookup_insert.
    destruct (decide ((user_id, guild_id) = k)) as [<-|Hne]; [|reflexivity].
    rewrite Hk. reflexivity.
  - now rewrite Manager_create_new by assumption.
Qed.

Lemma valid_in_leap_year (yr m d : Z) :
  valid_date (Date yr m d) = true -> valid_date (Date 2000 m d) = true.
Proof.
  unfold valid_date, MINYEAR, MAXYEAR, days_in_month. cbn [d_year d_month d_day].
  rewrite !andb_true_iff, !Z.leb_le.
  intros (((((H1 & H2) & H3) & H4) & H5) & H6).
  repeat split; try assumption; try lia.
  change (is_leap 2000) with true.
  destruct (m =? 2); [destruct (is_leap yr); lia|].
  destruct ((m =? 4) || (m =? 6) || (m =? 9) || (m =? 11)); lia.
Qed.

Lemma parse_date_stored_ok (today : date) (text : string) (y : option Z)
    (m d : Z) (ln : option datetime) (en : bool) (dc du : datetime) :
  parse_date today text = Ok (y, m, d) ->
  stored_date_ok (mkBirthday y m d ln en dc du) = true.
Proof.
  intros H. apply parse_date_Ok_some_year in H. unfold stored_date_ok.
  cbn [year month day]. destruct y as [yy|].
  - apply H.
  - destruct H as [yr H]. now apply valid_in_leap_year in H.
Qed.

Lemma Birthday_str_stored_ok (b : Birthday) :
  stored_date_ok b = true -> exists shown, Birthday_str b = Ok shown.
Proof.
  unfold stored_date_ok, Birthday_str. destruct (year b) as [y|]; [|eauto].
  intros Hv. destruct (y =? 0); [eauto|].
  unfold mk_date. rewrite Hv. cbn. eauto.
Qed.



(** X7.  The [birthday] command writes at most the record of the caller:
    every other record is as before, and the whole table is as before when
    no text is given, when the text is empty and when the parser
    raises. *)
Theorem birthday_writes_own_record_only (user_id guild_id : Z)
    (text : option string) (today : date) (defaults : datetime * datetime)
    (now : datetime) (db : table) :
  let db' := fst (birthday user_id guild_id text today defaults now db) in
  (forall k, k <> (user_id, guild_id) -> db' !! k = db !! k)
  /\ (text = None \/ text = Some EmptyString -> db' = db)
  /\ (forall (t : string) (e : exn),
        text = Some t -> parse_date today t = Raise e -> db' = db).
Proof.
  cbv zeta.
  assert (Hget : forall o, o = None \/ o = Some EmptyString ->
            fst (birthday user_id guild_id o today defaults now db) = db)
    by (intros o; apply birthday_without_text).
  assert (Hfail : forall t e, parse_date today t = Raise e ->
            fst (birthday user_id guild_id (Some t) today defaults now db) = db).
  { intros t e Hp. destruct (decide (t = EmptyString)) as [->|Ht].
    - apply Hget. now right.
    - now rewrite (birthday_parse_failure _ _ _ _ _ _ _ _ Ht Hp). }
  split; [|split].
  - intros k Hk. destruct text as [t|]; [|now rewrite Hget by now left].
    destruct (decide (t = EmptyString)) as [->|Ht];
      [now rewrite Hget by now right|].
    destruct (parse_date today t) as [[[y m] d]|e] eqn:Hp.
    + rewrite (birthday_set _ _ _ _ _ _ _ _ _ _ Ht Hp). cbn [fst].
      now rewrite lookup_insert_ne.
    + now rewrite (Hfail t e Hp).
  - apply Hget.
  - intros t e -> Hp. now apply (Hfail t e).
Qed.

Lemma birthday_writes_own_record_only_witness :
  fst (birthday 1 1 (Some "no date") sample_today sample_defaults sample_now
         sample_db)
  = sample_db.
Proof.
  destruct (birthday_writes_own_record_only 1 1 (Some "no date") sample_today
              sample_defaults sample_now sample_db) as (_ & _ & H).
  exact (H "no date" (BirthdayParseError MSG_CANNOT_PARSE) eq_refl eq_refl).
Defined.

(** X8.  The first time a member sets a birthday the command creates the
    record: year, month and day as parsed, [last_notified] null, [enabled]
    true; [date_created] is the reading of the clock the new instance took
    for that field's default, and [date_updated] the later reading of
    [BaseModel.insert], which replaces the default the instance took for
    that field; nothing else is added.  The instance the manager hands
    back still holds its own default for [date_updated]. *)
Theorem birthday_first_set_creates (user_id guild_id : Z) (text : string)
    (today : date) (defaults : datetime * datetime) (now : datetime)
    (db : table) (y : option Z) (m d : Z) :
  db !! (user_id, guild_id) = None ->
  text <> EmptyString ->
  parse_date today text = Ok (y, m, d) ->
  fst (birthday user_id guild_id (Some text) today defaults now db)
  = <[(user_id, guild_id) := mkBirthday y m d None true (fst defaults) now]> db
  /\ Manager_create (user_id, guild_id) y m d defaults now db
     = Ok (ModelObj (user_id, guild_id)
             (mkBirthday y m d None true (fst defaults) (snd defaults)),
           <[(user_id, guild_id) := mkBirthday y m d None true (fst defaults) now]>
             db).
Proof.
  intros Hk Ht Hp. split.
  - rewrite (birthday_set _ _ _ _ _ _ _ _ _ _ Ht Hp).
    cbn [fst]. now rewrite Hk.
  - destruct (parse_date_fits _ _ _ _ _ Hp) as (Hy & Hm & Hd).
    now apply Manager_create_new.
Qed.

Lemma birthday_first_set_creates_witness :
  fst (birthday 5 1 (Some "2-14") sample_today sample_defaults sample_now
         sample_db)
  = <[(5, 1) := mkBirthday None 2 14 None true (sample_now - 2) sample_now]>
      sample_db.
Proof.
  exact (proj1 (birthday_first_set_creates 5 1 "2-14" sample_today
                  sample_defaults sample_now sample_db
                  None 2 14 eq_refl ltac:(discriminate) eq_refl)).
Defined.

(** X9.  Setting a birthday always succeeds once the text has parsed, and
    the date shown in the reply is the date the command shows from then
    on: the reply to the set is "Your birthday was set to" followed by the
    rendered date, and asking without a text, at any later time, answers
    "Your birthday is on" followed by the same rendered date and leaves
    the table alone. *)
Theorem birthday_set_then_get (user_id guild_id : Z) (text : string)
    (today : date) (defaults : datetime * datetime) (now : datetime)
    (db : table) (y : option Z) (m d : Z) :
  text <> EmptyString ->
  parse_date today text = Ok (y, m, d) ->
  let r := birthday user_id guild_id (Some text) today defaults now db in
  exists shown : string,
    snd r = Ok (Embed None ("Your birthday was set to `" +:+ shown +:+ "`"))
    /\ forall (today' : date) (defaults' : datetime * datetime)
              (now' : datetime),
         birthday user_id guild_id None today' defaults' now' (fst r)
         = (fst r, Ok (Embed None ("Your birthday is on `" +:+ shown +:+ "`"))).
Proof.
  intros Ht Hp. cbv zeta. rewrite (birthday_set _ _ _ _ _ _ _ _ _ _ Ht Hp).
  cbn [fst snd].
  destruct (Birthday_str_stored_ok (mkBirthday y m d None true now now)
              (parse_date_stored_ok _ _ _ _ _ _ _ _ _ Hp)) as [shown Hs].
  exists shown. rewrite Hs. split; [reflexivity|].
  intros today' defaults' now'. unfold birthday, safe_get.
  rewrite lookup_insert_eq.
  assert (Hrow : Birthday_str
                   (stored_row (db !! (user_id, guild_id)) y m d defaults now)
                 = Ok shown).
  { rewrite <- Hs. now destruct (db !! (user_id, guild_id)). }
  now rewrite Hrow.
Qed.

Lemma birthday_set_then_get_witness :
  exists shown : string,
    snd (birthday 1 1 (Some "14.02.1990") sample_today sample_defaults
           sample_now sample_db)
    = Ok (Embed None ("Your birthday was set to `" +:+ shown +:+ "`")).
Proof.
  destruct (birthday_set_then_get 1 1 "14.02.1990" sample_today sample_defaults
              sample_now sample_db (Some 1990) 2 14 ltac:(discriminate) eq_refl)
    as (shown & H & _).
  exists shown. exact H.
Defined.

Lemma birthday_delete_table (user_id guild_id : Z) (db : table) :
  birthday_delete user_id guild_id db
  = (delete (user_id, guild_id) db,
     match db !! (user_id, guild_id) with
     | Some _ => Ok (Embed None MSG_DELETED)
     | None => Ok (Embed (Some "Error") MSG_NOTHING_TO_DELETE)
     end).
Proof.
  unfold birthday_delete, safe_get.
  destruct (db !! (user_id, guild_id)) as [b|] eqn:Hk; cbn [truthy Manager_delete].
  - reflexivity.
  - now rewrite delete_id.
Qed.

(** X10.  After [birthday delete] (or [unbirthday]) the record of the
    caller is gone and every other record is as before; the command then
    answers that no birthday is set, and a second delete answers with the
    error reply and changes nothing. *)
Theorem birthday_delete_forgets (user_id guild_id : Z) (db : table)
    (today : date) (defaults : datetime * datetime) (now : datetime) :
  let db' := fst (birthday_delete user_id guild_id db) in
  db' !! (user_id, guild_id) = None
  /\ (forall k, k <> (user_id, guild_id) -> db' !! k = db !! k)
  /\ unbirthday user_id guild_id db = birthday_delete user_id guild_id db
  /\ birthday user_id guild_id None today defaults now db'
     = (db', Ok (Embed None MSG_NOT_SET))
  /\ birthday_delete user_id guild_id db'
     = (db', Ok (Embed (Some "Error") MSG_NOTHING_TO_DELETE)).
Proof.
  cbv zeta. unfold unbirthday. rewrite birthday_delete_table. cbn [fst].
  split; [apply lookup_delete_eq|].
  split; [intros k Hk; now apply lookup_delete_ne|].
  split; [reflexivity|]. split.
  - unfold birthday, safe_get. now rewrite lookup_delete_eq.
  - rewrite birthday_delete_table, lookup_delete_eq.
    now rewrite delete_id by apply lookup_delete_eq.
Qed.

(** X11.  Setting a birthday where there was none and deleting it again
    gives back the table as it was, with the reply that the birthday was
    deleted. *)
Theorem birthday_set_then_delete (user_id guild_id : Z) (text : string)
    (today : date) (defaults : datetime * datetime) (now : datetime)
    (db : table) (y : option Z) (m d : Z) :
  db !! (user_id, guild_id) = None ->
  text <> EmptyString ->
  parse_date today text = Ok (y, m, d) ->
  birthday_delete user_id guild_id
    (fst (birthday user_id guild_id (Some text) today defaults now db))
  = (db, Ok (Embed None MSG_DELETED)).
Proof.
  intros Hk Ht Hp. rewrite (birthday_set _ _ _ _ _ _ _ _ _ _ Ht Hp). cbn [fst].
  rewrite birthday_delete_table, lookup_insert_eq.
  now rewrite delete_insert_eq, delete_id.
Qed.

Lemma birthday_set_then_delete_witness :
  birthday_delete 5 1
    (fst (birthday 5 1 (Some "2-14") sample_today sample_defaults sample_now
            sample_db))
  = (sample_db, Ok (Embed None MSG_DELETED)).
Proof.
  exact (birthday_set_then_delete 5 1 "2-14" sample_today sample_defaults
           sample_now sample_db
           None 2 14 eq_refl ltac:(discriminate) eq_refl).
Defined.

(** X12.  [on_member_ban] never deletes anything: the name [birthday]
    holds the coroutine object of the [safe_get] that was not awaited,
    which is truthy, and [manager.delete] fails on it; the record of the
    banned member stays in the table. *)
Theorem member_ban_deletes_nothing (user_id guild_id : Z) (db : table) :
  on_member_ban user_id guild_id db = (db, Raise AttributeError)
  /\ forall k, fst (on_member_ban user_id guild_id db) !! k = db !! k.
Proof. split; [reflexivity|]. intros k. reflexivity. Qed.

(* ===================================================================== *)
(** * Further properties of the sweeps and of the table *)
(* ===================================================================== *)

Lemma retention_sweep_row (now : datetime) (db : table) (k : Z * Z) :
  snd (birthday_cron_retention now db) !! k
  = match db !! k with
    | Some b => if retention_due now b then None else Some b
    | None => None
    end.
Proof.
  unfold birthday_cron_retention. rewrite retention_fold_lookup. cbn [snd].
  destruct (decide (k ∈ (select (retention_due now) db).*1)) as [Hin|Hout].
  - apply elem_of_select_keys in Hin as (b & Hb & Hp). now rewrite Hb, Hp.
  - destruct (db !! k) as [b|] eqn:Hb; [|reflexivity].
    destruct (retention_due now b) eqn:Hp; [|reflexivity].
    exfalso. apply Hout. apply elem_of_select_keys. eauto.
Qed.

Lemma notify_sweep_lookup (gg : Z -> option Guild) (env : Z * Z -> attempt)
    (today : date) (db : table) (k : Z * Z) :
  snd (birthday_cron_notify gg env today db) !! k
  = after_notify gg env today k <$> db !! k.
Proof.
  pose proof (notify_sweep_row gg env today db k) as H. cbv zeta in H.
  unfold after_notify. destruct (db !! k) as [b|]; cbn [fmap option_fmap option_map].
  - destruct (notified gg env today k b); apply H.
  - apply H.
Qed.

Lemma notify_sweep_sends (gg : Z -> option Guild) (env : Z * Z -> attempt)
    (today : date) (db : table) (k : Z * Z) :
  sends_to k (fst (birthday_cron_notify gg env today db))
  = match db !! k with
    | Some b => if notified gg env today k b then 1%nat else 0%nat
    | None => 0%nat
    end.
Proof.
  pose proof (notify_sweep_row gg env today db k) as H. cbv zeta in H.
  destruct (db !! k) as [b|].
  - destruct (notified gg env today k b); apply H.
  - apply H.
Qed.

Lemma after_notify_columns (gg : Z -> option Guild) (env : Z * Z -> attempt)
    (today : date) (k : Z * Z) (b : Birthday) :
  let b' := after_notify gg env today k b in
  year b' = year b /\ month b' = month b /\ day b' = day b
  /\ enabled b' = enabled b /\ date_created b' = date_created b.
Proof.
  unfold after_notify.
  destruct (notified gg env today k b); cbn; auto.
Qed.

(** The entry of a due row in the log of a sweep. *)
Lemma notify_sweep_entry (gg : Z -> option Guild) (env : Z * Z -> attempt)
    (today : date) (db : table) (k : Z * Z) (b : Birthday) :
  db !! k = Some b -> notify_due today b = true ->
  (k, fst (try_notify gg (env k) k b today ∅))
  ∈ fst (birthday_cron_notify gg env today db).
Proof. intros Hk Hdue. apply notify_sweep_log. eauto. Qed.

(** A row that is not due has no entry. *)
Lemma notify_sweep_no_entry (gg : Z -> option Guild) (env : Z * Z -> attempt)
    (today : date) (db : table) (k : Z * Z) (o : outcome) :
  (forall b, db !! k = Some b -> notify_due today b = false) ->
  (k, o) ∉ fst (birthday_cron_notify gg env today db).
Proof.
  intros Hnot Hin. apply notify_sweep_log in Hin as (b & Hk & Hdue & _).
  specialize (Hnot b Hk). congruence.
Qed.

(** A date that [datetime.date] accepted when the row was written is
    there for [try_notify]. *)
Lemma stored_date_exists (b : Birthday) :
  stored_date_ok b = true -> date_exists b = true.
Proof.
  unfold stored_date_ok, date_exists. destruct (year b) as [y|]; [|reflexivity].
  intros ->. apply orb_true_r.
Qed.

Lemma retention_due_enabled (now : datetime) (b : Birthday) :
  enabled b = true -> retention_due now b = false.
Proof. unfold retention_due. now intros ->. Qed.

Lemma notify_due_enabled (today : date) (b : Birthday) :
  enabled b = false -> notify_due today b = false.
Proof. unfold notify_due. now intros ->. Qed.

Lemma retention_due_later (now now' : datetime) (b : Birthday) :
  now <= now' -> retention_due now b = true -> retention_due now' b = true.
Proof.
  unfold retention_due, minus_days. intros Hle.
  rewrite !andb_true_iff, !Z.ltb_lt. intros [He Hd]. split; [exact He|lia].
Qed.

(** X13.  A notify sweep never adds or removes a row and writes no column
    other than [last_notified] and [date_updated]; a row that is not due
    (among them every disabled row) is left exactly as it is and has no
    attempt.  A row that is due has one attempt.  Without guild, system
    channel or member the attempt gives up.  With them, the attempt raises
    [ValueError] when the row has a year and its year, month and day are
    no date of the calendar, before anything is sent; it raises when the
    send does; in both cases the row is left as it is, nothing is sent,
    and the sweep ends with an exception instead of returning.  Otherwise
    one message goes to the system channel and the row gets the reading of
    the clock of the attempt in [last_notified] and the reading of
    [BaseModel.update] in [date_updated].  A row written by the [birthday]
    command always holds a date that exists. *)
Theorem notify_sweep_frame (gg : Z -> option Guild) (env : Z * Z -> attempt)
    (today : date) (db : table) (k : Z * Z) :
  let r := birthday_cron_notify gg env today db in
  match db !! k with
  | None => snd r !! k = None /\ forall o, (k, o) ∉ fst r
  | Some b =>
      exists b',
        snd r !! k = Some b'
        /\ year b' = year b /\ month b' = month b /\ day b' = day b
        /\ enabled b' = enabled b /\ date_created b' = date_created b
        /\ (notify_due today b = false -> b' = b /\ forall o, (k, o) ∉ fst r)
        /\ (enabled b = false -> b' = b /\ forall o, (k, o) ∉ fst r)
        /\ (notify_due today b = true ->
            (forall o o', (k, o) ∈ fst r -> (k, o') ∈ fst r -> o = o')
            /\ match resolve gg k with
               | None =>
                   (k, Abandoned) ∈ fst r /\ b' = b
                   /\ sends_to k (fst r) = 0%nat
               | Some (channel, mention) =>
                   if date_exists b
                   then if send_ok (env k)
                        then (exists e, (k, Sent channel e) ∈ fst r)
                             /\ b' = notified_at (clock (env k))
                                       (clock_update (env k)) b
                             /\ sends_to k (fst r) = 1%nat
                        else (k, Failed HTTPException) ∈ fst r /\ b' = b
                             /\ sends_to k (fst r) = 0%nat
                             /\ ~ gather (fst r) (Ok tt)
                   else (k, Failed ValueError) ∈ fst r /\ b' = b
                        /\ sends_to k (fst r) = 0%nat
                        /\ ~ gather (fst r) (Ok tt)
               end)
        /\ (stored_date_ok b = true -> date_exists b = true)
  end.
Proof.
  cbv zeta. rewrite notify_sweep_lookup, notify_sweep_sends.
  destruct (db !! k) as [b|] eqn:Hk; cbn [fmap option_fmap option_map].
  2:{ split; [reflexivity|]. intros o. apply notify_sweep_no_entry.
      intros b Hb. congruence. }
  exists (after_notify gg env today k b).
  destruct (after_notify_columns gg env today k b) as (H1 & H2 & H3 & H4 & H5).
  repeat (split; [assumption || reflexivity|]).
  assert (Hnot : notify_due today b = false ->
            after_notify gg env today k b = b
            /\ forall o, (k, o) ∉ fst (birthday_cron_notify gg env today db)).
  { intros Hd. unfold after_notify, notified. rewrite Hd. split; [reflexivity|].
    intros o. apply notify_sweep_no_entry. intros b0 Hb0. congruence. }
  split; [exact Hnot|]. split; [|split; [|apply stored_date_exists]].
  - intros He. apply Hnot. now apply notify_due_enabled.
  - intros Hd. split.
    + intros o o' Ho Ho'.
      apply notify_sweep_log in Ho as (b1 & Hb1 & _ & ->).
      apply notify_sweep_log in Ho' as (b2 & Hb2 & _ & ->). congruence.
    + pose proof (notify_sweep_entry gg env today db k b Hk Hd) as Hentry.
      pose proof (try_notify_report gg (env k) k b today ∅) as Hreport.
      unfold after_notify, notified, delivers. rewrite Hd. cbn [andb].
      destruct (resolve gg k) as [[channel mention]|].
      * destruct (date_exists b); cbn [andb].
        -- destruct (send_ok (env k)).
           ++ destruct Hreport as (e & He). rewrite He in Hentry. eauto.
           ++ rewrite Hreport in Hentry.
              repeat (split; [assumption || reflexivity|]).
              now apply (gather_raised _ k HTTPException).
        -- rewrite Hreport in Hentry.
           repeat (split; [assumption || reflexivity|]).
           now apply (gather_raised _ k ValueError).
      * rewrite Hreport in Hentry. rewrite andb_false_r. auto.
Qed.

Lemma notify_sweep_frame_witness :
  snd (birthday_cron_notify sample_guild sample_env sample_today
         sample_disabled_db) !! (1, 1) = Some sample_stale.
Proof.
  pose proof (notify_sweep_frame sample_guild sample_env sample_today
                sample_disabled_db (1, 1)) as H.
  cbv zeta in H.
  change (sample_disabled_db !! (1, 1)) with (Some sample_stale) in H.
  destruct H as (b' & Hb' & _ & _ & _ & _ & _ & _ & He & _).
  destruct (He eq_refl) as [-> _]. exact Hb'.
Defined.

(** X14.  An attempt that sends nothing (no guild, no system channel, no
    member, a row whose date does not exist, or a send that raises) leaves
    the row as it was, so the row is still due: a later sweep of the same
    day selects it again, and sends once if the date of the row exists and
    the attempt then gets through; for a row whose date does not exist no
    sweep ever sends.  When guild, channel and member were there, the
    attempt has raised, and the sweep ended with an exception instead of
    returning; when they were not, the attempt gave up and raised
    nothing. *)
Theorem failed_attempt_stays_due (gg : Z -> option Guild)
    (env : Z * Z -> attempt) (today : date) (db : table) (k : Z * Z)
    (b : Birthday) :
  db !! k = Some b ->
  notify_due today b = true ->
  date_exists b && delivers gg (env k) k = false ->
  let r := birthday_cron_notify gg env today db in
  snd r !! k = Some b
  /\ sends_to k (fst r) = 0%nat
  /\ k ∈ (select (notify_due today) (snd r)).*1
  /\ (forall env' : Z * Z -> attempt,
        sends_to k (fst (birthday_cron_notify gg env' today (snd r)))
        = if date_exists b && delivers gg (env' k) k then 1%nat else 0%nat)
  /\ (resolve gg k <> None ->
        (exists e, (k, Failed e) ∈ fst r) /\ ~ gather (fst r) (Ok tt))
  /\ (resolve gg k = None -> (k, Abandoned) ∈ fst r).
Proof.
  intros Hk Hdue Hfail. cbv zeta.
  assert (Hrow : snd (birthday_cron_notify gg env today db) !! k = Some b).
  { rewrite notify_sweep_lookup, Hk. cbn. unfold after_notify, notified.
    now rewrite <- andb_assoc, Hfail, andb_false_r. }
  pose proof (notify_sweep_entry gg env today db k b Hk Hdue) as Hentry.
  pose proof (try_notify_report gg (env k) k b today ∅) as Hreport.
  split; [exact Hrow|]. split; [|split; [|split; [|split]]].
  - rewrite notify_sweep_sends, Hk. unfold notified.
    now rewrite <- andb_assoc, Hfail, andb_false_r.
  - apply elem_of_select_keys. eauto.
  - intros env'. rewrite notify_sweep_sends, Hrow. unfold notified.
    now rewrite Hdue.
  - intros Hres. unfold delivers in Hfail.
    destruct (resolve gg k) as [[channel mention]|]; [|congruence].
    destruct (date_exists b); cbn [andb] in Hfail.
    + rewrite Hfail in Hreport. rewrite Hreport in Hentry.
      split; [eauto|]. now apply (gather_raised _ k HTTPException).
    + rewrite Hreport in Hentry.
      split; [eauto|]. now apply (gather_raised _ k ValueError).
  - intros Hres. rewrite Hres in Hreport. now rewrite Hreport in Hentry.
Qed.

Lemma failed_attempt_stays_due_witness :
  (2, 1) ∈ (select (notify_due sample_today)
              (snd (birthday_cron_notify (fun _ => None) sample_env sample_today
                      sample_db))).*1.
Proof.
  destruct (failed_attempt_stays_due (fun _ => None) sample_env sample_today
              sample_db (2, 1) (mkBirthday None 11 3 None true 7 8)
              eq_refl eq_refl eq_refl) as (_ & _ & H & _).
  exact H.
Defined.

(** X15.  The retention sweep only removes rows: what it leaves is part
    of the table it started from, enabled rows are all kept, and a sweep
    at a later time removes everything an earlier one would have removed,
    so that running the earlier one first changes nothing; in particular
    a second sweep at the same time deletes nothing more. *)
Theorem retention_sweep_monotone (now now' : datetime) (db : table) :
  now <= now' ->
  snd (birthday_cron_retention now db) ⊆ db
  /\ (forall k b, db !! k = Some b -> enabled b = true ->
        snd (birthday_cron_retention now db) !! k = Some b)
  /\ snd (birthday_cron_retention now' (snd (birthday_cron_retention now db)))
     = snd (birthday_cron_retention now' db)
  /\ snd (birthday_cron_retention now (snd (birthday_cron_retention now db)))
     = snd (birthday_cron_retention now db).
Proof.
  intros Hle. split; [|split; [|split]].
  - apply map_subseteq_spec. intros k b. rewrite retention_sweep_row.
    destruct (db !! k) as [b0|]; [|discriminate].
    now destruct (retention_due now b0).
  - intros k b Hk He. rewrite retention_sweep_row, Hk.
    now rewrite retention_due_enabled.
  - apply map_eq. intros k. rewrite !retention_sweep_row.
    destruct (db !! k) as [b|]; [|reflexivity].
    destruct (retention_due now b) eqn:Hd.
    + now rewrite (retention_due_later now now' b Hle Hd).
    + reflexivity.
  - apply map_eq. intros k. rewrite !retention_sweep_row.
    destruct (db !! k) as [b|]; [|reflexivity].
    destruct (retention_due now b) eqn:Hd; [reflexivity|]. now rewrite Hd.
Qed.

Lemma retention_sweep_monotone_witness :
  snd (birthday_cron_retention (sample_now + 1)
         (snd (birthday_cron_retention sample_now sample_disabled_db)))
  = snd (birthday_cron_retention (sample_now + 1) sample_disabled_db).
Proof.
  destruct (retention_sweep_monotone sample_now (sample_now + 1)
              sample_disabled_db ltac:(unfold sample_now; lia))
    as (_ & _ & H & _).
  exact H.
Defined.

(** X16.  The two sweeps do not interfere: the retention sweep removes
    disabled rows only and the notify sweep writes enabled rows only, so
    running them in either order leaves the same table, and the notify
    sweep sends the same with or without a retention sweep before it. *)
Theorem sweeps_commute (gg : Z -> option Guild) (env : Z * Z -> attempt)
    (today : date) (now : datetime) (db : table) :
  snd (birthday_cron_retention now (snd (birthday_cron_notify gg env today db)))
  = snd (birthday_cron_notify gg env today (snd (birthday_cron_retention now db)))
  /\ forall k,
       sends_to k (fst (birthday_cron_notify gg env today
                          (snd (birthday_cron_retention now db))))
       = sends_to k (fst (birthday_cron_notify gg env today db)).
Proof.
  split.
  - apply map_eq. intros k.
    rewrite retention_sweep_row, !notify_sweep_lookup, retention_sweep_row.
    destruct (db !! k) as [b|]; cbn [fmap option_fmap option_map]; [|reflexivity].
    unfold after_notify at 1 2. unfold notified.
    destruct (retention_due now b) eqn:Hr.
    + assert (He : enabled b = false).
      { unfold retention_due in Hr. apply andb_true_iff in Hr as [He _].
        now apply negb_true_iff in He. }
      rewrite (notify_due_enabled today b He). cbn [andb]. now rewrite Hr.
    + cbn [fmap option_fmap option_map]. unfold after_notify, notified.
      destruct (notify_due today b) eqn:Hd; cbn [andb]; [|now rewrite Hr].
      destruct (date_exists b && delivers gg (env k) k); [|now rewrite Hr].
      rewrite retention_due_enabled; [reflexivity|].
      cbn. unfold notify_due in Hd.
      now destruct (enabled b).
  - intros k. rewrite !notify_sweep_sends, retention_sweep_row.
    destruct (db !! k) as [b|]; [|reflexivity].
    destruct (retention_due now b) eqn:Hr; [|reflexivity].
    assert (He : enabled b = false).
    { unfold retention_due in Hr. apply andb_true_iff in Hr as [He _].
      now apply negb_true_iff in He. }
    unfold notified. now rewrite (notify_due_enabled today b He).
Qed.

(** ** [update_fields] *)

Lemma set_field_value (b row' : Birthday) (c0 c : column) :
  value_of (set_field b (value_of row' c0)) c
  = if decide (c = c0) then value_of row' c else value_of b c.
Proof. destruct c0, c; reflexivity. Qed.

(** Writing the values an instance holds for some columns: those columns
    take the values of the instance, the others keep theirs. *)
Lemma foldl_set_values (row' : Birthday) (cs : list column) :
  forall (b : Birthday) (c : column),
    value_of (foldl set_field b (map (value_of row') cs)) c
    = if decide (c ∈ cs) then value_of row' c else value_of b c.
Proof.
  induction cs as [|c0 cs IH]; intros b c; cbn [map foldl].
  - rewrite decide_False by apply not_elem_of_nil. reflexivity.
  - rewrite IH, set_field_value.
    destruct (decide (c ∈ cs)) as [Hin|Hout].
    + rewrite decide_True by now apply list_elem_of_further. reflexivity.
    + destruct (decide (c = c0)) as [->|Hne].
      * rewrite decide_True by apply list_elem_of_here. reflexivity.
      * rewrite decide_False; [reflexivity|]. rewrite elem_of_cons. tauto.
Qed.

Lemma date_updated_named (row' : Birthday) (cs : list column) :
  existsb is_date_updated (map (value_of row') cs)
  = bool_decide (c_date_updated ∈ cs).
Proof.
  induction cs as [|c cs IH]; [reflexivity|].
  cbn [map existsb]. rewrite IH.
  destruct (decide (c = c_date_updated)) as [->|Hne].
  - cbn. symmetry. apply bool_decide_eq_true. apply list_elem_of_here.
  - assert (is_date_updated (value_of row' c) = false) as ->
      by (destruct c; congruence || reflexivity).
    cbn [orb]. apply bool_decide_ext. rewrite elem_of_cons.
    split; [tauto|]. intros [Heq|H]; [congruence|exact H].
Qed.

(** The row an update leaves: the columns named take the values of the
    instance, [date_updated] is stamped unless named, the rest is kept. *)
Lemma updated_value (row' : Birthday) (cs : list column) (now : datetime)
    (b : Birthday) (c : column) :
  value_of (foldl set_field b (BaseModel_update now (map (value_of row') cs))) c
  = if decide (c ∈ cs) then value_of row' c
    else if decide (c = c_date_updated) then f_date_updated now
    else value_of b c.
Proof.
  unfold BaseModel_update. rewrite date_updated_named.
  destruct (decide (c_date_updated ∈ cs)) as [Hin|Hout].
  - rewrite bool_decide_eq_true_2 by assumption. rewrite foldl_set_values.
    destruct (decide (c ∈ cs)) as [|Hc]; [reflexivity|].
    rewrite decide_False by congruence. reflexivity.
  - rewrite bool_decide_eq_false_2 by assumption. rewrite foldl_app.
    cbn [foldl].
    set (x := foldl set_field b (map (value_of row') cs)).
    assert (Hx : value_of x c
                 = if decide (c ∈ cs) then value_of row' c else value_of b c)
      by apply foldl_set_values.
    destruct (decide (c ∈ cs)) as [Hc|Hc].
    + assert (c <> c_date_updated) by congruence.
      rewrite <- Hx. destruct c; congruence || reflexivity.
    + destruct (decide (c = c_date_updated)) as [->|Hne]; [reflexivity|].
      rewrite <- Hx. destruct c; congruence || reflexivity.
Qed.

Lemma stamp_fits (now : datetime) (written : list field) :
  forallb fits_column (BaseModel_update now written)
  = forallb fits_column written.
Proof.
  unfold BaseModel_update. destruct (existsb is_date_updated written);
    [reflexivity|].
  rewrite forallb_app. cbn. now rewrite andb_true_r.
Qed.

(** A row is what its columns hold. *)
Lemma value_of_inj (a b : Birthday) :
  (forall c, value_of a c = value_of b c) -> a = b.
Proof.
  intros H. destruct a, b.
  pose proof (H c_year) as [= ->]. pose proof (H c_month) as [= ->].
  pose proof (H c_day) as [= ->]. pose proof (H c_last_notified) as [= ->].
  pose proof (H c_enabled) as [= ->]. pose proof (H c_date_created) as [= ->].
  pose proof (H c_date_updated) as [= ->]. reflexivity.
Qed.

(** X17.  [update_fields] on a model instance sets the keywords on the
    instance and then writes, to the row with the primary key of the
    instance and to no other, the values the instance holds for the
    columns named; without any keyword these are all its columns.  When
    one of the values written is a year, month or day outside the range of
    a [smallint], the call raises [DataError] and writes nothing.
    Otherwise it succeeds: other rows are as before; when the row is gone
    the table is as before; when it is there, the columns named hold the
    values of the instance, [date_updated] is the time of the call unless
    it was named, and every other column is kept; so without any keyword
    the row becomes a copy of the instance, [date_updated] included, and
    nothing is stamped.  On [None] and on a coroutine object the call
    raises [AttributeError]. *)
Theorem update_fields_frame (pk : Z * Z) (row : Birthday) (fields : list field)
    (now : datetime) (db : table) :
  let row' := foldl set_field row fields in
  let columns :=
    match fields with [] => ALL_COLUMNS | _ :: _ => map column_of fields end in
  (if forallb fits_column (map (value_of row') columns)
   then exists db',
     update_fields (ModelObj pk row) fields now db = Ok (ModelObj pk row', db')
     /\ (forall k, k <> pk -> db' !! k = db !! k)
     /\ (db !! pk = None -> db' = db)
     /\ (forall b, db !! pk = Some b ->
           exists b',
             db' !! pk = Some b'
             /\ (forall c,
                   value_of b' c
                   = if decide (c ∈ columns) then value_of row' c
                     else if decide (c = c_date_updated) then f_date_updated now
                     else value_of b c)
             /\ (fields = [] -> b' = row))
   else update_fields (ModelObj pk row) fields now db = Raise DataError)
  /\ update_fields NoneObj fields now db = Raise AttributeError
  /\ update_fields CoroutineObj fields now db = Raise AttributeError.
Proof.
  intros row' columns. split; [|split; reflexivity].
  assert (Hcall : update_fields (ModelObj pk row) fields now db
                  = if forallb fits_column (map (value_of row') columns)
                    then Ok (ModelObj pk row',
                             alter (fun b => foldl set_field b
                                               (BaseModel_update now
                                                  (map (value_of row') columns)))
                               pk db)
                    else Raise DataError).
  { unfold update_fields, Manager_update. fold row'.
    assert (Hcols : match map column_of fields with
                    | [] => ALL_COLUMNS
                    | _ :: _ => map column_of fields
                    end = columns) by (subst columns; now destruct fields).
    rewrite Hcols, stamp_fits.
    destruct (forallb fits_column (map (value_of row') columns)); reflexivity. }
  rewrite Hcall.
  destruct (forallb fits_column (map (value_of row') columns)); [|reflexivity].
  eexists. split; [reflexivity|]. split; [|split].
  - intros k Hk. now rewrite lookup_alter_ne by congruence.
  - intros Hnone. apply map_eq. intros k. rewrite lookup_alter.
    destruct (decide (pk = k)) as [<-|]; [|reflexivity]. now rewrite Hnone.
  - intros b Hb. eexists. rewrite lookup_alter_eq, Hb.
    split; [reflexivity|]. split; [intros c; apply updated_value|].
    intros ->. apply value_of_inj. intros c. rewrite updated_value.
    subst columns row'. cbn [foldl].
    rewrite decide_True; [reflexivity|].
    destruct c; unfold ALL_COLUMNS; set_solver.
Qed.

Lemma update_fields_frame_witness :
  (exists db',
     update_fields (ModelObj (1, 1) sample_row) [f_enabled false] sample_now
       sample_db
     = Ok (ModelObj (1, 1) (set_field sample_row (f_enabled false)), db')
     /\ exists b',
          db' !! (1, 1) = Some b'
          /\ value_of b' c_enabled = f_enabled false
          /\ value_of b' c_date_updated = f_date_updated sample_now
          /\ value_of b' c_last_notified = f_last_notified (Some sample_notified))
  /\ update_fields (ModelObj (1, 1) sample_row) [f_year (Some 40000)] sample_now
       sample_db
     = Raise DataError.
Proof.
  split.
  - destruct (update_fields_frame (1, 1) sample_row [f_enabled false] sample_now
                sample_db) as ((db' & Hu & _ & _ & Hrow) & _).
    exists db'. split; [exact Hu|].
    destruct (Hrow sample_row eq_refl) as (b' & Hb' & Hc & _).
    exists b'. split; [exact Hb'|].
    split; [exact (Hc c_enabled)|].
    split; [exact (Hc c_date_updated)|exact (Hc c_last_notified)].
  - exact (proj1 (update_fields_frame (1, 1) sample_row [f_year (Some 40000)]
                    sample_now sample_db)).
Defined.

(** ** The age in whole years *)

Lemma add_years_months_day (dt : date) (ym : Z * Z) :
  let r := add_years_months dt ym in
  d_day r = Z.min (days_in_month (d_year r) (d_month r)) (d_day dt).
Proof.
  destruct ym as [ys ms]. unfold add_years_months.
  destruct (ms =? 0); [reflexivity|].
  destruct (12 <? d_month dt + ms); [reflexivity|].
  destruct (d_month dt + ms <? 1); reflexivity.
Qed.

Lemma set_months_years (k : Z) : 0 <= k -> fst (set_months k) = k / 12.
Proof.
  intros Hk. unfold set_months.
  destruct (11 <? Z.abs k) eqn:Hbig.
  - apply Z.ltb_lt in Hbig. cbn [fst].
    assert (Hs : Z.sgn k = 1) by (apply Z.sgn_pos; lia).
    rewrite Hs, !Z.mul_1_r. reflexivity.
  - apply Z.ltb_ge in Hbig. cbn [fst]. symmetry. apply Z.div_small. lia.
Qed.

Lemma date_not_after (bd today : date) :
  date_gt bd today = false ->
  d_year bd < d_year today
  \/ (d_year bd = d_year today /\ d_month bd < d_month today)
  \/ (d_year bd = d_year today /\ d_month bd = d_month today
      /\ d_day bd <= d_day today).
Proof.
  intros Hle. unfold date_gt in Hle. apply orb_false_iff in Hle as [H1 H2].
  apply Z.ltb_ge in H1.
  destruct (Z.eq_dec (d_year bd) (d_year today)) as [Heq|Hne]; [|lia].
  rewrite Heq, Z.eqb_refl in H2. cbn [andb] in H2.
  apply orb_false_iff in H2 as [H2 H3]. apply Z.ltb_ge in H2.
  destruct (Z.eq_dec (d_month bd) (d_month today)) as [Heqm|Hnem]; [|lia].
  rewrite Heqm, Z.eqb_refl in H3. cbn [andb] in H3. apply Z.ltb_ge in H3.
  lia.
Qed.

Lemma relativedelta_years_formula (today bd : date) :
  1 <= d_month today <= 12 -> 1 <= d_month bd <= 12 ->
  date_gt bd today = false ->
  relativedelta_years today bd
  = d_year today - d_year bd - (if reached today bd then 0 else 1).
Proof.
  intros Hm1 Hm2 Hle. unfold relativedelta_years.
  change 24%nat with (S (S 22)).
  pose proof (adjust_months_two_rounds 22 today bd Hm1 Hm2) as Hfuel.
  cbv zeta in Hfuel. rewrite Hfuel. clear Hfuel.
  set (months := (d_year today - d_year bd) * 12 + (d_month today - d_month bd)).
  pose proof (add_years_months_index bd months Hm2) as Hidx. cbv zeta in Hidx.
  pose proof (add_years_months_day bd (set_months months)) as Hday.
  cbv zeta in Hday.
  pose proof (add_years_months_index bd (months - 1) Hm2) as Hidx1.
  cbv zeta in Hidx1.
  rewrite adjust_months_step. cbv zeta.
  unfold date_lt at 1. rewrite Hle.
  set (dtm := add_years_months bd (set_months months)) in *.
  destruct Hidx as [Hidx Hdm]. unfold month_index in Hidx.
  assert (Hy : d_year dtm = d_year today) by (subst months; lia).
  assert (Hm : d_month dtm = d_month today) by (subst months; lia).
  rewrite Hy, Hm in Hday.
  assert (Hcmp : date_lt today dtm = (d_day today <? d_day dtm)).
  { unfold date_lt, date_gt. rewrite Hy, Hm, !Z.ltb_irrefl, !Z.eqb_refl.
    reflexivity. }
  rewrite Hcmp.
  pose proof (date_not_after bd today Hle) as Hord.
  unfold reached. rewrite <- Hday.
  destruct (d_day today <? d_day dtm) eqn:Hlt.
  - apply Z.ltb_lt in Hlt.
    assert (Hpos : 1 <= months).
    { subst months. destruct Hord as [H|[H|H]]; lia. }
    rewrite adjust_months_step. cbv zeta.
    unfold date_lt at 1. rewrite Hle.
    destruct Hidx1 as [Hidx1 Hdm1].
    assert (Hback : date_lt today (add_years_months bd (set_months (months - 1)))
                    = false).
    { unfold date_lt.
      apply (date_gt_by_month _ today Hdm1 Hm1).
      rewrite Hidx1. unfold month_index. subst months. lia. }
    rewrite Hback, set_months_years by lia.
    assert (Hle' : (d_day dtm <=? d_day today) = false) by (apply Z.leb_gt; lia).
    rewrite Hle', andb_false_r, orb_false_r.
    destruct (d_month bd <? d_month today) eqn:Hmm.
    + apply Z.ltb_lt in Hmm. subst months. Z.div_mod_to_equations. lia.
    + apply Z.ltb_ge in Hmm. subst months. Z.div_mod_to_equations. lia.
  - apply Z.ltb_ge in Hlt.
    assert (Hpos : 0 <= months) by (subst months; lia).
    rewrite set_months_years by lia.
    assert (Hle' : (d_day dtm <=? d_day today) = true) by (apply Z.leb_le; lia).
    rewrite Hle', andb_true_r.
    destruct (d_month bd <? d_month today) eqn:Hmm; cbn [orb].
    + apply Z.ltb_lt in Hmm. subst months. Z.div_mod_to_equations. lia.
    + apply Z.ltb_ge in Hmm.
      destruct (d_month bd =? d_month today) eqn:Hme.
      * apply Z.eqb_eq in Hme. subst months. Z.div_mod_to_equations. lia.
      * apply Z.eqb_neq in Hme. subst months. Z.div_mod_to_equations. lia.
Qed.

(** X18.  The age [try_notify] announces is the civil age: for a birthday
    not after today, [relativedelta(today, birthday).years] is the
    difference of the years, less one when the birthday has not come round
    yet this year; a birthday on a day the current month does not have
    counts as come round on the last day of that month.  The age is never
    negative. *)
Theorem relativedelta_years_civil (today bd : date) :
  1 <= d_month today <= 12 -> 1 <= d_month bd <= 12 ->
  date_gt bd today = false ->
  relativedelta_years today bd
  = d_year today - d_year bd - (if reached today bd then 0 else 1)
  /\ 0 <= relativedelta_years today bd.
Proof.
  intros Hm1 Hm2 Hle.
  rewrite (relativedelta_years_formula today bd Hm1 Hm2 Hle).
  split; [reflexivity|].
  destruct (date_not_after bd today Hle) as [H|[[He H]|(He & Hme & H)]].
  - destruct (reached today bd); lia.
  - unfold reached. apply Z.ltb_lt in H. rewrite H. cbn [orb]. lia.
  - unfold reached. rewrite Hme, Z.eqb_refl. cbn [andb].
    assert (Hc : (Z.min (days_in_month (d_year today) (d_month today)) (d_day bd)
                  <=? d_day today) = true) by (apply Z.leb_le; lia).
    rewrite Hc, orb_true_r. lia.
Qed.

Lemma relativedelta_years_civil_witness :
  relativedelta_years (Date 2026 2 28) (Date 2000 2 29) = 26
  /\ relativedelta_years (Date 2024 2 28) (Date 2000 2 29) = 23.
Proof.
  split.
  - exact (proj1 (relativedelta_years_civil (Date 2026 2 28) (Date 2000 2 29)
                    ltac:(cbn; lia) ltac:(cbn; lia) eq_refl)).
  - exact (proj1 (relativedelta_years_civil (Date 2024 2 28) (Date 2000 2 29)
                    ltac:(cbn; lia) ltac:(cbn; lia) eq_refl)).
Defined.

(* ===================================================================== *)
(** * What holds of every table the cog can reach *)
(* ===================================================================== *)

Lemma handle_well_kept (db : table) (e : event) :
  well_kept db -> well_kept (handle db e).
Proof.
  intros Hdb. destruct e as [u g text today defaults now|u g|u g|u g now
                            |u g now|u g|gg env today|now]; cbn [handle].
  - destruct text as [t|]; [|now rewrite birthday_without_text by now left].
    destruct (decide (t = EmptyString)) as [->|Ht];
      [now rewrite birthday_without_text by now right|].
    destruct (parse_date today t) as [[[y m] d]|err] eqn:Hp.
    + rewrite (birthday_set _ _ _ _ _ _ _ _ _ _ Ht Hp). cbn [fst].
      intros k b. rewrite lookup_insert.
      destruct (decide ((u, g) = k)) as [<-|Hne]; [|exact (Hdb k b)].
      intros [= <-]. destruct (db !! (u, g)) as [b0|] eqn:Hk; cbn [stored_row].
      * split; [cbn; exact (proj1 (Hdb _ _ Hk))|].
        exact (parse_date_stored_ok _ _ _ _ _ _ _ _ _ Hp).
      * split; [reflexivity|].
        exact (parse_date_stored_ok _ _ _ _ _ _ _ _ _ Hp).
    + now rewrite (birthday_parse_failure _ _ _ _ _ _ _ _ Ht Hp).
  - rewrite birthday_delete_table. cbn [fst]. intros k b Hk.
    apply lookup_delete_Some in Hk as [_ Hk]. exact (Hdb _ _ Hk).
  - unfold unbirthday. rewrite birthday_delete_table. cbn [fst]. intros k b Hk.
    apply lookup_delete_Some in Hk as [_ Hk]. exact (Hdb _ _ Hk).
  - exact Hdb.
  - exact Hdb.
  - exact Hdb.
  - intros k b. rewrite notify_sweep_lookup. intros Hk.
    apply fmap_Some in Hk as (b0 & Hk & ->).
    destruct (after_notify_columns gg env today k b0) as (H1 & H2 & H3 & H4 & _).
    destruct (Hdb _ _ Hk) as [He Hs]. split; [now rewrite H4|].
    unfold stored_date_ok in *. now rewrite H1, H2, H3.
  - intros k b. rewrite retention_sweep_row.
    destruct (db !! k) as [b0|] eqn:Hk; [|discriminate].
    destruct (retention_due now b0); [discriminate|].
    intros [= <-]. exact (Hdb _ _ Hk).
Qed.

Lemma run_well_kept (events : list event) : well_kept (run events).
Proof.
  unfold run. induction events as [|e events IH] using rev_ind.
  - intros k b. cbn. now rewrite lookup_empty.
  - rewrite foldl_snoc. now apply handle_well_kept.
Qed.

Lemma retention_nothing_due (now : datetime) (db : table) :
  well_kept db -> birthday_cron_retention now db = ([], db).
Proof.
  intros Hdb. unfold birthday_cron_retention.
  assert (Hsel : select (retention_due now) db = []).
  { apply elem_of_nil_inv. intros [k b] Hin.
    apply elem_of_select in Hin as [Hk Hp].
    destruct (Hdb _ _ Hk) as [He _].
    now rewrite (retention_due_enabled now b He) in Hp. }
  now rewrite Hsel.
Qed.

(** X19.  In every table the cog reaches from the empty one, by any
    sequence of commands, member events and sweeps, every row is enabled
    and holds a month and day that exist (in its year when it has one):
    no handler stores [enabled = False], as [on_member_leave], the one
    that would, raises before it writes.  So the retention sweep finds
    nothing to delete in such a table, and asking for one's birthday
    never fails in rendering the date. *)
Theorem reachable_tables_well_kept (events : list event) :
  let db := run events in
  (forall k b, db !! k = Some b -> enabled b = true /\ stored_date_ok b = true)
  /\ (forall now, birthday_cron_retention now db = ([], db))
  /\ (forall user_id guild_id today defaults now,
        exists reply,
          birthday user_id guild_id None today defaults now db = (db, Ok reply)).
Proof.
  cbv zeta. pose proof (run_well_kept events) as Hdb.
  split; [exact Hdb|]. split.
  - intros now. now apply retention_nothing_due.
  - intros u g today defaults now. unfold birthday, safe_get.
    destruct (run events !! (u, g)) as [b|] eqn:Hk; [|eauto].
    destruct (Birthday_str_stored_ok b (proj2 (Hdb _ _ Hk))) as [shown Hs].
    rewrite Hs. cbn. eauto.
Qed.

(* ===================================================================== *)
(** * Properties of the configuration loader *)
(* ===================================================================== *)

Lemma missing_values_absent (config : gmap string Config.value) :
  Config.missing_values config = absent config.
Proof.
  unfold Config.missing_values, absent, Config.mandatory_values.
  cbn [flat_map].
  destruct (Config.truthy (Config.dict_get config "token"));
  destruct (Config.truthy (Config.dict_get config "prefix"));
  destruct (Config.truthy (Config.dict_get config "db_credentials"));
  destruct (Config.truthy (Config.dict_get config "logging")); reflexivity.
Qed.

Lemma absent_nil (config : gmap string Config.value) :
  absent config = []
  <-> Config.truthy (Config.dict_get config "token") = true
      /\ Config.truthy (Config.dict_get config "prefix") = true
      /\ Config.truthy (Config.dict_get config "db_credentials") = true
      /\ Config.truthy (Config.dict_get config "logging") = true.
Proof.
  unfold absent.
  destruct (Config.truthy (Config.dict_get config "token"));
  destruct (Config.truthy (Config.dict_get config "prefix"));
  destruct (Config.truthy (Config.dict_get config "db_credentials"));
  destruct (Config.truthy (Config.dict_get config "logging"));
  cbn; split; try discriminate; try tauto;
  intros (H1 & H2 & H3 & H4); discriminate.
Qed.

Lemma load_forced (repr_ : Config.value -> string)
    (int_of_str : string -> option Z) (force : bool) (file : Config.yaml_file)
    (environ : gmap string string) (cls : Config.state)
    (config : gmap string Config.value) :
  force = true \/ Config.token cls = None ->
  Config.unpack (Config.load_yaml file) (Config.load_env environ)
  = Config.Ret config ->
  Config.load repr_ int_of_str force file environ cls
  = match absent config with
    | [] => Config.assign repr_ int_of_str config cls
    | missing =>
        (cls,
         Some (Config.ConfigValueError
                 (Config.MSG_MISSING +:+ String.concat ", " missing)))
    end.
Proof.
  intros Hforce Hconfig. unfold Config.load.
  assert (Hgo : negb force && Config.is_set (Config.token cls) = false).
  { destruct Hforce as [->| ->]; [reflexivity|apply andb_false_r]. }
  now rewrite Hgo, Hconfig, missing_values_absent.
Qed.

(** ** What the environment contributes *)

Lemma env_nested_other (section : string) (environ : gmap string string)
    (vars : list (string * string)) :
  forall (config : gmap string Config.value) (k : string),
    k <> section ->
    foldl (Config.env_nested section environ) config vars !! k = config !! k.
Proof.
  induction vars as [|var vars IH]; intros config k Hk; [reflexivity|].
  cbn [foldl]. rewrite IH by exact Hk. unfold Config.env_nested.
  destruct (environ !! fst var) as [s|]; [|reflexivity].
  destruct (config !! section) as [v|] eqn:Hs.
  - rewrite Hs. destruct v; try reflexivity.
    now rewrite lookup_insert_ne.
  - rewrite lookup_insert_eq. rewrite !lookup_insert_ne by congruence.
    reflexivity.
Qed.

Lemma env_nested_section (section : string) (environ : gmap string string)
    (vars : list (string * string)) :
  forall (config : gmap string Config.value)
         (start : option (gmap string Config.value)),
    config !! section = Config.VDict <$> start ->
    foldl (Config.env_nested section environ) config vars !! section
    = Config.VDict <$> env_items environ vars start.
Proof.
  induction vars as [|var vars IH]; intros config start Hs; [exact Hs|].
  unfold env_items. cbn [foldl]. apply IH. unfold Config.env_nested.
  destruct (environ !! fst var) as [s|]; [|exact Hs].
  destruct start as [items|]; cbn in Hs; rewrite Hs.
  - rewrite Hs. now rewrite lookup_insert_eq.
  - rewrite lookup_insert_eq. now rewrite lookup_insert_eq.
Qed.

Lemma env_top_lookup (environ : gmap string string) (var conf : string) :
  In (var, conf) Config.TOP_VARS ->
  foldl (Config.env_top environ) ∅ Config.TOP_VARS !! conf
  = Config.VStr <$> environ !! var.
Proof.
  unfold Config.TOP_VARS. cbn [foldl In]. unfold Config.env_top. cbn [fst snd].
  intros [H|[H|[H|[H|[]]]]]; injection H as <- <-;
    destruct (environ !! "TOKEN"); destruct (environ !! "OWNER_ID");
    destruct (environ !! "PREFIX"); destruct (environ !! "MENTIONABLE");
    reflexivity.
Qed.

Lemma env_top_no_section (environ : gmap string string) (section : string) :
  section = "db_credentials" \/ section = "logging" ->
  foldl (Config.env_top environ) ∅ Config.TOP_VARS !! section = None.
Proof.
  unfold Config.TOP_VARS. cbn [foldl]. unfold Config.env_top. cbn [fst snd].
  intros [->| ->];
    destruct (environ !! "TOKEN"); destruct (environ !! "OWNER_ID");
    destruct (environ !! "PREFIX"); destruct (environ !! "MENTIONABLE");
    reflexivity.
Qed.

Lemma load_env_top (environ : gmap string string) (var conf : string) :
  In (var, conf) Config.TOP_VARS ->
  Config.load_env environ !! conf = Config.VStr <$> environ !! var.
Proof.
  intros Hin. unfold Config.load_env. cbv zeta.
  assert (Hne : conf <> "db_credentials" /\ conf <> "logging").
  { unfold Config.TOP_VARS in Hin. cbn [In] in Hin.
    destruct Hin as [H|[H|[H|[H|[]]]]]; injection H as <- <-;
      split; discriminate. }
  rewrite !env_nested_other by apply Hne. now apply env_top_lookup.
Qed.

Lemma load_env_credentials (environ : gmap string string) :
  Config.load_env environ !! "db_credentials"
  = Config.VDict <$> env_items environ Config.PG_VARS None.
Proof.
  unfold Config.load_env. cbv zeta.
  rewrite env_nested_other by discriminate.
  apply env_nested_section. rewrite env_top_no_section by now left.
  reflexivity.
Qed.

Lemma load_env_logging (environ : gmap string string) :
  Config.load_env environ !! "logging"
  = Config.VDict <$> env_items environ Config.LOG_VARS None.
Proof.
  unfold Config.load_env. cbv zeta.
  apply env_nested_section.
  rewrite env_nested_other by discriminate.
  rewrite env_top_no_section by now right.
  reflexivity.
Qed.

Lemma env_items_credentials (environ : gmap string string)
    (items : gmap string Config.value) (var conf : string) :
  env_items environ Config.PG_VARS None = Some items ->
  In (var, conf) Config.PG_VARS ->
  items !! conf = Config.VStr <$> environ !! var.
Proof.
  unfold env_items, Config.PG_VARS. cbn [foldl fst snd In].
  intros Hitems [H|[H|[H|[H|[H|[]]]]]]; injection H as <- <-;
    destruct (environ !! "PG_DATABASE"); destruct (environ !! "PG_USER");
    destruct (environ !! "PG_PASSWORD"); destruct (environ !! "PG_HOST");
    destruct (environ !! "PG_PORT"); cbn in Hitems;
    try discriminate; injection Hitems as <-; reflexivity.
Qed.

Lemma env_items_none (environ : gmap string string) :
  env_items environ Config.PG_VARS None = None
  <-> forall var conf, In (var, conf) Config.PG_VARS -> environ !! var = None.
Proof.
  unfold env_items, Config.PG_VARS. cbn [foldl fst snd In]. split.
  - intros Hnone var conf Hin.
    destruct (environ !! "PG_DATABASE") eqn:H1;
    destruct (environ !! "PG_USER") eqn:H2;
    destruct (environ !! "PG_PASSWORD") eqn:H3;
    destruct (environ !! "PG_HOST") eqn:H4;
    destruct (environ !! "PG_PORT") eqn:H5; try discriminate.
    destruct Hin as [H|[H|[H|[H|[H|[]]]]]]; injection H as <- <-; assumption.
  - intros Hall.
    rewrite (Hall "PG_DATABASE" "database") by tauto.
    rewrite (Hall "PG_USER" "user") by tauto.
    rewrite (Hall "PG_PASSWORD" "password") by tauto.
    rewrite (Hall "PG_HOST" "host") by tauto.
    rewrite (Hall "PG_PORT" "port") by tauto.
    reflexivity.
Qed.

Lemma lookup_unpacked (y env : gmap string Config.value) (k : string) :
  (env ∪ y) !! k = match env !! k with Some v => Some v | None => y !! k end.
Proof.
  rewrite lookup_union. destruct (env !! k), (y !! k); reflexivity.
Qed.

(** ** The assignments *)

Lemma truthy_present (config : gmap string Config.value) (key : string) :
  Config.truthy (Config.dict_get config key) = true ->
  exists v, config !! key = Some v /\ Config.truthy v = true.
Proof.
  unfold Config.dict_get. destruct (config !! key) as [v|]; [eauto|discriminate].
Qed.

Lemma copy_credential_stuck (credentials : Config.value)
    (keys : list string) :
  forall (acc : Config.state * option Config.raised) (e : Config.raised),
    snd acc = Some e ->
    foldl (Config.copy_credential credentials) acc keys = acc.
Proof.
  induction keys as [|k keys IH]; intros acc e He; [reflexivity|].
  cbn [foldl]. unfold Config.copy_credential at 2. rewrite He.
  now apply (IH acc e).
Qed.

Lemma copy_credential_frame (credentials : Config.value) (keys : list string) :
  forall acc : Config.state * option Config.raised,
    same_but_credentials
      (fst (foldl (Config.copy_credential credentials) acc keys)) (fst acc).
Proof.
  induction keys as [|k keys IH]; intros acc; [now repeat split|].
  cbn [foldl].
  destruct (IH (Config.copy_credential credentials acc k))
    as (H1 & H2 & H3 & H4 & H5).
  unfold same_but_credentials. rewrite H1, H2, H3, H4, H5.
  unfold Config.copy_credential. destruct (snd acc); [now repeat split|].
  destruct (Config.subscript credentials k); now repeat split.
Qed.

(** When the loop over the credentials ends without an exception, every
    entry was there and has been copied. *)
Lemma copy_credential_done (credentials : Config.value) (keys : list string) :
  forall acc : Config.state * option Config.raised,
    snd (foldl (Config.copy_credential credentials) acc keys) = None ->
    snd acc = None
    /\ (forall k, k ∈ keys ->
          exists v, Config.subscript credentials k = Config.Ret v
                    /\ Config.db_credentials
                         (fst (foldl (Config.copy_credential credentials) acc keys))
                       !! k = Some v)
    /\ (forall k, k ∉ keys ->
          Config.db_credentials
            (fst (foldl (Config.copy_credential credentials) acc keys)) !! k
          = Config.db_credentials (fst acc) !! k).
Proof.
  induction keys as [|a keys IH]; intros acc Hnone.
  - split; [exact Hnone|]. split; [|reflexivity].
    intros k Hk. now apply elem_of_nil in Hk.
  - cbn [foldl] in *.
    destruct (IH _ Hnone) as (Hstep & Hin & Hout).
    unfold Config.copy_credential in Hstep at 1.
    destruct (snd acc) as [e|] eqn:Hacc; [now rewrite Hacc in Hstep|].
    destruct (Config.subscript credentials a) as [v|e] eqn:Ha;
      [|discriminate].
    split; [reflexivity|].
    assert (Hhere : Config.db_credentials
                      (fst (Config.copy_credential credentials acc a)) !! a
                    = Some v).
    { unfold Config.copy_credential. rewrite Hacc, Ha. cbn.
      apply lookup_insert_eq. }
    split.
    + intros k Hk. destruct (decide (k ∈ keys)) as [Hin'|Hout'];
        [now apply Hin|].
      apply elem_of_cons in Hk as [->|Hk]; [|contradiction].
      exists v. split; [exact Ha|]. now rewrite Hout.
    + intros k Hk. apply not_elem_of_cons in Hk as [Hne Hk].
      rewrite Hout by exact Hk.
      unfold Config.copy_credential. rewrite Hacc, Ha. cbn.
      now apply lookup_insert_ne.
Qed.

(** When every entry is there, the loop ends without an exception. *)
Lemma copy_credential_all (credentials : Config.value) (keys : list string) :
  (forall k, k ∈ keys -> exists v, Config.subscript credentials k = Config.Ret v) ->
  forall acc : Config.state * option Config.raised,
    snd acc = None ->
    snd (foldl (Config.copy_credential credentials) acc keys) = None.
Proof.
  induction keys as [|a keys IH]; intros Hall acc Hacc; [exact Hacc|].
  cbn [foldl]. apply IH.
  - intros k Hk. apply Hall. now right.
  - destruct (Hall a) as [v Hv]; [now left|].
    unfold Config.copy_credential. now rewrite Hacc, Hv.
Qed.

(** The first entry that is not there ends the loop with its
    exception; the entries before it have been copied by then. *)
Lemma copy_credential_first (credentials : Config.value)
    (pre post : list string) (key : string) (e : Config.raised) :
  (forall k, k ∈ pre -> exists v, Config.subscript credentials k = Config.Ret v) ->
  Config.subscript credentials key = Config.Exc e ->
  forall acc : Config.state * option Config.raised,
    snd acc = None ->
    snd (foldl (Config.copy_credential credentials) acc (pre ++ key :: post))
    = Some e
    /\ forall k, k ∈ pre ->
         exists v, Config.subscript credentials k = Config.Ret v
                   /\ Config.db_credentials
                        (fst (foldl (Config.copy_credential credentials) acc
                                (pre ++ key :: post))) !! k = Some v.
Proof.
  intros Hpre Hkey acc Hacc. rewrite foldl_app. cbn [foldl].
  pose proof (copy_credential_all credentials pre Hpre acc Hacc) as Hnone.
  destruct (copy_credential_done credentials pre acc Hnone) as (_ & Hin & _).
  set (mid := foldl (Config.copy_credential credentials) acc pre) in *.
  assert (Hstep : Config.copy_credential credentials mid key = (fst mid, Some e)).
  { unfold Config.copy_credential. now rewrite Hnone, Hkey. }
  rewrite Hstep.
  rewrite (copy_credential_stuck credentials post (fst mid, Some e) e eq_refl).
  split; [reflexivity|]. exact Hin.
Qed.

Lemma assign_scalars (repr_ : Config.value -> string)
    (int_of_str : string -> option Z) (config : gmap string Config.value)
    (cls : Config.state) (token_ prefix_ credentials : Config.value) (owner : Z) :
  config !! "token" = Some token_ ->
  config !! "prefix" = Some prefix_ ->
  config !! "db_credentials" = Some credentials ->
  Config.int_ int_of_str
    (Config.or_ (Config.dict_get config "owner_id") (Config.VInt 0))
  = Config.Ret owner ->
  let head :=
    scalars_assigned repr_ token_ prefix_ owner
      (Config.or_ (Config.dict_get config "mentionable") (Config.VBool false))
      cls in
  Config.assign repr_ int_of_str config cls
  = match foldl (Config.copy_credential credentials) (head, None)
            Config.mandatory_pg_values with
    | (cls, Some e) => (cls, Some e)
    | (cls, None) =>
        match Config.item config "logging" with
        | Config.Exc e => (cls, Some e)
        | Config.Ret section =>
            match Config.subscript section "level" with
            | Config.Exc e => (cls, Some e)
            | Config.Ret log_level =>
                match Config.level_of log_level with
                | Config.Exc e => (cls, Some e)
                | Config.Ret None =>
                    (cls,
                     Some (Config.ConfigValueError
                             (Config.MSG_LEVEL +:+ Config.str_ repr_ log_level)))
                | Config.Ret (Some level) =>
                    (Config.set_logging
                       (<["level" := level]> (Config.logging cls)) cls,
                     None)
                end
            end
        end
    end.
Proof.
  intros Ht Hp Hc Ho head. subst head.
  unfold Config.assign, Config.item. rewrite Ht, Ho, Hp, Hc.
  unfold scalars_assigned.
  destruct (Config.or_ (Config.dict_get config "mentionable") (Config.VBool false));
    reflexivity.
Qed.

(** ** [Config.load] *)

(** X20.  The check for missing values looks at [token], [prefix] and at
    the sections [db_credentials] and [logging] as a whole: the loops over
    the entries of a section test the section again, so no entry is ever
    reported by its dotted name, and a [db_credentials] mapping that is
    not empty passes whatever entries it lacks.  When something is
    missing, [load] raises [ConfigValueError] with the names joined by
    commas and leaves the class untouched. *)
Theorem load_reports_sections_whole (repr_ : Config.value -> string)
    (int_of_str : string -> option Z) (force : bool) (file : Config.yaml_file)
    (environ : gmap string string) (cls : Config.state)
    (config : gmap string Config.value) :
  force = true \/ Config.token cls = None ->
  Config.unpack (Config.load_yaml file) (Config.load_env environ)
  = Config.Ret config ->
  (forall name,
     In name (Config.missing_values config) ->
     In name ["token"; "prefix"; "database"; "user"; "password"; "host";
              "port"; "level"])
  /\ (Config.truthy (Config.dict_get config "db_credentials") = true ->
      forall name,
        In name Config.mandatory_pg_values ->
        ~ In name (Config.missing_values config))
  /\ (Config.missing_values config <> [] ->
      Config.load repr_ int_of_str force file environ cls
      = (cls,
         Some (Config.ConfigValueError
                 (Config.MSG_MISSING
                  +:+ String.concat ", " (Config.missing_values config)))))
  /\ (Config.missing_values config = []
      <-> Config.truthy (Config.dict_get config "token") = true
          /\ Config.truthy (Config.dict_get config "prefix") = true
          /\ Config.truthy (Config.dict_get config "db_credentials") = true
          /\ Config.truthy (Config.dict_get config "logging") = true).
Proof.
  intros Hforce Hconfig. rewrite missing_values_absent.
  split; [|split; [|split]].
  - unfold absent, Config.mandatory_pg_values, Config.mandatory_log_values.
    intros name.
    destruct (Config.truthy (Config.dict_get config "token"));
    destruct (Config.truthy (Config.dict_get config "prefix"));
    destruct (Config.truthy (Config.dict_get config "db_credentials"));
    destruct (Config.truthy (Config.dict_get config "logging"));
    cbn; tauto.
  - intros Hdb name. unfold absent. rewrite Hdb.
    unfold Config.mandatory_pg_values, Config.mandatory_log_values.
    destruct (Config.truthy (Config.dict_get config "token"));
    destruct (Config.truthy (Config.dict_get config "prefix"));
    destruct (Config.truthy (Config.dict_get config "logging"));
    cbn; intros Hin Hmiss;
    repeat (destruct Hin as [<-|Hin]; [intuition discriminate|]);
    exact Hin.
  - intros Hmiss.
    rewrite (load_forced repr_ int_of_str force file environ cls config
               Hforce Hconfig).
    now destruct (absent config).
  - apply absent_nil.
Qed.

Lemma load_reports_sections_whole_witness :
  Config.load sample_repr sample_int_of_str false Config.NoFile
    (<["TOKEN" := "abc"]> ∅) Config.unloaded
  = (Config.unloaded,
     Some (Config.ConfigValueError
             "The following config values are missing: prefix, database, user, password, host, port, level")).
Proof.
  destruct (load_reports_sections_whole sample_repr sample_int_of_str false
              Config.NoFile (<["TOKEN" := "abc"]> ∅) Config.unloaded
              (Config.load_env (<["TOKEN" := "abc"]> ∅) ∪ ∅)
              ltac:(right; reflexivity) eq_refl) as (_ & _ & H & _).
  exact (H ltac:(discriminate)).
Defined.

(** X21.  The environment replaces whole sections of the file: a
    top-level setting comes from its environment variable when that is
    set and from the file otherwise, but as soon as one [PG_] variable is
    set the section [db_credentials] holds the [PG_] variables only, and
    what the file gives for the section is dropped. *)
Theorem environment_replaces_whole_sections (y : gmap string Config.value)
    (environ : gmap string string) :
  let config := Config.load_env environ ∪ y in
  Config.unpack (Config.load_yaml (Config.Loaded (Config.VDict y)))
    (Config.load_env environ) = Config.Ret config
  /\ (forall var conf,
        In (var, conf) Config.TOP_VARS ->
        config !! conf
        = match environ !! var with
          | Some s => Some (Config.VStr s)
          | None => y !! conf
          end)
  /\ ((forall var conf, In (var, conf) Config.PG_VARS -> environ !! var = None) ->
      config !! "db_credentials" = y !! "db_credentials")
  /\ ((exists var conf, In (var, conf) Config.PG_VARS /\ environ !! var <> None) ->
      exists items,
        config !! "db_credentials" = Some (Config.VDict items)
        /\ forall var conf,
             In (var, conf) Config.PG_VARS ->
             items !! conf = Config.VStr <$> environ !! var).
Proof.
  cbv zeta. split; [reflexivity|]. split; [|split].
  - intros var conf Hin. rewrite lookup_unpacked, (load_env_top _ _ _ Hin).
    now destruct (environ !! var).
  - intros Hnone. rewrite lookup_unpacked, load_env_credentials.
    apply env_items_none in Hnone. now rewrite Hnone.
  - intros (var & conf & Hin & Hset).
    destruct (env_items environ Config.PG_VARS None) as [items|] eqn:Hitems.
    + exists items. split.
      * now rewrite lookup_unpacked, load_env_credentials, Hitems.
      * intros var' conf' Hin'. now apply env_items_credentials.
    + exfalso. apply Hset.
      exact (proj1 (env_items_none environ) Hitems var conf Hin).
Qed.

Lemma environment_replaces_whole_sections_witness :
  exists items,
    (Config.load_env (<["PG_HOST" := "db"]> ∅) ∪ sample_yaml) !! "db_credentials"
    = Some (Config.VDict items)
    /\ items !! "database" = None.
Proof.
  destruct (environment_replaces_whole_sections sample_yaml
              (<["PG_HOST" := "db"]> ∅)) as (_ & _ & _ & H).
  destruct H as (items & Hitems & Hall).
  - exists "PG_HOST", "host". split; [cbn; tauto|discriminate].
  - exists items. split; [exact Hitems|].
    exact (Hall "PG_DATABASE" "database" ltac:(cbn; tauto)).
Defined.

Lemma load_early_return (repr_ : Config.value -> string)
    (int_of_str : string -> option Z) (file : Config.yaml_file)
    (environ : gmap string string) (cls : Config.state) :
  Config.is_set (Config.token cls) = true ->
  Config.load repr_ int_of_str false file environ cls = (cls, None).
Proof. intros Hset. unfold Config.load. now rewrite Hset. Qed.

(** X22.  A [db_credentials] section that lacks an entry is not reported
    as a missing value: [load] raises [KeyError] for the first entry that
    is not there, after it has assigned [token], [owner_id], [prefix] and
    [mentionable] and copied the entries before that one.  As [token] is
    set by then, a later [load()] returns at once and the class stays
    half configured. *)
Theorem incomplete_credentials_raise_KeyError (repr_ : Config.value -> string)
    (int_of_str : string -> option Z) (force : bool) (file : Config.yaml_file)
    (environ : gmap string string) (cls : Config.state)
    (config items : gmap string Config.value) (owner : Z)
    (pre post : list string) (key : string) :
  force = true \/ Config.token cls = None ->
  Config.unpack (Config.load_yaml file) (Config.load_env environ)
  = Config.Ret config ->
  Config.missing_values config = [] ->
  Config.int_ int_of_str
    (Config.or_ (Config.dict_get config "owner_id") (Config.VInt 0))
  = Config.Ret owner ->
  config !! "db_credentials" = Some (Config.VDict items) ->
  Config.mandatory_pg_values = pre ++ key :: post ->
  (forall k, In k pre -> items !! k <> None) ->
  items !! key = None ->
  let r := Config.load repr_ int_of_str force file environ cls in
  snd r = Some (Config.KeyError key)
  /\ Config.is_set (Config.token (fst r)) = true
  /\ Config.owner_id (fst r) = Some owner
  /\ Config.is_set (Config.prefix (fst r)) = true
  /\ (forall k, In k pre -> Config.db_credentials (fst r) !! k = items !! k)
  /\ Config.logging (fst r) = Config.logging cls
  /\ forall file' environ',
       Config.load repr_ int_of_str false file' environ' (fst r) = (fst r, None).
Proof.
  intros Hforce Hconfig Hmiss Hint Hitems Hsplit Hpre Hkey. cbv zeta.
  rewrite (load_forced repr_ int_of_str force file environ cls config
             Hforce Hconfig).
  rewrite missing_values_absent in Hmiss. rewrite Hmiss.
  apply absent_nil in Hmiss as (Ht & Hp & _ & _).
  apply truthy_present in Ht as (token_ & Ht & _).
  apply truthy_present in Hp as (prefix_ & Hp & _).
  rewrite (assign_scalars repr_ int_of_str config cls token_ prefix_
             (Config.VDict items) owner Ht Hp Hitems Hint).
  cbv zeta. rewrite Hsplit.
  set (head := scalars_assigned repr_ token_ prefix_ owner
                 (Config.or_ (Config.dict_get config "mentionable")
                    (Config.VBool false)) cls).
  assert (Hpre' : forall k, k ∈ pre ->
            exists v, Config.subscript (Config.VDict items) k = Config.Ret v).
  { intros k Hk. apply list_elem_of_In in Hk. specialize (Hpre k Hk).
    unfold Config.subscript, Config.item.
    destruct (items !! k) as [v|]; [eauto|congruence]. }
  assert (Hkey' : Config.subscript (Config.VDict items) key
                  = Config.Exc (Config.KeyError key)).
  { unfold Config.subscript, Config.item. now rewrite Hkey. }
  destruct (copy_credential_first (Config.VDict items) pre post key
              (Config.KeyError key) Hpre' Hkey' (head, None) eq_refl)
    as [Hraise Hcopied].
  pose proof (copy_credential_frame (Config.VDict items) (pre ++ key :: post)
                (head, None)) as (F1 & F2 & F3 & F4 & F5).
  destruct (foldl (Config.copy_credential (Config.VDict items)) (head, None)
              (pre ++ key :: post)) as [cls1 raised] eqn:Hfold.
  cbn [fst snd] in *. subst raised. cbn [fst snd].
  split; [reflexivity|].
  assert (Htoken : Config.is_set (Config.token cls1) = true)
    by now rewrite F1.
  split; [exact Htoken|]. split; [now rewrite F2|].
  split; [now rewrite F3|]. split.
  - intros k Hk. apply list_elem_of_In in Hk.
    destruct (Hcopied k Hk) as (v & Hv & Hw). rewrite Hw.
    unfold Config.subscript, Config.item in Hv.
    destruct (items !! k); congruence.
  - split; [now rewrite F5|].
    intros file' environ'. now apply load_early_return.
Qed.

Lemma incomplete_credentials_raise_KeyError_witness :
  snd (Config.load sample_repr sample_int_of_str false
         (Config.Loaded (Config.VDict sample_yaml)) sample_host_environ
         Config.unloaded)
  = Some (Config.KeyError "database").
Proof.
  destruct (incomplete_credentials_raise_KeyError sample_repr sample_int_of_str
              false (Config.Loaded (Config.VDict sample_yaml))
              sample_host_environ Config.unloaded
              (Config.load_env sample_host_environ ∪ sample_yaml)
              (<["host" := Config.VStr "db"]> ∅) 0
              [] ["user"; "password"; "host"; "port"] "database"
              ltac:(right; reflexivity) eq_refl eq_refl eq_refl eq_refl eq_refl
              ltac:(intros k [])
              eq_refl) as (H & _).
  exact H.
Defined.

(** X23.  When [load] ends without an exception (and did not return at
    once), the class is configured in full: [token], [owner_id] and
    [prefix] are set, the five credentials are there, and the level is the
    number of one of the names DEBUG, INFO and WARNING.  A [MENTIONABLE]
    from the environment counts as true exactly when it is one of y, yes
    and true, in any case of the letters. *)
Theorem load_success_configures_everything (repr_ : Config.value -> string)
    (int_of_str : string -> option Z) (force : bool) (file : Config.yaml_file)
    (environ : gmap string string) (cls : Config.state) :
  force = true \/ Config.token cls = None ->
  snd (Config.load repr_ int_of_str force file environ cls) = None ->
  let cls' := fst (Config.load repr_ int_of_str force file environ cls) in
  Config.is_set (Config.token cls') = true
  /\ Config.is_set (Config.owner_id cls') = true
  /\ Config.is_set (Config.prefix cls') = true
  /\ (forall k, In k Config.mandatory_pg_values ->
        Config.db_credentials cls' !! k <> None)
  /\ (exists name level,
        In (name, level) [("DEBUG", 10); ("INFO", 20); ("WARNING", 30)]
        /\ Config.logging cls' !! "level" = Some level)
  /\ (forall s, environ !! "MENTIONABLE" = Some s ->
        Config.mentionable cls' = Config.VBool (Config.is_yes s)).
Proof.
  intros Hforce Hnone. cbv zeta.
  destruct (Config.unpack (Config.load_yaml file) (Config.load_env environ))
    as [config|e] eqn:Hconfig.
  2:{ unfold Config.load in Hnone.
      assert (Hgo : negb force && Config.is_set (Config.token cls) = false).
      { destruct Hforce as [->| ->]; [reflexivity|apply andb_false_r]. }
      rewrite Hgo, Hconfig in Hnone. discriminate. }
  rewrite (load_forced repr_ int_of_str force file environ cls config
             Hforce Hconfig) in *.
  destruct (absent config) as [|name names] eqn:Habs; [|discriminate].
  apply absent_nil in Habs as (Ht & Hp & Hc & Hl).
  apply truthy_present in Ht as (token_ & Ht & _).
  apply truthy_present in Hp as (prefix_ & Hp & _).
  apply truthy_present in Hc as (credentials & Hc & _).
  apply truthy_present in Hl as (section & Hl & _).
  destruct (Config.int_ int_of_str
              (Config.or_ (Config.dict_get config "owner_id") (Config.VInt 0)))
    as [owner|e] eqn:Hint.
  2:{ unfold Config.assign, Config.item in Hnone.
      rewrite Ht, Hint in Hnone. discriminate. }
  rewrite (assign_scalars repr_ int_of_str config cls token_ prefix_
             credentials owner Ht Hp Hc Hint) in *.
  cbv zeta in *.
  set (head := scalars_assigned repr_ token_ prefix_ owner
                 (Config.or_ (Config.dict_get config "mentionable")
                    (Config.VBool false)) cls) in *.
  pose proof (copy_credential_frame credentials Config.mandatory_pg_values
                (head, None)) as (F1 & F2 & F3 & F4 & F5).
  pose proof (copy_credential_done credentials Config.mandatory_pg_values
                (head, None)) as Hdone.
  destruct (foldl (Config.copy_credential credentials) (head, None)
              Config.mandatory_pg_values) as [cls1 [e|]] eqn:Hfold;
    [discriminate|].
  cbn [fst snd] in *. destruct (Hdone eq_refl) as (_ & Hin & _).
  unfold Config.item in *. rewrite Hl in *.
  destruct (Config.subscript section "level") as [log_level|e];
    [|discriminate].
  destruct (Config.level_of log_level) as [[level|]|e] eqn:Hlevel;
    try discriminate.
  cbn [fst snd Config.set_logging Config.token Config.owner_id Config.prefix
       Config.mentionable Config.db_credentials Config.logging].
  split; [now rewrite F1|]. split; [now rewrite F2|]. split; [now rewrite F3|].
  split.
  { intros k Hk. apply list_elem_of_In in Hk.
    destruct (Hin k Hk) as (v & _ & Hv). now rewrite Hv. }
  split.
  { destruct log_level as [| | |s| |]; try discriminate.
    cbn in Hlevel. injection Hlevel as Hlevel.
    exists s, level. split; [|apply lookup_insert_eq].
    unfold Config.LOG_LEVELS in Hlevel.
    apply lookup_insert_Some in Hlevel as [[<- <-]|[_ Hlevel]]; [cbn; tauto|].
    apply lookup_insert_Some in Hlevel as [[<- <-]|[_ Hlevel]]; [cbn; tauto|].
    apply lookup_insert_Some in Hlevel as [[<- <-]|[_ Hlevel]]; [cbn; tauto|].
    now rewrite lookup_empty in Hlevel. }
  intros s Hs. rewrite F4. subst head. unfold scalars_assigned.
  cbn [Config.mentionable].
  assert (Hm : config !! "mentionable" = Some (Config.VStr s)).
  { unfold Config.unpack in Hconfig.
    destruct (Config.load_yaml file) as [| | | | |y]; try discriminate.
    injection Hconfig as <-.
    rewrite lookup_unpacked,
      (load_env_top environ "MENTIONABLE" "mentionable")
      by (cbn; tauto).
    now rewrite Hs. }
  unfold Config.dict_get. rewrite Hm.
  change (default Config.VNone (Some (Config.VStr s))) with (Config.VStr s).
  unfold Config.or_. cbn [Config.truthy].
  destruct (String.eqb s EmptyString) eqn:Hempty; cbn [negb].
  - apply String.eqb_eq in Hempty. now subst s.
  - reflexivity.
Qed.

Lemma load_success_configures_everything_witness :
  Config.logging
    (fst (Config.load sample_repr sample_int_of_str false
            (Config.Loaded (Config.VDict sample_yaml))
            (<["MENTIONABLE" := "Yes"]> ∅) Config.unloaded)) !! "level"
  = Some 20
  /\ Config.mentionable
       (fst (Config.load sample_repr sample_int_of_str false
               (Config.Loaded (Config.VDict sample_yaml))
               (<["MENTIONABLE" := "Yes"]> ∅) Config.unloaded))
     = Config.VBool true.
Proof.
  destruct (load_success_configures_everything sample_repr sample_int_of_str
              false (Config.Loaded (Config.VDict sample_yaml))
              (<["MENTIONABLE" := "Yes"]> ∅) Config.unloaded
              ltac:(right; reflexivity) eq_refl)
    as (_ & _ & _ & _ & _ & Hm).
  split; [reflexivity|]. exact (Hm "Yes" eq_refl).
Defined.

(** X24.  A level other than DEBUG, INFO and WARNING, ERROR and CRITICAL
    among them, is rejected with [ConfigValueError], and only after
    everything else has been assigned: the class then holds the token,
    the prefix and all credentials, its [logging] is as before, and a
    later [load()] returns at once. *)
Theorem unknown_log_level_rejected (repr_ : Config.value -> string)
    (int_of_str : string -> option Z) (force : bool) (file : Config.yaml_file)
    (environ : gmap string string) (cls : Config.state)
    (config items section : gmap string Config.value) (owner : Z)
    (name : string) :
  force = true \/ Config.token cls = None ->
  Config.unpack (Config.load_yaml file) (Config.load_env environ)
  = Config.Ret config ->
  Config.missing_values config = [] ->
  Config.int_ int_of_str
    (Config.or_ (Config.dict_get config "owner_id") (Config.VInt 0))
  = Config.Ret owner ->
  config !! "db_credentials" = Some (Config.VDict items) ->
  (forall k, In k Config.mandatory_pg_values -> items !! k <> None) ->
  config !! "logging" = Some (Config.VDict section) ->
  section !! "level" = Some (Config.VStr name) ->
  ~ In name ["DEBUG"; "INFO"; "WARNING"] ->
  let r := Config.load repr_ int_of_str force file environ cls in
  snd r = Some (Config.ConfigValueError (Config.MSG_LEVEL +:+ name))
  /\ Config.is_set (Config.token (fst r)) = true
  /\ Config.is_set (Config.prefix (fst r)) = true
  /\ (forall k, In k Config.mandatory_pg_values ->
        Config.db_credentials (fst r) !! k = items !! k)
  /\ Config.logging (fst r) = Config.logging cls
  /\ forall file' environ',
       Config.load repr_ int_of_str false file' environ' (fst r) = (fst r, None).
Proof.
  intros Hforce Hconfig Hmiss Hint Hitems Hall Hsection Hlevel Hname. cbv zeta.
  rewrite (load_forced repr_ int_of_str force file environ cls config
             Hforce Hconfig).
  rewrite missing_values_absent in Hmiss. rewrite Hmiss.
  apply absent_nil in Hmiss as (Ht & Hp & _ & _).
  apply truthy_present in Ht as (token_ & Ht & _).
  apply truthy_present in Hp as (prefix_ & Hp & _).
  rewrite (assign_scalars repr_ int_of_str config cls token_ prefix_
             (Config.VDict items) owner Ht Hp Hitems Hint).
  cbv zeta.
  set (head := scalars_assigned repr_ token_ prefix_ owner
                 (Config.or_ (Config.dict_get config "mentionable")
                    (Config.VBool false)) cls).
  assert (Hall' : forall k, k ∈ Config.mandatory_pg_values ->
            exists v, Config.subscript (Config.VDict items) k = Config.Ret v).
  { intros k Hk. apply list_elem_of_In in Hk. specialize (Hall k Hk).
    unfold Config.subscript, Config.item.
    destruct (items !! k) as [v|]; [eauto|congruence]. }
  pose proof (copy_credential_all (Config.VDict items)
                Config.mandatory_pg_values Hall' (head, None) eq_refl) as Hnone.
  destruct (copy_credential_done (Config.VDict items)
              Config.mandatory_pg_values (head, None) Hnone) as (_ & Hin & _).
  pose proof (copy_credential_frame (Config.VDict items)
                Config.mandatory_pg_values (head, None)) as (F1 & F2 & F3 & F4 & F5).
  destruct (foldl (Config.copy_credential (Config.VDict items)) (head, None)
              Config.mandatory_pg_values) as [cls1 raised] eqn:Hfold.
  cbn [fst snd] in *. subst raised.
  unfold Config.item. rewrite Hsection. unfold Config.subscript, Config.item.
  rewrite Hlevel. cbn [Config.level_of].
  assert (Hunknown : Config.LOG_LEVELS !! name = None).
  { unfold Config.LOG_LEVELS.
    rewrite !lookup_insert_ne, lookup_empty; [reflexivity|..];
      intros <-; apply Hname; cbn; tauto. }
  rewrite Hunknown. cbn [fst snd Config.str_].
  split; [reflexivity|].
  assert (Htoken : Config.is_set (Config.token cls1) = true) by now rewrite F1.
  split; [exact Htoken|]. split; [now rewrite F3|]. split.
  - intros k Hk. apply list_elem_of_In in Hk.
    destruct (Hin k Hk) as (v & Hv & Hw). rewrite Hw.
    unfold Config.subscript, Config.item in Hv.
    destruct (items !! k); congruence.
  - split; [now rewrite F5|].
    intros file' environ'. now apply load_early_return.
Qed.

Lemma unknown_log_level_rejected_witness :
  snd (Config.load sample_repr sample_int_of_str false
         (Config.Loaded (Config.VDict sample_error_level)) ∅ Config.unloaded)
  = Some (Config.ConfigValueError "Invalid logging level: ERROR").
Proof.
  destruct (unknown_log_level_rejected sample_repr sample_int_of_str false
              (Config.Loaded (Config.VDict sample_error_level)) ∅
              Config.unloaded
              (Config.load_env ∅ ∪ sample_error_level)
              sample_credentials
              (<["level" := Config.VStr "ERROR"]> ∅) 0 "ERROR"
              ltac:(right; reflexivity) eq_refl eq_refl eq_refl eq_refl
              ltac:(intros k [<-|[<-|[<-|[<-|[<-|[]]]]]]; discriminate)
              eq_refl eq_refl
              ltac:(intros [H|[H|[H|[]]]]; discriminate)) as (H & _).
  exact H.
Defined.

Lemma assign_sets_token (repr_ : Config.value -> string)
    (int_of_str : string -> option Z) (config : gmap string Config.value)
    (cls : Config.state) (token_ : Config.value) :
  config !! "token" = Some token_ ->
  Config.token (fst (Config.assign repr_ int_of_str config cls))
  = Some (Config.str_ repr_ token_).
Proof.
  intros Ht. unfold Config.assign, Config.item. rewrite Ht.
  destruct (Config.int_ int_of_str
              (Config.or_ (Config.dict_get config "owner_id") (Config.VInt 0)))
    as [owner|e]; [|reflexivity].
  destruct (config !! "prefix") as [prefix_|]; [|reflexivity].
  set (head := match Config.or_ (Config.dict_get config "mentionable")
                       (Config.VBool false) with
               | Config.VStr s => _
               | _ => _
               end).
  assert (Hhead : Config.token head = Some (Config.str_ repr_ token_)).
  { subst head.
    destruct (Config.or_ (Config.dict_get config "mentionable")
                (Config.VBool false)); reflexivity. }
  destruct (config !! "db_credentials") as [credentials|]; [|exact Hhead].
  pose proof (copy_credential_frame credentials Config.mandatory_pg_values
                (head, None)) as (F1 & _).
  destruct (foldl (Config.copy_credential credentials) (head, None)
              Config.mandatory_pg_values) as [cls1 [e|]];
    cbn [fst snd] in *; [now rewrite F1|].
  destruct (config !! "logging") as [section|];
    [|cbn [fst]; now rewrite F1].
  destruct (Config.subscript section "level") as [log_level|e];
    [|cbn [fst]; now rewrite F1].
  destruct (Config.level_of log_level) as [[level|]|e]; cbn;
    now rewrite <- Hhead, <- F1.
Qed.

(** X25.  Once the check for missing values has passed, [load] sets
    [token] first, so whatever it raises afterwards ([ValueError] or
    [TypeError] from [int], [KeyError] or [TypeError] from the sections,
    [ConfigValueError] for the level), [token] holds [str] of the
    configured token, and every later [load()] without [force] returns at
    once without an exception and without changing the class. *)
Theorem failed_load_is_not_repeated (repr_ : Config.value -> string)
    (int_of_str : string -> option Z) (force : bool) (file : Config.yaml_file)
    (environ : gmap string string) (cls : Config.state)
    (config : gmap string Config.value) :
  force = true \/ Config.token cls = None ->
  Config.unpack (Config.load_yaml file) (Config.load_env environ)
  = Config.Ret config ->
  Config.missing_values config = [] ->
  let r := Config.load repr_ int_of_str force file environ cls in
  (exists token_,
     config !! "token" = Some token_
     /\ Config.token (fst r) = Some (Config.str_ repr_ token_))
  /\ forall file' environ',
       Config.load repr_ int_of_str false file' environ' (fst r) = (fst r, None).
Proof.
  intros Hforce Hconfig Hmiss. cbv zeta.
  rewrite (load_forced repr_ int_of_str force file environ cls config
             Hforce Hconfig).
  rewrite missing_values_absent in Hmiss. rewrite Hmiss.
  apply absent_nil in Hmiss as (Ht & _).
  apply truthy_present in Ht as (token_ & Ht & _).
  pose proof (assign_sets_token repr_ int_of_str config cls token_ Ht) as Hset.
  split; [eauto|].
  intros file' environ'. apply load_early_return. now rewrite Hset.
Qed.

Lemma failed_load_is_not_repeated_witness :
  Config.load sample_repr sample_int_of_str false Config.NoFile ∅
    (fst (Config.load sample_repr sample_int_of_str false
            (Config.Loaded (Config.VDict sample_error_level)) ∅
            Config.unloaded))
  = (fst (Config.load sample_repr sample_int_of_str false
            (Config.Loaded (Config.VDict sample_error_level)) ∅
            Config.unloaded), None).
Proof.
  exact (proj2 (failed_load_is_not_repeated sample_repr sample_int_of_str false
                  (Config.Loaded (Config.VDict sample_error_level)) ∅
                  Config.unloaded (Config.load_env ∅ ∪ sample_error_level)
                  ltac:(right; reflexivity) eq_refl eq_refl)
           Config.NoFile ∅).
Defined.

(** X26.  A file that is missing or cannot be read counts as an empty
    mapping, but a file that holds something other than a mapping (an
    empty file, for which [yaml.safe_load] gives [None], or a scalar or a
    sequence) makes [load] raise [TypeError] on unpacking it, whatever the
    environment provides; the class is untouched. *)
Theorem file_without_mapping_raises_TypeError
    (repr_ : Config.value -> string) (int_of_str : string -> option Z)
    (force : bool) (environ : gmap string string) (cls : Config.state)
    (v : Config.value) :
  force = true \/ Config.token cls = None ->
  (forall items, v <> Config.VDict items) ->
  Config.load repr_ int_of_str force (Config.Loaded v) environ cls
  = (cls, Some Config.TypeError)
  /\ Config.load repr_ int_of_str force Config.NoFile environ cls
     = Config.load repr_ int_of_str force (Config.Loaded (Config.VDict ∅))
         environ cls
  /\ Config.load repr_ int_of_str force Config.Unreadable environ cls
     = Config.load repr_ int_of_str force (Config.Loaded (Config.VDict ∅))
         environ cls.
Proof.
  intros Hforce Hv. split; [|split; reflexivity].
  unfold Config.load.
  assert (Hgo : negb force && Config.is_set (Config.token cls) = false).
  { destruct Hforce as [->| ->]; [reflexivity|apply andb_false_r]. }
  rewrite Hgo. destruct v; try reflexivity. now destruct (Hv items).
Qed.

Lemma file_without_mapping_raises_TypeError_witness :
  Config.load sample_repr sample_int_of_str false (Config.Loaded Config.VNone)
    (<["TOKEN" := "abc"]> ∅) Config.unloaded
  = (Config.unloaded, Some Config.TypeError).
Proof.
  exact (proj1 (file_without_mapping_raises_TypeError sample_repr
                  sample_int_of_str false (<["TOKEN" := "abc"]> ∅)
                  Config.unloaded Config.VNone
                  ltac:(right; reflexivity) ltac:(discriminate))).
Defined.
